(** * IA_2025_Grupo1: profit simulation, feature windowing, training and
      hypothesis-test orchestration, embedded from the Python sources

    Sources embedded here:
    - [src/modules/simulation.py]: [simulate_profit], [simulate_profit_series],
      [simulate_hold_strategy];
    - [src/modules/models.py]: [prepare_features], [train_mlp_model],
      [train_polynomial_models];
    - [src/modules/hypothesis_tests.py]: [perform_mean_return_test],
      [perform_mean_return_monthly_test];
    - [src/modules/data_load.py]: [load_all_cryptos];
    - [src/modules/logging.py]: [get_logger];
    - [src/predict.py]: the hold-out split of [run_comparison];
    - [src/anova.py]: the trade-volume groups of [run_analysis].

    Prices, predictions and balances are numpy [float64] values.  They are
    modelled by the IEEE-754 binary64 instance of the Standard Library's
    executable specification of floating-point arithmetic ([SpecFloat]):
    round-to-nearest-even, signed zeros, infinities and NaN, with the
    comparison operators returning [false] on NaN exactly as numpy does.
    Integer arrays, as the tests pass them, are read through their
    conversion to float64, which is exact below [2^53]. *)

From Stdlib Require Import ZArith Lia Bool.
From Stdlib Require Import Floats.SpecFloat.
From stdpp Require Import base option list strings gmap.

Local Open Scope Z_scope.

(** ** IEEE-754 binary64 *)

Module Float64.

Definition prec : Z := 53.
Definition emax : Z := 1024.

Definition float : Type := spec_float.

Definition fmul : float -> float -> float := SFmul prec emax.
Definition fdiv : float -> float -> float := SFdiv prec emax.
Definition fsub : float -> float -> float := SFsub prec emax.

(** [x < y], [x <= y], [x > y], [x >= y], [x == y]: all [false] when either
    side is NaN. *)
Definition flt (x y : float) : bool := SFltb x y.
Definition fle (x y : float) : bool := SFleb x y.
Definition fgt (x y : float) : bool := SFltb y x.
Definition fge (x y : float) : bool := SFleb y x.
Definition feq (x y : float) : bool := SFeqb x y.

(** [np.isnan] *)
Definition isnan (x : float) : bool :=
  match x with S754_nan => true | _ => false end.

Definition nan : float := S754_nan.
Definition pinf : float := S754_infinity false.
Definition zero : float := S754_zero false.

(** The float64 nearest to [m * 2^e] and to the integer [z]. *)
Definition of_scaled (m e : Z) : float := binary_normalize prec emax m e false.
Definition of_Z (z : Z) : float := of_scaled z 0.

Definition one : float := Eval vm_compute in of_Z 1.
Definition ten : float := Eval vm_compute in of_Z 10.

(** A genuine float64: the mantissa is canonical for its exponent and the
    exponent is in range.  [spec_float] also contains triples that denote
    no float64; the operations never produce them from valid operands. *)
Definition valid (x : float) : bool := valid_binary prec emax x.

(** A number, not NaN, with a clear sign bit: [+0.0], a positive finite
    float or [+inf]. *)
Definition nonneg (x : float) : bool :=
  match x with
  | S754_zero false | S754_infinity false | S754_finite false _ _ => true
  | _ => false
  end.

End Float64.

Import Float64.

(** ** [src/modules/simulation.py] *)

Module Simulation.

(** [min_price = 1.0] *)
Definition min_price : float := one.

(** The class of the object bound to [balance].  The caller's
    [initial_balance] is a Python [float] or a [numpy.float64] (both
    satisfy the annotation [float]); the arrays are numpy arrays, so
    [change] is a [numpy.float64] and [balance *= change] binds [balance]
    to a [numpy.float64], whatever the class of its left operand.  An
    [int] balance, as one test passes, is read as the [float] of the same
    value: [round(., 2)] returns either unchanged. *)
Inductive NumType : Type := PyFloat | NpFloat64.

Section Loops.

(** Python's built-in [round(balance, 2)] calls
    [type(balance).__round__(2)]: [float.__round__] rounds the exact
    decimal expansion of the value, [numpy.float64.__round__] multiplies
    by 100, rounds to an integer and divides by 100, and the two differ
    (on [2.675]: [2.67] and [2.68]).  Neither is code of this repository;
    the development is parametric in them. *)
Variable round2 : NumType -> float -> float.

(** The body of [for i in range(len(y_true) - 1)] in [simulate_profit],
    run over the index list [idx] from the balance [balance].
    [None] is the [IndexError] raised by an out-of-range subscript. *)
Fixpoint profit_loop (y_true y_pred : list float) (idx : list nat)
         (balance : float) : option float :=
  match idx with
  | [] => Some balance
  | i :: rest =>
      today_real ← y_true !! i;
      tomorrow_real ← y_true !! (i + 1)%nat;
      tomorrow_pred ← y_pred !! (i + 1)%nat;
      if isnan today_real || isnan tomorrow_real || isnan tomorrow_pred
      then profit_loop y_true y_pred rest balance
      else if fle today_real min_price || fle tomorrow_real min_price
      then profit_loop y_true y_pred rest balance
      else if fgt tomorrow_pred today_real then
        let change := fdiv tomorrow_real today_real in
        if fgt change ten
        then profit_loop y_true y_pred rest balance
        else profit_loop y_true y_pred rest (fmul balance change)
      else profit_loop y_true y_pred rest balance
  end.

(** The value of [balance] in [simulate_profit] after the first [k]
    iterations of the loop. *)
Definition balance_after (y_true y_pred : list float) (k : nat)
           (initial_balance : float) : option float :=
  profit_loop y_true y_pred (seq 0 k) initial_balance.

(** The balance when the loop of [simulate_profit] ends, before
    [round]. *)
Definition simulate_profit_raw (y_true y_pred : list float)
           (initial_balance : float) : option float :=
  balance_after y_true y_pred (length y_true - 1) initial_balance.

(** The class of [balance] along the same loop: only [balance *= change]
    rebinds the variable. *)
Fixpoint profit_type_loop (y_true y_pred : list float) (idx : list nat)
         (balance_type : NumType) : option NumType :=
  match idx with
  | [] => Some balance_type
  | i :: rest =>
      today_real ← y_true !! i;
      tomorrow_real ← y_true !! (i + 1)%nat;
      tomorrow_pred ← y_pred !! (i + 1)%nat;
      if isnan today_real || isnan tomorrow_real || isnan tomorrow_pred
      then profit_type_loop y_true y_pred rest balance_type
      else if fle today_real min_price || fle tomorrow_real min_price
      then profit_type_loop y_true y_pred rest balance_type
      else if fgt tomorrow_pred today_real then
        let change := fdiv tomorrow_real today_real in
        if fgt change ten
        then profit_type_loop y_true y_pred rest balance_type
        else profit_type_loop y_true y_pred rest NpFloat64
      else profit_type_loop y_true y_pred rest balance_type
  end.

(** The class of [balance] when the loop of [simulate_profit] ends. *)
Definition simulate_profit_type (y_true y_pred : list float)
           (initial_type : NumType) : option NumType :=
  profit_type_loop y_true y_pred (seq 0 (length y_true - 1)) initial_type.

(** [simulate_profit(y_true, y_pred, initial_balance)], for an
    [initial_balance] of class [initial_type]: [round] is the one of the
    class [balance] has when the loop ends. *)
Definition simulate_profit (y_true y_pred : list float)
           (initial_type : NumType) (initial_balance : float) : option float :=
  balance ← simulate_profit_raw y_true y_pred initial_balance;
  balance_type ← simulate_profit_type y_true y_pred initial_type;
  Some (round2 balance_type balance).

(** The loop of [simulate_profit_series]: the same tests, written out a
    second time in the source, with [balances.append(balance)] on every
    path. *)
Fixpoint series_loop (y_true y_pred : list float) (idx : list nat)
         (balance : float) (balances : list float) : option (list float) :=
  match idx with
  | [] => Some balances
  | i :: rest =>
      today_real ← y_true !! i;
      tomorrow_real ← y_true !! (i + 1)%nat;
      tomorrow_pred ← y_pred !! (i + 1)%nat;
      if isnan today_real || isnan tomorrow_real || isnan tomorrow_pred
      then series_loop y_true y_pred rest balance (balances ++ [balance])
      else if fle today_real min_price || fle tomorrow_real min_price
      then series_loop y_true y_pred rest balance (balances ++ [balance])
      else if fgt tomorrow_pred today_real then
        let change := fdiv tomorrow_real today_real in
        if fgt change ten
        then series_loop y_true y_pred rest balance (balances ++ [balance])
        else
          let balance := fmul balance change in
          series_loop y_true y_pred rest balance (balances ++ [balance])
      else series_loop y_true y_pred rest balance (balances ++ [balance])
  end.

Definition simulate_profit_series (y_true y_pred : list float)
           (initial_balance : float) : option (list float) :=
  series_loop y_true y_pred (seq 0 (length y_true - 1))
              initial_balance [initial_balance].

(** The classes of the objects [simulate_profit_series] appends, entry by
    entry: the trajectory holds the caller's own object until the first
    trade and [numpy.float64] objects from then on. *)
Fixpoint series_type_loop (y_true y_pred : list float) (idx : list nat)
         (balance_type : NumType) (types : list NumType)
  : option (list NumType) :=
  match idx with
  | [] => Some types
  | i :: rest =>
      today_real ← y_true !! i;
      tomorrow_real ← y_true !! (i + 1)%nat;
      tomorrow_pred ← y_pred !! (i + 1)%nat;
      if isnan today_real || isnan tomorrow_real || isnan tomorrow_pred
      then series_type_loop y_true y_pred rest balance_type
                            (types ++ [balance_type])
      else if fle today_real min_price || fle tomorrow_real min_price
      then series_type_loop y_true y_pred rest balance_type
                            (types ++ [balance_type])
      else if fgt tomorrow_pred today_real then
        let change := fdiv tomorrow_real today_real in
        if fgt change ten
        then series_type_loop y_true y_pred rest balance_type
                              (types ++ [balance_type])
        else series_type_loop y_true y_pred rest NpFloat64
                              (types ++ [NpFloat64])
      else series_type_loop y_true y_pred rest balance_type
                            (types ++ [balance_type])
  end.

Definition simulate_profit_series_types (y_true y_pred : list float)
           (initial_type : NumType) : option (list NumType) :=
  series_type_loop y_true y_pred (seq 0 (length y_true - 1))
                   initial_type [initial_type].

End Loops.

(** The two [__round__] methods behind [round(balance, 2)], to run
    [simulate_profit] on concrete inputs.  They are library code: every
    theorem on [simulate_profit] holds for any [round2]. *)

Definition hundred : float := Eval vm_compute in of_Z 100.

(** The integer nearest to [n / d], ties to the even one ([0 <= n],
    [0 < d]). *)
Definition round_half_even (n d : Z) : Z :=
  let q := n / d in
  let r := n mod d in
  if 2 * r <? d then q
  else if d <? 2 * r then q + 1
  else if Z.even q then q else q + 1.

(** [numpy.rint]: the nearest integer, ties to even, with the sign of its
    argument; NaN, infinities and zeros are returned as they are. *)
Definition rint (x : float) : float :=
  match x with
  | S754_finite s m e =>
      if 0 <=? e then x
      else match round_half_even (Z.pos m) (2 ^ (- e)) with
           | Z.pos n =>
               binary_normalize prec emax (if s then Z.neg n else Z.pos n) 0 s
           | _ => S754_zero s
           end
  | _ => x
  end.

(** [numpy.float64.__round__(2)] goes through [ndarray.round], which
    computes [rint(x * 100.0) / 100.0] in float64. *)
Definition numpy_round2 (x : float) : float :=
  fdiv (rint (fmul x hundred)) hundred.

(** [float.__round__(2)] (CPython's [double_round]): a NaN or an infinity
    is returned as it is; otherwise the exact value is rounded to two
    decimals, ties to even, and the decimal is converted back to the
    nearest float, with the sign of the argument.  A float whose exponent
    is not negative is an integer and is returned as it is. *)
Definition python_round2 (x : float) : float :=
  match x with
  | S754_finite s m e =>
      if 0 <=? e then x
      else match round_half_even (100 * Z.pos m) (2 ^ (- e)) with
           | Z.pos n => SFdiv prec emax (S754_finite s n 0) hundred
           | _ => S754_zero s
           end
  | _ => x
  end.

(** [round(balance, 2)] as the interpreter dispatches it. *)
Definition library_round2 (balance_type : NumType) : float -> float :=
  match balance_type with
  | PyFloat => python_round2
  | NpFloat64 => numpy_round2
  end.

(** [simulate_hold_strategy]: [quantidade * y_true] is numpy's elementwise
    product of the scalar with the array. *)
Definition simulate_hold_strategy (y_true : list float)
           (initial_balance : float) : option (list float) :=
  if (length y_true <? 2)%nat then Some [initial_balance]
  else
    preco_inicial ← y_true !! 0%nat;
    let quantidade := fdiv initial_balance preco_inicial in
    let saldo_diario := map (fmul quantidade) y_true in
    Some saldo_diario.

End Simulation.

Import Simulation.

(** ** [src/modules/models.py] *)

Module Models.

(** The pandas [DataFrame] as [prepare_features] reads it: the ['close']
    column and the other columns of the frame ([open], [high], [volume],
    [tradecount], ...), all as long as the index.  Columns named
    [lag_1] .. [lag_window] are overwritten by the function and are not
    listed in [others].  A missing value is NaN. *)
Record DataFrame : Type := { close : list float; others : list (list float) }.

(** [Series.shift(periods)] for [periods >= 0]: the values move down by
    [periods] rows, NaN fills the top, the length is kept. *)
Definition shift (periods : nat) (s : list float) : list float :=
  take (length s) (replicate periods nan ++ s).

(** [for i in range(1, window + 1): df[f'lag_{i}'] = df['close'].shift(i)] *)
Definition lag_columns (window : nat) (df : DataFrame) : list (list float) :=
  map (fun i => shift i (close df)) (seq 1 window).

(** Row [r] of a list of columns, and whether it holds a missing value. *)
Definition row (cols : list (list float)) (r : nat) : list float :=
  omap (fun c : list float => c !! r) cols.

Definition row_has_na (cols : list (list float)) (r : nat) : bool :=
  existsb (fun c : list float =>
             match c !! r with Some v => isnan v | None => false end) cols.

(** [df.dropna(inplace=True)]: the row labels that survive, in order.  The
    test looks at every column of the frame. *)
Definition dropna_rows (cols : list (list float)) (n : nat) : list nat :=
  filter (fun r => row_has_na cols r = false) (seq 0 n).

(** [prepare_features(df, window)]: returns [(X, y)]. *)
Definition prepare_features (df : DataFrame) (window : nat)
  : list (list float) * list float :=
  let lags := lag_columns window df in
  let kept := dropna_rows (close df :: others df ++ lags) (length (close df)) in
  let X := map (row lags) kept in
  let y := omap (fun r => close df !! r) kept in
  (X, y).

Section Training.

(** The scikit-learn calls of [train_mlp_model].  [None] stands for a
    raised exception. *)
Variable Model : Type.
(** [KFold(n_splits=k, shuffle=True, random_state=42).split(X)] on [n]
    samples: the [(train_idx, val_idx)] pairs. *)
Variable kfold_split : nat -> nat -> option (list (list nat * list nat)).
(** [MLPRegressor(...).fit(X_train, y_train)] *)
Variable mlp_fit : list (list float) -> list float -> option Model.
(** [model.predict(X_val)] *)
Variable predict : Model -> list (list float) -> option (list float).
(** [mean_squared_error(y_val, y_pred)] and [r2_score(y_val, y_pred)] *)
Variable mean_squared_error : list float -> list float -> option float.
Variable r2_score : list float -> list float -> option float.

(** [a[idx]] with an index array: [IndexError] when an index is out of
    range. *)
Definition take_rows {A : Type} (a : list A) (idx : list nat) : option (list A) :=
  mapM (fun i => a !! i) idx.

(** One iteration of the fold loop up to the score: the candidate
    fitted on the training part and its validation MSE. *)
Definition fit_and_score (X : list (list float)) (y : list float)
           (fold : list nat * list nat) : option (Model * float) :=
  let '(train_idx, val_idx) := fold in
  X_train ← take_rows X train_idx;
  X_val ← take_rows X val_idx;
  y_train ← take_rows y train_idx;
  y_val ← take_rows y val_idx;
  model ← mlp_fit X_train y_train;
  y_pred ← predict model X_val;
  mse ← mean_squared_error y_val y_pred;
  _ ← r2_score y_val y_pred;
  Some (model, mse).

(** The [for fold, (train_idx, val_idx) in enumerate(kf.split(X))] loop
    with its two variables [best_model] and [best_score].  The outer
    [None] is an exception leaving the loop. *)
Fixpoint cv_loop (X : list (list float)) (y : list float)
         (folds : list (list nat * list nat))
         (best_model : option Model) (best_score : float)
  : option (option Model) :=
  match folds with
  | [] => Some best_model
  | fold :: rest =>
      '(model, mse) ← fit_and_score X y fold;
      if flt mse best_score
      then cv_loop X y rest (Some model) mse
      else cv_loop X y rest best_model best_score
  end.

(** [train_mlp_model(X, y, k)]: the [try] block, and [except Exception:
    return None]. *)
Definition train_mlp_model (X : list (list float)) (y : list float)
           (k : nat) : option Model :=
  match (folds ← kfold_split k (length X); cv_loop X y folds None pinf) with
  | Some best_model => best_model
  | None => None
  end.

End Training.

End Models.

Import Models.

(** ** [src/modules/hypothesis_tests.py] *)

Module HypothesisTests.

(** [(media, t_stat, p_value, rejeita_H0)] *)
Definition TestResult : Type := float * float * float * bool.

(** [(np.nan, np.nan, np.nan, False)] *)
Definition undefined_result : TestResult := (nan, nan, nan, false).

(** What the function prints for an asset. *)
Inductive Message : Type :=
| InsufficientData (coin : string) (n : nat)
| NotNormal (coin : string) (shapiro_p : float)
| ErrorOnCoin (coin : string).

(** [np.sqrt(n)] *)
Definition sqrt_of_len (n : nat) : float :=
  SFsqrt prec emax (of_Z (Z.of_nat n)).

(** [monthly_returns[-6:]] *)
Definition last_rows {A : Type} (n : nat) (l : list A) : list A :=
  drop (length l - n) l.

Section MonthlyTest.

(** The pandas and scipy calls.  [None] stands for a raised exception. *)
Variable DataFrame : Type.
(** Lines 91-99: [sort_index], grouping by month, last close of each
    month, [pct_change().dropna() * 100]. *)
Variable monthly_returns_pct : DataFrame -> option (list float).
(** [stats.shapiro(monthly_returns)], second component. *)
Variable shapiro_pvalue : list float -> option float.
(** [monthly_returns.mean()] and [monthly_returns.std(ddof=1)] *)
Variable series_mean : list float -> float.
Variable series_std : list float -> float.
(** [stats.t.cdf(t_stat, df=n - 1)] *)
Variable t_cdf : float -> nat -> option float.

(** The [try] block of the loop body for one asset: the recorded tuple
    and the printed line, or [None] when an exception reaches
    [except]. *)
Definition try_asset (coin : string) (df : DataFrame)
           (threshold_percent alpha : float)
  : option (TestResult * list Message) :=
  monthly_returns ← monthly_returns_pct df;
  let monthly_returns := last_rows 6 monthly_returns in
  if (length monthly_returns <? 3)%nat then
    Some (undefined_result,
          [InsufficientData coin (length monthly_returns)])
  else
    shapiro_p ← shapiro_pvalue monthly_returns;
    if fge shapiro_p alpha then
      let sample_mean := series_mean monthly_returns in
      let sample_std := series_std monthly_returns in
      let n := length monthly_returns in
      let t_stat := fdiv (fsub sample_mean threshold_percent)
                         (fdiv sample_std (sqrt_of_len n)) in
      p_value ← t_cdf t_stat (n - 1)%nat;
      let reject_H0 := flt p_value alpha in
      Some ((sample_mean, t_stat, p_value, reject_H0), [])
    else
      let sample_mean := series_mean monthly_returns in
      Some ((sample_mean, nan, nan, false), [NotNormal coin shapiro_p]).

(** The loop body with its [except Exception] handler. *)
Definition asset_step (threshold_percent alpha : float)
           (st : gmap string TestResult * list Message)
           (item : string * DataFrame)
  : gmap string TestResult * list Message :=
  let '(results, out) := st in
  let '(coin, df) := item in
  match try_asset coin df threshold_percent alpha with
  | Some (r, msgs) => (<[coin := r]> results, out ++ msgs)
  | None => (<[coin := undefined_result]> results, out ++ [ErrorOnCoin coin])
  end.

(** [perform_mean_return_monthly_test(data, threshold_percent, alpha)]:
    [data.items()] is the list of the dict's items in insertion order;
    the result is the [results] dict together with what was printed. *)
Definition perform_mean_return_monthly_test
           (data : list (string * DataFrame))
           (threshold_percent alpha : float)
  : gmap string TestResult * list Message :=
  foldl (asset_step threshold_percent alpha) (∅, []) data.

End MonthlyTest.

End HypothesisTests.

Import HypothesisTests.

(** ** [src/modules/hypothesis_tests.py]: the daily test *)

Module DailyTest.

Section DailyTest.

(** The pandas and scipy calls.  [None] stands for a raised exception. *)
Variable DataFrame : Type.
(** Lines 32-35: [sort_index], [pct_change().dropna()], [* 100]. *)
Variable daily_returns_pct : DataFrame -> option (list float).
(** [stats.shapiro(returns)], second component. *)
Variable shapiro_pvalue : list float -> option float.
(** [returns.mean()] and [returns.std(ddof=1)] *)
Variable series_mean : list float -> float.
Variable series_std : list float -> float.
(** [stats.t.cdf(t_stat, df=n-1)] *)
Variable t_cdf : float -> Z -> option float.

(** The [try] block of the loop body of [perform_mean_return_test] for
    one asset.  There is no test on the number of returns here: the mean
    and the deviation are taken first, then Shapiro-Wilk is called. *)
Definition try_asset_daily (coin : string) (df : DataFrame)
           (threshold_percent alpha : float)
  : option (TestResult * list Message) :=
  returns ← daily_returns_pct df;
  let sample_mean := series_mean returns in
  let sample_std := series_std returns in
  let n := length returns in
  shapiro_p ← shapiro_pvalue returns;
  if fge shapiro_p alpha then
    let t_stat := fdiv (fsub sample_mean threshold_percent)
                       (fdiv sample_std (sqrt_of_len n)) in
    p_value ← t_cdf t_stat (Z.of_nat n - 1);
    let reject_H0 := flt p_value alpha in
    Some ((sample_mean, t_stat, p_value, reject_H0), [])
  else
    Some ((sample_mean, nan, nan, false), [NotNormal coin shapiro_p]).

(** The loop body with its [except Exception] handler. *)
Definition asset_step_daily (threshold_percent alpha : float)
           (st : gmap string TestResult * list Message)
           (item : string * DataFrame)
  : gmap string TestResult * list Message :=
  let '(results, out) := st in
  let '(coin, df) := item in
  match try_asset_daily coin df threshold_percent alpha with
  | Some (r, msgs) => (<[coin := r]> results, out ++ msgs)
  | None => (<[coin := undefined_result]> results, out ++ [ErrorOnCoin coin])
  end.

(** [perform_mean_return_test(data, threshold_percent, alpha)] *)
Definition perform_mean_return_test
           (data : list (string * DataFrame))
           (threshold_percent alpha : float)
  : gmap string TestResult * list Message :=
  foldl (asset_step_daily threshold_percent alpha) (∅, []) data.

End DailyTest.

End DailyTest.

(** ** [src/modules/models.py]: the polynomial baselines *)

Module Baselines.

Section Polynomial.

Variable Pipeline : Type.
(** [make_pipeline(PolynomialFeatures(d), LinearRegression())] followed by
    [model.fit(X, y)]; [None] stands for a raised exception. *)
Variable fit_polynomial :
  Z -> list (list float) -> list float -> option Pipeline.

(** The [for d in degrees] loop over the dict [models].  There is no
    [try]: an exception of a fit leaves the function. *)
Fixpoint polynomial_loop (X : list (list float)) (y : list float)
         (degrees : list Z) (models : gmap Z Pipeline)
  : option (gmap Z Pipeline) :=
  match degrees with
  | [] => Some models
  | d :: rest =>
      model ← fit_polynomial d X y;
      polynomial_loop X y rest (<[d := model]> models)
  end.

(** [train_polynomial_models(X, y, degrees)] *)
Definition train_polynomial_models (X : list (list float)) (y : list float)
           (degrees : list Z) : option (gmap Z Pipeline) :=
  polynomial_loop X y degrees ∅.

End Polynomial.

End Baselines.

(** ** [src/predict.py]: the hold-out split of [run_comparison] *)

Module Predict.

(** [a[:-n]] and [a[-n:]] for a positive [n]: the slice bounds are
    clipped at the start of the array. *)
Definition all_but_last {A : Type} (n : nat) (a : list A) : list A :=
  take (length a - n) a.
Definition last_n {A : Type} (n : nat) (a : list A) : list A :=
  drop (length a - n) a.

(** Lines 92-94 of [run_comparison]:
    [X, y = prepare_features(df, window=7)], then
    [X_train, X_test = X[:-30], X[-30:]] and the same for [y]. *)
Definition comparison_split (df : DataFrame)
  : (list (list float) * list (list float)) * (list float * list float) :=
  let '(X, y) := prepare_features df 7 in
  ((all_but_last 30 X, last_n 30 X), (all_but_last 30 y, last_n 30 y)).

End Predict.

(** ** [src/modules/data_load.py] *)

Module DataLoad.

(** The fixed list of symbols. *)
Definition cryptos : list string :=
  ["ADA"; "AVAX"; "BNB"; "BTC"; "DOGE"; "DOT"; "ETH"; "SHIB"; "SOL"; "XRP"]%string.

Section Load.

Variable DataFrame : Type.
(** [os.path.join(base_path, f"{coin}.csv")] *)
Variable file_path : string -> string -> string.
(** The [try] block: [read_csv], reversal, lower-cased headers, date
    parsing, sort and [set_index]; [None] stands for a raised
    exception. *)
Variable read_frame : string -> option DataFrame.

(** The loop body: the frame is stored under its symbol, or the exception
    is logged and the symbol is left out. *)
Definition load_step (base_path : string) (data : gmap string DataFrame)
           (coin : string) : gmap string DataFrame :=
  match read_frame (file_path base_path coin) with
  | Some df => <[coin := df]> data
  | None => data
  end.

(** [load_all_cryptos(base_path)] *)
Definition load_all_cryptos (base_path : string) : gmap string DataFrame :=
  foldl (load_step base_path) ∅ cryptos.

End Load.

End DataLoad.

(** ** [src/modules/logging.py] *)

Module Logging.

(** A [logging.FileHandler] with its formatter, and a [logging.Logger]. *)
Record Handler : Type :=
  { log_file : string; file_mode : string; formatter : string }.
Record Logger : Type := { handlers : list Handler; level : Z }.

(** [logging.NOTSET], [logging.INFO] and [logging.WARNING] *)
Definition NOTSET : Z := 0.
Definition INFO : Z := 20.
Definition WARNING : Z := 30.

(** The name of the root logger, and the logger a requested name denotes:
    [logging.getLogger(name)] returns the root logger when [name] is empty
    or equal to [root.name], and the logger the manager keeps under
    [name] otherwise. *)
Definition root_name : string := "root".
Definition logger_key (name : string) : string :=
  if decide (name = EmptyString) then root_name else name.

(** A logger nobody has configured yet: no handler; level [WARNING] for
    the root logger and [NOTSET] for one the manager creates. *)
Definition fresh_logger (key : string) : Logger :=
  {| handlers := [];
     level := if decide (key = root_name) then WARNING else NOTSET |}.

(** The loggers of the [logging] module, one per key.  [logging.getLogger]
    returns the logger its argument denotes, a fresh one when that logger
    has not been touched. *)
Definition getLogger (name : string) (registry : gmap string Logger) : Logger :=
  default (fresh_logger (logger_key name)) (registry !! logger_key name).

Section GetLogger.

(** [logs_dir / f'{progname}.log'] *)
Variable log_file_path : string -> string.
(** [logging.FileHandler(log_file_path, mode='a')] opens the file; [false]
    stands for the exception it raises when it cannot. *)
Variable can_open : string -> bool.

(** [get_logger(progname)] on the registry: the registry after the call,
    or [None] when opening the log file raises. *)
Definition get_logger (progname : string) (registry : gmap string Logger)
  : option (gmap string Logger) :=
  let logger := getLogger progname registry in
  match handlers logger with
  | [] =>
      if can_open (log_file_path progname) then
        let handler :=
          {| log_file := log_file_path progname; file_mode := "a";
             formatter := "[%(asctime)s] %(levelname)s: %(message)s" |} in
        Some (<[logger_key progname :=
                  {| handlers := handlers logger ++ [handler];
                     level := INFO |}]> registry)
      else None
  | _ :: _ => Some (<[logger_key progname := logger]> registry)
  end.

End GetLogger.

End Logging.

(** ** [src/anova.py]: the trade-volume groups of [run_analysis] *)

Module Anova.

(** Lines 148-150 of [run_analysis]: the symbols whose average trade count
    is at least the median, and those below it, in the order of the
    series.  [trade_count_median] is [avg_trade_count.median()]. *)
Definition high_trade_cryptos (avg_trade_count : list (string * float))
           (trade_count_median : float) : list string :=
  (filter (fun cv => fge cv.2 trade_count_median = true) avg_trade_count).*1.

Definition low_trade_cryptos (avg_trade_count : list (string * float))
           (trade_count_median : float) : list string :=
  (filter (fun cv => flt cv.2 trade_count_median = true) avg_trade_count).*1.

End Anova.

(* ================================================================== *)
(** * Facts about binary64 arithmetic used by the simulation proofs *)

Section Float64Facts.

(** Comparing in the other direction flips the answer; NaN stays
    unordered. *)
Lemma SFcompare_antisym (x y : float) :
  SFcompare y x = CompOpp <$> SFcompare x y.
Proof.
  destruct x as [sx|sx| |sx mx ex], y as [sy|sy| |sy my ey]; simpl;
    try reflexivity;
    try (destruct sx; reflexivity); try (destruct sy; reflexivity);
    try (destruct sx, sy; reflexivity).
  destruct sx, sy; simpl; try reflexivity;
    rewrite (Z.compare_antisym ex ey);
    destruct (ex ?= ey)%Z; simpl; try reflexivity;
    pose proof (Pos.compare_cont_antisym mx my Eq) as Hm; simpl in Hm;
    rewrite <- Hm; destruct (Pos.compare_cont Eq mx my); reflexivity.
Qed.

(** [x <= y] excludes [x > y]. *)
Lemma fle_not_fgt (x y : float) : fle x y = true -> fgt x y = false.
Proof.
  unfold fle, fgt, SFleb, SFltb. rewrite (SFcompare_antisym x y).
  destruct (SFcompare x y) as [[]|]; simpl; congruence.
Qed.

(** A finite float divided by itself is exactly [1.0]: the quotient of
    the mantissas is computed on [m * 2^53] and [m], which leaves no
    remainder to round. *)
Lemma fdiv_self (s : bool) (m : positive) (e : Z) :
  fdiv (S754_finite s m e) (S754_finite s m e) = one.
Proof.
  unfold fdiv, SFdiv, SFdiv_core_binary.
  rewrite !Z.sub_diag.
  change (Z.min (fexp prec emax 0) 0) with (-53).
  change (0 - -53) with 53.
  cbv beta iota zeta.
  assert (Hq : Z.div_eucl (Z.shiftl (Z.pos m) 53) (Z.pos m)
               = (9007199254740992, 0)).
  { rewrite Z.shiftl_mul_pow2 by lia.
    rewrite (Z.mul_comm (Z.pos m)).
    pose proof (Z.div_mul (2 ^ 53) (Z.pos m) ltac:(lia)) as Hd.
    pose proof (Z.mod_mul (2 ^ 53) (Z.pos m) ltac:(lia)) as Hr.
    unfold Z.div, Z.modulo in Hd, Hr.
    destruct (Z.div_eucl (2 ^ 53 * Z.pos m) (Z.pos m)) as [q r].
    subst q r. reflexivity. }
  rewrite Hq.
  assert (Hloc : new_location (Z.pos m) 0 = loc_Exact).
  { unfold new_location, new_location_even, new_location_odd.
    destruct (Z.even (Z.pos m)); reflexivity. }
  rewrite Hloc. destruct s; reflexivity.
Qed.

Lemma digits2_pos_xO (p : positive) :
  Z.pos (digits2_pos p~0) = Z.pos (digits2_pos p) + 1.
Proof. exact (Pos2Z.inj_succ (digits2_pos p)). Qed.

(** Appending 52 zero bits to a mantissa adds 52 to its bit length. *)
Lemma digits2_pos_mul_pow52 (m : positive) :
  Z.pos (digits2_pos (m * 4503599627370496)) = Z.pos (digits2_pos m) + 52.
Proof.
  rewrite Pos.mul_comm. cbv beta iota fix delta [Pos.mul].
  rewrite !digits2_pos_xO. lia.
Qed.

(** Shifting those 52 zero bits out again is exact. *)
Lemma shr_mul_pow52 (m : positive) :
  SpecFloat.iter_pos shr_1 52 (Build_shr_record (Z.pos (m * 4503599627370496)) false false)
  = Build_shr_record (Z.pos m) false false.
Proof.
  rewrite Pos.mul_comm. cbv beta iota fix delta [Pos.mul]. reflexivity.
Qed.

(** Multiplying a float64 by [1.0] returns it unchanged. *)
Lemma fmul_one_r (x : float) : valid x = true -> fmul x one = x.
Proof.
  destruct x as [s|s| |s m e]; simpl; intros Hv;
    try (destruct s; reflexivity); try reflexivity.
  unfold valid, valid_binary, bounded, canonical_mantissa in Hv.
  apply andb_prop in Hv as [Hc He].
  apply Z.eqb_eq in Hc. apply Z.leb_le in He.
  unfold fmul, one, SFmul, binary_round_aux, shr_fexp.
  unfold Zdigits2 at 1. rewrite digits2_pos_mul_pow52.
  replace (Z.pos (digits2_pos m) + 52 + (e + -52))
    with (Z.pos (digits2_pos m) + e) by lia.
  fold prec emax. rewrite Hc.
  replace (e - (e + -52)) with 52 by lia.
  unfold shr_record_of_loc, shr at 1.
  rewrite shr_mul_pow52.
  cbn [shr_m loc_of_shr_record round_nearest_even Zdigits2].
  replace (e + -52 + 52) with e by lia.
  rewrite Hc, Z.sub_diag. cbn [shr shr_m].
  apply Z.leb_le in He. fold prec emax. rewrite He.
  destruct s; reflexivity.
Qed.

End Float64Facts.

(* ================================================================== *)
(** * The two simulation loops *)

(** Splits the goal along the subscripts and the tests of one loop
    iteration, in the order the source evaluates them. *)
Ltac loop_cases :=
  repeat match goal with
    | |- context [@lookup nat float (list float) _ ?i ?l] =>
        destruct (@lookup nat float (list float) _ i l) eqn:?; simpl
    | |- context [if ?c then _ else _] => destruct c eqn:?; simpl
    end.

(** Splits the guards [_ || _ = false] collected on the trading path. *)
Ltac split_guards :=
  repeat match goal with
    | H : (_ || _) = false |- _ => apply orb_false_elim in H as [? ?]
    end.

Section SimulationLoops.

Context (y_true y_pred : list float).

(** The trajectory loop ends on the balance the scalar loop ends on, and
    raises exactly when the scalar loop raises. *)
Lemma series_loop_last (idx : list nat) (b : float) (bs : list float) :
  last bs = Some b ->
  series_loop y_true y_pred idx b bs ≫= last = profit_loop y_true y_pred idx b.
Proof.
  revert b bs. induction idx as [|i rest IH]; intros b bs Hlast; simpl.
  - exact Hlast.
  - loop_cases; try reflexivity; apply IH; apply last_snoc.
Qed.

(** Every iteration appends one entry and leaves the earlier ones alone. *)
Lemma series_loop_shape (idx : list nat) (b : float) (bs tr : list float) :
  series_loop y_true y_pred idx b bs = Some tr ->
  exists tl, tr = bs ++ tl /\ length tl = length idx.
Proof.
  revert b bs. induction idx as [|i rest IH]; intros b bs; simpl.
  - intros [= <-]. exists []. by rewrite app_nil_r.
  - loop_cases; try discriminate; intros Hrun;
      apply IH in Hrun as (tl & -> & Hlen);
      eexists (_ :: tl); rewrite <- app_assoc; simpl; auto.
Qed.

Lemma profit_loop_app (idx1 idx2 : list nat) (b : float) :
  profit_loop y_true y_pred (idx1 ++ idx2) b
  = profit_loop y_true y_pred idx1 b ≫= profit_loop y_true y_pred idx2.
Proof.
  revert b. induction idx1 as [|i rest IH]; intros b; simpl.
  - reflexivity.
  - loop_cases; try reflexivity; apply IH.
Qed.

Lemma series_loop_app (idx1 idx2 : list nat) (b : float) (bs : list float) :
  series_loop y_true y_pred (idx1 ++ idx2) b bs
  = b' ← profit_loop y_true y_pred idx1 b;
    bs' ← series_loop y_true y_pred idx1 b bs;
    series_loop y_true y_pred idx2 b' bs'.
Proof.
  revert b bs. induction idx1 as [|i rest IH]; intros b bs; simpl.
  - reflexivity.
  - loop_cases; try reflexivity; apply IH.
Qed.

(** No subscript is out of range when every index [i] of the run has
    [i + 1] inside both arrays: the loops then return. *)
Lemma profit_loop_total (idx : list nat) (b : float) :
  Forall (fun i => (i + 1 < length y_true)%nat /\ (i + 1 < length y_pred)%nat) idx ->
  is_Some (profit_loop y_true y_pred idx b).
Proof.
  intros Hidx. revert b. induction Hidx as [|i rest [Ht Hp] _ IH]; intros b; simpl.
  - by eexists.
  - destruct (lookup_lt_is_Some_2 y_true i ltac:(lia)) as [t0 ->].
    destruct (lookup_lt_is_Some_2 y_true (i + 1) Ht) as [t1 ->].
    destruct (lookup_lt_is_Some_2 y_pred (i + 1) Hp) as [p1 ->].
    simpl. loop_cases; apply IH.
Qed.

Lemma series_loop_total (idx : list nat) (b : float) (bs : list float) :
  Forall (fun i => (i + 1 < length y_true)%nat /\ (i + 1 < length y_pred)%nat) idx ->
  is_Some (series_loop y_true y_pred idx b bs).
Proof.
  intros Hidx. revert b bs.
  induction Hidx as [|i rest [Ht Hp] _ IH]; intros b bs; simpl.
  - by eexists.
  - destruct (lookup_lt_is_Some_2 y_true i ltac:(lia)) as [t0 ->].
    destruct (lookup_lt_is_Some_2 y_true (i + 1) Ht) as [t1 ->].
    destruct (lookup_lt_is_Some_2 y_pred (i + 1) Hp) as [p1 ->].
    simpl. loop_cases; apply IH.
Qed.

(** A subscript of [y_pred] out of range raises, whatever the step would
    have done. *)
Lemma series_loop_index_error (idx : list nat) (i : nat) (b : float)
      (bs : list float) :
  i ∈ idx -> y_pred !! (i + 1)%nat = None ->
  series_loop y_true y_pred idx b bs = None.
Proof.
  intros Hin Hnone. revert b bs.
  induction Hin as [i rest|i j rest Hin IH]; intros b bs; simpl.
  - rewrite Hnone. by destruct (y_true !! i), (y_true !! (i + 1)%nat).
  - loop_cases; try reflexivity; apply IH, Hnone.
Qed.

Lemma range_in_bounds (n : nat) :
  (n = 0 \/ n + 1 <= length y_true /\ n + 1 <= length y_pred)%nat ->
  Forall (fun i => (i + 1 < length y_true)%nat /\ (i + 1 < length y_pred)%nat)
         (seq 0 n).
Proof.
  intros Hn. apply Forall_forall. intros i Hi.
  apply elem_of_seq in Hi. lia.
Qed.

End SimulationLoops.

Section SimulationRuns.

Context (y_true y_pred : list float) (initial_balance : float).

Lemma balance_after_succ (k : nat) :
  balance_after y_true y_pred (k + 1) initial_balance
  = balance_after y_true y_pred k initial_balance
      ≫= profit_loop y_true y_pred [k].
Proof.
  unfold balance_after. rewrite seq_app. apply profit_loop_app.
Qed.

(** Entry [k] of the trajectory is the scalar loop's balance after [k]
    iterations. *)
Lemma series_entry (n k : nat) (tr : list float) :
  series_loop y_true y_pred (seq 0 n) initial_balance [initial_balance] = Some tr ->
  (k <= n)%nat ->
  tr !! k = balance_after y_true y_pred k initial_balance
  /\ is_Some (tr !! k).
Proof.
  intros Hrun Hk. unfold balance_after.
  replace n with (k + (n - k))%nat in Hrun by lia.
  rewrite seq_app, series_loop_app in Hrun.
  pose proof (series_loop_last y_true y_pred (seq 0 k) initial_balance
                [initial_balance] eq_refl) as Hlast.
  destruct (profit_loop y_true y_pred (seq 0 k) initial_balance) as [b'|];
    [|discriminate].
  simpl in Hrun.
  destruct (series_loop y_true y_pred (seq 0 k) initial_balance
              [initial_balance]) as [bs'|] eqn:Hpre; [|discriminate].
  simpl in Hrun, Hlast.
  apply series_loop_shape in Hpre as (tl1 & -> & Hl1).
  apply series_loop_shape in Hrun as (tl2 & -> & _).
  rewrite length_seq in Hl1.
  rewrite last_lookup in Hlast.
  rewrite lookup_app_l by (simpl; lia).
  simpl in Hlast |- *. rewrite Hl1 in Hlast.
  rewrite Hlast. split; [reflexivity | by eexists].
Qed.

(** An iteration that takes none of the multiplying paths: the anomaly
    test fires, or the entry signal is absent. *)
Lemma profit_step_hold (i : nat) (b today tomorrow pred : float) :
  y_true !! i = Some today ->
  y_true !! (i + 1)%nat = Some tomorrow ->
  y_pred !! (i + 1)%nat = Some pred ->
  fgt (fdiv tomorrow today) ten = true \/ fgt pred today = false ->
  profit_loop y_true y_pred [i] b = Some b.
Proof.
  intros Ht0 Ht1 Hp1 Hhold. simpl. rewrite Ht0, Ht1, Hp1. simpl.
  loop_cases; try reflexivity. destruct Hhold; congruence.
Qed.

(** When iteration [i] holds, the scalar balance and the trajectory
    entry after it are the ones before it. *)
Lemma held_step (i : nat) :
  (i + 1 < length y_true)%nat ->
  (i + 1 < length y_pred)%nat ->
  (forall b, profit_loop y_true y_pred [i] b = Some b) ->
  (exists b, balance_after y_true y_pred i initial_balance = Some b
             /\ balance_after y_true y_pred (i + 1) initial_balance = Some b)
  /\ (forall tr, simulate_profit_series y_true y_pred initial_balance = Some tr ->
        exists b, tr !! i = Some b /\ tr !! (i + 1)%nat = Some b).
Proof.
  intros Ht Hp Hstep.
  assert (Hsame : balance_after y_true y_pred (i + 1) initial_balance
                  = balance_after y_true y_pred i initial_balance).
  { rewrite balance_after_succ.
    destruct (balance_after y_true y_pred i initial_balance) as [b|]; simpl;
      [apply Hstep | reflexivity]. }
  split.
  - destruct (profit_loop_total y_true y_pred (seq 0 i) initial_balance) as [b Hb].
    { apply range_in_bounds. lia. }
    exists b. rewrite Hsame. auto.
  - intros tr Hrun. unfold simulate_profit_series in Hrun.
    destruct (series_entry _ i tr Hrun ltac:(lia)) as [Hi [b Hb]].
    destruct (series_entry _ (i + 1) tr Hrun ltac:(lia)) as [Hi1 _].
    exists b. split; [exact Hb|]. congruence.
Qed.

End SimulationRuns.

Section SimulationTypes.

Context (y_true y_pred : list float).

(** The class of [balance] is followed through the same subscripts as its
    value: one loop raises exactly when the other does. *)
Lemma profit_type_loop_returns (idx : list nat) (ty : NumType) (b : float) :
  is_Some (profit_type_loop y_true y_pred idx ty)
  <-> is_Some (profit_loop y_true y_pred idx b).
Proof.
  revert ty b. induction idx as [|i rest IH]; intros ty b; simpl.
  - split; eauto.
  - loop_cases; first [apply IH | split; intros [? [=]]].
Qed.

Lemma series_type_loop_returns (idx : list nat) (ty : NumType)
      (types : list NumType) (b : float) (bs : list float) :
  is_Some (series_type_loop y_true y_pred idx ty types)
  <-> is_Some (series_loop y_true y_pred idx b bs).
Proof.
  revert ty types b bs.
  induction idx as [|i rest IH]; intros ty types b bs; simpl.
  - split; eauto.
  - loop_cases; first [apply IH | split; intros [? [=]]].
Qed.

(** The last class of the trajectory is the class the scalar loop ends
    on. *)
Lemma series_type_loop_last (idx : list nat) (ty : NumType)
      (types : list NumType) :
  last types = Some ty ->
  series_type_loop y_true y_pred idx ty types ≫= last
  = profit_type_loop y_true y_pred idx ty.
Proof.
  revert ty types. induction idx as [|i rest IH]; intros ty types Hlast; simpl.
  - exact Hlast.
  - loop_cases; try reflexivity; apply IH; apply last_snoc.
Qed.

Lemma series_type_loop_shape (idx : list nat) (ty : NumType)
      (types result : list NumType) :
  series_type_loop y_true y_pred idx ty types = Some result ->
  exists tl, result = types ++ tl /\ length tl = length idx.
Proof.
  revert ty types. induction idx as [|i rest IH]; intros ty types; simpl.
  - intros [= <-]. exists []. by rewrite app_nil_r.
  - loop_cases; try discriminate; intros Hrun;
      apply IH in Hrun as (tl & -> & Hlen);
      eexists (_ :: tl); rewrite <- app_assoc; simpl; auto.
Qed.

(** The class [balance] ends on is [numpy.float64] exactly when it started
    there or some iteration of the run reached [balance *= change]. *)
Lemma profit_type_loop_final (idx : list nat) (ty ty' : NumType) :
  profit_type_loop y_true y_pred idx ty = Some ty' ->
  ty' = NpFloat64
  <-> ty = NpFloat64
      \/ exists i today tomorrow pred,
           i ∈ idx
           /\ y_true !! i = Some today
           /\ y_true !! (i + 1)%nat = Some tomorrow
           /\ y_pred !! (i + 1)%nat = Some pred
           /\ isnan today || isnan tomorrow || isnan pred = false
           /\ fle today min_price || fle tomorrow min_price = false
           /\ fgt pred today = true
           /\ fgt (fdiv tomorrow today) ten = false.
Proof.
  revert ty. induction idx as [|i rest IH]; intros ty; simpl.
  - intros [= ->]. split; [by left|].
    intros [->|(i & ? & ? & ? & Hin & _)]; [reflexivity|].
    by apply elem_of_nil in Hin.
  - destruct (y_true !! i) as [t0|] eqn:Ht0; [|discriminate].
    destruct (y_true !! (i + 1)%nat) as [t1|] eqn:Ht1; [|discriminate].
    destruct (y_pred !! (i + 1)%nat) as [p1|] eqn:Hp1; [|discriminate].
    simpl.
    assert (Hskip : forall ty0,
              (isnan t0 || isnan t1 || isnan p1 = true
               \/ fle t0 min_price || fle t1 min_price = true
               \/ fgt p1 t0 = false
               \/ fgt (fdiv t1 t0) ten = true) ->
              profit_type_loop y_true y_pred rest ty0 = Some ty' ->
              ty' = NpFloat64
              <-> ty0 = NpFloat64
                  \/ exists j today tomorrow pred,
                       j ∈ i :: rest
                       /\ y_true !! j = Some today
                       /\ y_true !! (j + 1)%nat = Some tomorrow
                       /\ y_pred !! (j + 1)%nat = Some pred
                       /\ isnan today || isnan tomorrow || isnan pred = false
                       /\ fle today min_price || fle tomorrow min_price = false
                       /\ fgt pred today = true
                       /\ fgt (fdiv tomorrow today) ten = false).
    { intros ty0 Hno Hrun. rewrite (IH ty0 Hrun). split.
      - intros [->|(j & a & b & c & Hin & Hrest)]; [by left|].
        right. exists j, a, b, c. split; [by apply list_elem_of_further|exact Hrest].
      - intros [->|(j & a & b & c & Hin & Ha & Hb & Hc & G1 & G2 & G3 & G4)];
          [by left|].
        apply elem_of_cons in Hin as [->|Hin].
        + rewrite Ht0 in Ha. rewrite Ht1 in Hb. rewrite Hp1 in Hc.
          injection Ha as <-. injection Hb as <-. injection Hc as <-.
          destruct Hno as [Hno|[Hno|[Hno|Hno]]]; congruence.
        + right. exists j, a, b, c. auto 10. }
    destruct (isnan t0 || isnan t1 || isnan p1) eqn:G1; [apply Hskip; auto|].
    destruct (fle t0 min_price || fle t1 min_price) eqn:G2; [apply Hskip; auto|].
    destruct (fgt p1 t0) eqn:G3; [|apply Hskip; auto].
    cbn zeta. destruct (fgt (fdiv t1 t0) ten) eqn:G4; [apply Hskip; auto|].
    intros Hrun. apply IH in Hrun. split.
    + intros _. right. exists i, t0, t1, p1.
      split; [apply list_elem_of_here|]. auto 10.
    + intros _. apply Hrun. by left.
Qed.

(** A run none of whose iterations rebinds [balance] leaves its class
    alone. *)
Lemma profit_type_loop_hold_all (idx : list nat) (ty : NumType) :
  Forall (fun i => profit_type_loop y_true y_pred [i] ty = Some ty) idx ->
  profit_type_loop y_true y_pred idx ty = Some ty.
Proof.
  induction 1 as [|i rest Hi _ IH]; [reflexivity|].
  simpl in Hi |- *. revert Hi. loop_cases; try discriminate; auto.
  intros [= <-]. exact IH.
Qed.

(** The iterations that hold the balance hold its class. *)
Lemma type_step_hold (i : nat) (ty : NumType) (today tomorrow pred : float) :
  y_true !! i = Some today ->
  y_true !! (i + 1)%nat = Some tomorrow ->
  y_pred !! (i + 1)%nat = Some pred ->
  isnan today || isnan tomorrow || isnan pred = true
  \/ fle today min_price || fle tomorrow min_price = true
  \/ fgt (fdiv tomorrow today) ten = true
  \/ fgt pred today = false ->
  profit_type_loop y_true y_pred [i] ty = Some ty.
Proof.
  intros Ht0 Ht1 Hp1 Hhold. simpl. rewrite Ht0, Ht1, Hp1. simpl.
  loop_cases; try reflexivity.
  destruct Hhold as [?|[?|[?|?]]]; congruence.
Qed.

(** Both functions return when no subscript of the run is out of range,
    and the objects they end on are the same, in value and in class. *)
Lemma simulation_returns (initial_type : NumType) (initial_balance : float) :
  (length y_true < 2 \/ length y_true <= length y_pred)%nat ->
  exists (tr : list float) (types : list NumType) (b : float) (ty : NumType),
    simulate_profit_series y_true y_pred initial_balance = Some tr
    /\ simulate_profit_series_types y_true y_pred initial_type = Some types
    /\ length types = length tr
    /\ last tr = Some b
    /\ last types = Some ty
    /\ simulate_profit_raw y_true y_pred initial_balance = Some b
    /\ simulate_profit_type y_true y_pred initial_type = Some ty.
Proof.
  intros Hlen.
  assert (Hrange : Forall (fun i => (i + 1 < length y_true)%nat
                                    /\ (i + 1 < length y_pred)%nat)
                          (seq 0 (length y_true - 1))).
  { apply range_in_bounds. lia. }
  unfold simulate_profit_series, simulate_profit_series_types,
    simulate_profit_raw, simulate_profit_type, balance_after.
  destruct (series_loop_total y_true y_pred _ initial_balance
              [initial_balance] Hrange) as [tr Htr].
  destruct (profit_loop_total y_true y_pred _ initial_balance Hrange) as [b Hb].
  destruct (proj2 (series_type_loop_returns _ initial_type [initial_type]
                     initial_balance [initial_balance]) (mk_is_Some _ _ Htr))
    as [types Htypes].
  destruct (proj2 (profit_type_loop_returns _ initial_type initial_balance)
              (mk_is_Some _ _ Hb)) as [ty Hty].
  pose proof (series_loop_last y_true y_pred (seq 0 (length y_true - 1))
                initial_balance [initial_balance] eq_refl) as Hlast.
  pose proof (series_type_loop_last (seq 0 (length y_true - 1))
                initial_type [initial_type] eq_refl) as Htlast.
  rewrite Htr, Hb in Hlast. rewrite Htypes, Hty in Htlast.
  simpl in Hlast, Htlast.
  exists tr, types, b, ty. rewrite Htr, Htypes, Hb, Hty.
  repeat split; try assumption.
  apply series_loop_shape in Htr as (tl & -> & Hl).
  apply series_type_loop_shape in Htypes as (tl' & -> & Hl').
  rewrite !length_app. simpl. lia.
Qed.

End SimulationTypes.

(* ================================================================== *)
(** * Profit simulation: scalar and trajectory mode *)

(** C1. For equal-length [y_true] and [y_pred] and any initial balance,
    both functions return; the last entry of the trajectory returned by
    [simulate_profit_series] is the object [simulate_profit] holds before
    rounding, the same value of the same class, and [simulate_profit]
    returns that entry rounded to two decimals. *)
Theorem simulate_profit_is_rounded_last_of_series
        (round2 : NumType -> float -> float) (y_true y_pred : list float)
        (initial_type : NumType) (initial_balance : float) :
  length y_true = length y_pred ->
  exists (tr : list float) (types : list NumType) (b : float) (ty : NumType),
    simulate_profit_series y_true y_pred initial_balance = Some tr
    /\ simulate_profit_series_types y_true y_pred initial_type = Some types
    /\ length types = length tr
    /\ last tr = Some b
    /\ last types = Some ty
    /\ simulate_profit_raw y_true y_pred initial_balance = Some b
    /\ simulate_profit_type y_true y_pred initial_type = Some ty
    /\ simulate_profit round2 y_true y_pred initial_type initial_balance
       = Some (round2 ty b).
Proof.
  intros Hlen.
  destruct (simulation_returns y_true y_pred initial_type initial_balance)
    as (tr & types & b & ty & Htr & Htypes & Hl & Hlast & Htlast & Hb & Hty).
  { lia. }
  exists tr, types, b, ty. unfold simulate_profit. rewrite Hb, Hty.
  repeat split; assumption.
Qed.

Lemma simulate_profit_is_rounded_last_of_series_witness :
  length (map of_Z [100; 101; 99; 102]) = length (map of_Z [100; 102; 103; 100])
  /\ exists (tr : list float) (types : list NumType) (b : float) (ty : NumType),
      simulate_profit_series (map of_Z [100; 101; 99; 102])
                             (map of_Z [100; 102; 103; 100]) (of_Z 1000) = Some tr
      /\ simulate_profit_series_types (map of_Z [100; 101; 99; 102])
                                      (map of_Z [100; 102; 103; 100]) PyFloat
         = Some types
      /\ length types = length tr
      /\ last tr = Some b
      /\ last types = Some ty
      /\ simulate_profit_raw (map of_Z [100; 101; 99; 102])
                             (map of_Z [100; 102; 103; 100]) (of_Z 1000) = Some b
      /\ simulate_profit_type (map of_Z [100; 101; 99; 102])
                              (map of_Z [100; 102; 103; 100]) PyFloat = Some ty
      /\ simulate_profit (fun _ x => x) (map of_Z [100; 101; 99; 102])
                         (map of_Z [100; 102; 103; 100]) PyFloat (of_Z 1000)
         = Some b.
Proof.
  split; [reflexivity|].
  apply (simulate_profit_is_rounded_last_of_series (fun _ x => x)).
  reflexivity.
Defined.

(** C2. A step [i] whose one-day change [y_true[i+1] / y_true[i]] exceeds
    10 never changes the balance, whatever the prediction: in
    [simulate_profit] the balance after iteration [i] is the balance before
    it, and in every trajectory returned by [simulate_profit_series] entry
    [i + 1] is entry [i]. *)
Theorem anomalous_step_keeps_balance
        (y_true y_pred : list float) (initial_balance : float) (i : nat)
        (today_real tomorrow_real tomorrow_pred : float) :
  y_true !! i = Some today_real ->
  y_true !! (i + 1)%nat = Some tomorrow_real ->
  y_pred !! (i + 1)%nat = Some tomorrow_pred ->
  fgt (fdiv tomorrow_real today_real) ten = true ->
  (exists b, balance_after y_true y_pred i initial_balance = Some b
             /\ balance_after y_true y_pred (i + 1) initial_balance = Some b)
  /\ (forall tr, simulate_profit_series y_true y_pred initial_balance = Some tr ->
        exists b, tr !! i = Some b /\ tr !! (i + 1)%nat = Some b).
Proof.
  intros Ht0 Ht1 Hp1 Hchange.
  apply held_step.
  - by apply lookup_lt_Some in Ht1.
  - by apply lookup_lt_Some in Hp1.
  - intros b. eapply profit_step_hold; eauto.
Qed.

Lemma anomalous_step_keeps_balance_witness :
  map of_Z [2; 30] !! 0%nat = Some (of_Z 2)
  /\ map of_Z [2; 30] !! 1%nat = Some (of_Z 30)
  /\ map of_Z [0; 100] !! 1%nat = Some (of_Z 100)
  /\ fgt (fdiv (of_Z 30) (of_Z 2)) ten = true
  /\ (exists b, balance_after (map of_Z [2; 30]) (map of_Z [0; 100]) 0 (of_Z 1000) = Some b
                /\ balance_after (map of_Z [2; 30]) (map of_Z [0; 100]) 1 (of_Z 1000) = Some b)
  /\ (forall tr,
        simulate_profit_series (map of_Z [2; 30]) (map of_Z [0; 100]) (of_Z 1000) = Some tr ->
        exists b, tr !! 0%nat = Some b /\ tr !! 1%nat = Some b).
Proof.
  repeat (split; [reflexivity|]).
  apply (anomalous_step_keeps_balance (map of_Z [2; 30]) (map of_Z [0; 100])
           (of_Z 1000) 0 (of_Z 2) (of_Z 30) (of_Z 100)); reflexivity.
Defined.

(** C3. A step [i] with [y_pred[i+1] <= y_true[i]] leaves the balance
    unchanged, in scalar and in trajectory mode: the only action of the
    policy is the long trade taken when [y_pred[i+1] > y_true[i]]. *)
Theorem no_signal_step_keeps_balance
        (y_true y_pred : list float) (initial_balance : float) (i : nat)
        (today_real tomorrow_real tomorrow_pred : float) :
  y_true !! i = Some today_real ->
  y_true !! (i + 1)%nat = Some tomorrow_real ->
  y_pred !! (i + 1)%nat = Some tomorrow_pred ->
  fle tomorrow_pred today_real = true ->
  (exists b, balance_after y_true y_pred i initial_balance = Some b
             /\ balance_after y_true y_pred (i + 1) initial_balance = Some b)
  /\ (forall tr, simulate_profit_series y_true y_pred initial_balance = Some tr ->
        exists b, tr !! i = Some b /\ tr !! (i + 1)%nat = Some b).
Proof.
  intros Ht0 Ht1 Hp1 Hle.
  apply held_step.
  - by apply lookup_lt_Some in Ht1.
  - by apply lookup_lt_Some in Hp1.
  - intros b. eapply profit_step_hold; eauto.
    right. by apply fle_not_fgt.
Qed.

Lemma no_signal_step_keeps_balance_witness :
  map of_Z [100; 120] !! 0%nat = Some (of_Z 100)
  /\ map of_Z [100; 120] !! 1%nat = Some (of_Z 120)
  /\ map of_Z [100; 100] !! 1%nat = Some (of_Z 100)
  /\ fle (of_Z 100) (of_Z 100) = true
  /\ (exists b, balance_after (map of_Z [100; 120]) (map of_Z [100; 100]) 0 (of_Z 1000) = Some b
                /\ balance_after (map of_Z [100; 120]) (map of_Z [100; 100]) 1 (of_Z 1000) = Some b)
  /\ (forall tr,
        simulate_profit_series (map of_Z [100; 120]) (map of_Z [100; 100]) (of_Z 1000) = Some tr ->
        exists b, tr !! 0%nat = Some b /\ tr !! 1%nat = Some b).
Proof.
  repeat (split; [reflexivity|]).
  apply (no_signal_step_keeps_balance (map of_Z [100; 120]) (map of_Z [100; 100])
           (of_Z 1000) 0 (of_Z 100) (of_Z 120) (of_Z 100)); reflexivity.
Defined.

(** C7. For every input, [simulate_profit_series] either returns a
    trajectory that starts with the initial balance and has
    [1 + max(len(y_true) - 1, 0)] entries, one per adjacent day pair plus
    the starting value whichever path each step takes, or raises
    [IndexError]; it raises exactly when [y_true] has at least two entries
    and [y_pred] is shorter than [y_true]. *)
Theorem series_starts_with_initial_and_has_one_entry_per_step
        (y_true y_pred : list float) (initial_balance : float) :
  match simulate_profit_series y_true y_pred initial_balance with
  | Some tr =>
      head tr = Some initial_balance
      /\ Z.of_nat (length tr) = 1 + Z.max (Z.of_nat (length y_true) - 1) 0
      /\ ((length y_true < 2)%nat \/ (length y_true <= length y_pred)%nat)
  | None => (2 <= length y_true)%nat /\ (length y_pred < length y_true)%nat
  end.
Proof.
  unfold simulate_profit_series.
  destruct (decide (2 <= length y_true /\ length y_pred < length y_true)%nat)
    as [Hbad|Hok].
  - rewrite (series_loop_index_error y_true y_pred _ (length y_pred - 1)).
    + exact Hbad.
    + apply elem_of_seq. lia.
    + apply lookup_ge_None. lia.
  - destruct (series_loop_total y_true y_pred (seq 0 (length y_true - 1))
                initial_balance [initial_balance]) as [tr Htr].
    { apply range_in_bounds. lia. }
    rewrite Htr.
    apply series_loop_shape in Htr as (tl & -> & Hlen).
    rewrite length_seq in Hlen. split; [reflexivity|].
    split; [simpl; lia | lia].
Qed.

(* ================================================================== *)
(** * Constant prices *)

Section ConstantPrices.

(** A price above the floor that some prediction exceeds is a positive
    finite float. *)
Lemma above_floor_finite (a p : float) :
  fle a min_price = false -> fgt p a = true ->
  exists m e, a = S754_finite false m e.
Proof.
  intros Hfloor Hsig.
  destruct a as [[|]|[|]| |[|] m e];
    try (cbv [fle SFleb SFcompare min_price one] in Hfloor; discriminate Hfloor).
  - destruct p as [[|]|[|]| |[|] mp ep];
      cbv [fgt SFltb SFcompare] in Hsig; discriminate Hsig.
  - cbv [fgt SFltb SFcompare] in Hsig; discriminate Hsig.
  - eauto.
Qed.

(** [==] against a finite float holds for that very float only. *)
Lemma feq_finite (s : bool) (m : positive) (e : Z) (b : float) :
  feq (S754_finite s m e) b = true -> b = S754_finite s m e.
Proof.
  unfold feq, SFeqb. intros Heq.
  destruct b as [sb|sb| |sb mb eb]; cbn [SFcompare] in Heq;
    try discriminate Heq;
    try (destruct s; discriminate Heq); try (destruct sb; discriminate Heq).
  destruct s, sb; try discriminate Heq;
    destruct (e ?= eb)%Z eqn:He; try discriminate Heq;
    apply Z.compare_eq in He; subst eb;
    destruct (Pos.compare_cont Eq m mb) eqn:Hm; try discriminate Heq;
    apply Pos.compare_eq in Hm; subst mb; reflexivity.
Qed.

Context (y_true y_pred : list float).

(** With equal prices on both days an iteration returns the balance it
    was given: it is skipped, or it multiplies by [x / x = 1.0]. *)
Lemma constant_step (i : nat) (b today tomorrow pred : float) :
  y_true !! i = Some today ->
  y_true !! (i + 1)%nat = Some tomorrow ->
  y_pred !! (i + 1)%nat = Some pred ->
  feq today tomorrow = true ->
  valid b = true ->
  profit_loop y_true y_pred [i] b = Some b.
Proof.
  intros Ht0 Ht1 Hp1 Heq Hv. simpl. rewrite Ht0, Ht1, Hp1. simpl.
  loop_cases; try reflexivity. split_guards.
  destruct (above_floor_finite today pred) as (m & e & ->); [assumption..|].
  apply feq_finite in Heq as ->.
  rewrite fdiv_self, fmul_one_r by exact Hv. reflexivity.
Qed.

Lemma series_step_of_profit_step (i : nat) (b : float) (bs : list float) :
  last bs = Some b ->
  profit_loop y_true y_pred [i] b = Some b ->
  series_loop y_true y_pred [i] b bs = Some (bs ++ [b]).
Proof.
  intros Hlast Hstep.
  pose proof (series_loop_last y_true y_pred [i] b bs Hlast) as Hl.
  rewrite Hstep in Hl.
  destruct (series_loop y_true y_pred [i] b bs) as [tr|] eqn:Hrun;
    [|discriminate].
  simpl in Hl.
  apply series_loop_shape in Hrun as (tl & -> & Hlen).
  destruct tl as [|x [|? ?]]; try discriminate.
  rewrite last_snoc in Hl. congruence.
Qed.

(** A run all of whose iterations return the balance they were given
    returns it, and its trajectory repeats it. *)
Lemma loops_hold_all (idx : list nat) (b : float) (bs : list float) :
  last bs = Some b ->
  Forall (fun i => profit_loop y_true y_pred [i] b = Some b) idx ->
  profit_loop y_true y_pred idx b = Some b
  /\ series_loop y_true y_pred idx b bs = Some (bs ++ replicate (length idx) b).
Proof.
  intros Hlast Hall. revert bs Hlast.
  induction Hall as [|i rest Hi _ IH]; intros bs Hlast.
  - simpl. by rewrite app_nil_r.
  - change (i :: rest) with ([i] ++ rest).
    rewrite profit_loop_app, series_loop_app, Hi,
      (series_step_of_profit_step i b bs Hlast Hi).
    cbn [mbind option_bind].
    destruct (IH (bs ++ [b]) (last_snoc _ _)) as [Hp Hs].
    split; [exact Hp|]. rewrite Hs, <- app_assoc. reflexivity.
Qed.

End ConstantPrices.

(** C4, amended.  On a constant true-price series
    ([y_true[i] == y_true[i+1]] for every [i]) with predictions of the
    same length, the balance [simulate_profit] rounds has exactly the value
    of the initial balance, and every entry of the
    [simulate_profit_series] trajectory is the initial balance, for every
    float64 initial balance.  [simulate_profit] returns that value rounded
    by the [__round__] of the class the balance ends on: [numpy.float64]
    as soon as one step has traded (at [change = 1.0]), the class of the
    caller's object otherwise. *)
Theorem constant_prices_keep_initial_balance
        (round2 : NumType -> float -> float) (y_true y_pred : list float)
        (initial_type : NumType) (initial_balance : float) :
  length y_true = length y_pred ->
  valid initial_balance = true ->
  (forall i a b, y_true !! i = Some a -> y_true !! (i + 1)%nat = Some b ->
                 feq a b = true) ->
  simulate_profit_raw y_true y_pred initial_balance = Some initial_balance
  /\ (exists balance_type,
        simulate_profit_type y_true y_pred initial_type = Some balance_type
        /\ simulate_profit round2 y_true y_pred initial_type initial_balance
           = Some (round2 balance_type initial_balance)
        /\ (balance_type = NpFloat64
            <-> initial_type = NpFloat64
                \/ exists i today tomorrow pred,
                     y_true !! i = Some today
                     /\ y_true !! (i + 1)%nat = Some tomorrow
                     /\ y_pred !! (i + 1)%nat = Some pred
                     /\ isnan today || isnan tomorrow || isnan pred = false
                     /\ fle today min_price || fle tomorrow min_price = false
                     /\ fgt pred today = true
                     /\ fgt (fdiv tomorrow today) ten = false))
  /\ exists tr, simulate_profit_series y_true y_pred initial_balance = Some tr
                /\ Forall (fun b => b = initial_balance) tr.
Proof.
  intros Hlen Hv Hconst.
  destruct (loops_hold_all y_true y_pred (seq 0 (length y_true - 1))
              initial_balance [initial_balance] eq_refl) as [Hp Hs].
  { apply Forall_forall. intros i Hi. apply elem_of_seq in Hi.
    destruct (lookup_lt_is_Some_2 y_true i ltac:(lia)) as [t0 Ht0].
    destruct (lookup_lt_is_Some_2 y_true (i + 1) ltac:(lia)) as [t1 Ht1].
    destruct (lookup_lt_is_Some_2 y_pred (i + 1) ltac:(lia)) as [p1 Hp1].
    eapply constant_step; eauto. }
  split; [exact Hp|]. split.
  - destruct (proj2 (profit_type_loop_returns y_true y_pred
                       (seq 0 (length y_true - 1)) initial_type
                       initial_balance) (mk_is_Some _ _ Hp)) as [ty Hty].
    exists ty. split; [exact Hty|]. split.
    + unfold simulate_profit, simulate_profit_raw, simulate_profit_type,
        balance_after.
      rewrite Hp, Hty. reflexivity.
    + rewrite (profit_type_loop_final y_true y_pred _ _ _ Hty).
      split; (intros [Hinit|(i & today & tomorrow & pred & Hstep)];
              [by left|right; exists i, today, tomorrow, pred]).
      * tauto.
      * split; [|tauto]. destruct Hstep as (_ & Ht1 & _).
        apply lookup_lt_Some in Ht1. apply elem_of_seq. lia.
  - eexists. split; [exact Hs|].
    apply Forall_app. split; [by repeat constructor|].
    apply Forall_forall. intros b Hb. by apply elem_of_replicate in Hb as [-> _].
Qed.

Lemma constant_prices_keep_initial_balance_witness :
  length (map of_Z [100; 100; 100]) = length (map of_Z [100; 150; 90])
  /\ valid (of_Z 1000) = true
  /\ (forall i a b, map of_Z [100; 100; 100] !! i = Some a ->
                    map of_Z [100; 100; 100] !! (i + 1)%nat = Some b ->
                    feq a b = true)
  /\ simulate_profit_raw (map of_Z [100; 100; 100]) (map of_Z [100; 150; 90])
                         (of_Z 1000) = Some (of_Z 1000)
  /\ simulate_profit_type (map of_Z [100; 100; 100]) (map of_Z [100; 150; 90])
                          PyFloat = Some NpFloat64
  /\ simulate_profit library_round2
                     (map of_Z [100; 100; 100]) (map of_Z [100; 150; 90])
                     PyFloat (of_Z 1000) = Some (numpy_round2 (of_Z 1000))
  /\ exists tr, simulate_profit_series (map of_Z [100; 100; 100])
                                       (map of_Z [100; 150; 90]) (of_Z 1000) = Some tr
                /\ Forall (fun b => b = of_Z 1000) tr.
Proof.
  assert (Hconst : forall i a b, map of_Z [100; 100; 100] !! i = Some a ->
                    map of_Z [100; 100; 100] !! (i + 1)%nat = Some b ->
                    feq a b = true).
  { intros [|[|[|i]]] a b Ha Hb; simpl in Ha, Hb; try discriminate;
      injection Ha as <-; injection Hb as <-; reflexivity. }
  split; [reflexivity|]. split; [reflexivity|]. split; [exact Hconst|].
  destruct (constant_prices_keep_initial_balance library_round2
              (map of_Z [100; 100; 100]) (map of_Z [100; 150; 90])
              PyFloat (of_Z 1000) eq_refl eq_refl Hconst)
    as (Hraw & (ty & Hty & Hround & _) & Hseries).
  assert (Hnp : ty = NpFloat64).
  { vm_compute in Hty. by injection Hty as <-. }
  subst ty. split; [exact Hraw|]. split; [exact Hty|].
  split; [exact Hround | exact Hseries].
Defined.

(** C4 as stated fails: what [simulate_profit] returns on constant
    prices is not one function of the initial balance.  On the prices
    [[2.0, 2.0]] with the Python [float] [2.675] as initial balance it
    returns [2.68] when the step trades and [2.67] when it does not,
    although the balance is [2.675] at the end of both runs and the
    trajectory is flat: [round(initial_balance, 2)] is [2.67], and [2.68]
    is farther from the initial balance than [2.67] is. *)
Lemma constant_prices_round_by_class :
  let y_true := map of_Z [2; 2] in
  let initial_balance := fdiv (of_Z 2675) (of_Z 1000) in
  let r267 := fdiv (of_Z 267) (of_Z 100) in
  let r268 := fdiv (of_Z 268) (of_Z 100) in
  initial_balance = of_scaled 6023564501608038 (-51)
  /\ valid initial_balance = true
  /\ feq (of_Z 2) (of_Z 2) = true
  /\ simulate_profit library_round2 y_true (map of_Z [0; 3]) PyFloat
                     initial_balance = Some r268
  /\ simulate_profit library_round2 y_true (map of_Z [0; 0]) PyFloat
                     initial_balance = Some r267
  /\ simulate_profit_raw y_true (map of_Z [0; 3]) initial_balance
     = Some initial_balance
  /\ simulate_profit_series y_true (map of_Z [0; 3]) initial_balance
     = Some [initial_balance; initial_balance]
  /\ library_round2 PyFloat initial_balance = r267
  /\ feq r268 r267 = false
  /\ fgt (fsub r268 initial_balance) (fsub initial_balance r267) = true.
Proof. cbv zeta. repeat split; vm_compute; reflexivity. Qed.

(* ================================================================== *)
(** * Buy-and-hold baseline *)

(** C6. For a price series with at least two points the buy-and-hold
    baseline returns a trajectory as long as the series whose entry [i] is
    [(initial_balance / y_true[0]) * y_true[i]]; this holds for every
    [y_true[0]], a zero one included, where the quotient is an infinity or
    NaN.  For a series with fewer than two points, the empty one included,
    it returns the one-element trajectory [[initial_balance]]. *)
Theorem hold_strategy_trajectory (y_true : list float) (initial_balance : float) :
  ((2 <= length y_true)%nat ->
   exists preco_inicial tr,
     y_true !! 0%nat = Some preco_inicial
     /\ simulate_hold_strategy y_true initial_balance = Some tr
     /\ length tr = length y_true
     /\ forall i y, y_true !! i = Some y ->
          tr !! i = Some (fmul (fdiv initial_balance preco_inicial) y))
  /\ ((length y_true < 2)%nat ->
      simulate_hold_strategy y_true initial_balance = Some [initial_balance]).
Proof.
  unfold simulate_hold_strategy. split; intros Hlen.
  - destruct (Nat.ltb_spec (length y_true) 2) as [Hlt|_]; [lia|].
    destruct y_true as [|p0 rest]; [simpl in Hlen; lia|].
    exists p0. eexists. split; [reflexivity|]. split; [reflexivity|].
    split; [apply length_map|].
    intros i y Hy. rewrite list_lookup_fmap, Hy. reflexivity.
  - destruct (Nat.ltb_spec (length y_true) 2) as [_|Hge]; [reflexivity|lia].
Qed.

Lemma hold_strategy_trajectory_witness :
  (2 <= length (map of_Z [100; 110; 90]%Z))%nat
  /\ (length (map of_Z [100]%Z) < 2)%nat
  /\ (exists preco_inicial tr,
        map of_Z [100; 110; 90] !! 0%nat = Some preco_inicial
        /\ simulate_hold_strategy (map of_Z [100; 110; 90]) (of_Z 1000) = Some tr
        /\ length tr = length (map of_Z [100; 110; 90])
        /\ forall i y, map of_Z [100; 110; 90] !! i = Some y ->
             tr !! i = Some (fmul (fdiv (of_Z 1000) preco_inicial) y))
  /\ simulate_hold_strategy (map of_Z [100]) (of_Z 1000) = Some [of_Z 1000].
Proof.
  split; [simpl; lia|]. split; [simpl; lia|]. split.
  - apply (hold_strategy_trajectory (map of_Z [100; 110; 90]) (of_Z 1000)).
    simpl; lia.
  - apply (hold_strategy_trajectory (map of_Z [100]) (of_Z 1000)).
    simpl; lia.
Defined.

(* ================================================================== *)
(** * Cross-validated training *)

Section TrainingFailure.

Context {Model : Type}
        (kfold_split : nat -> nat -> option (list (list nat * list nat)))
        (mlp_fit : list (list float) -> list float -> option Model)
        (predict : Model -> list (list float) -> option (list float))
        (mean_squared_error r2_score : list float -> list float -> option float).

(** An exception in one fold leaves the loop, whatever candidate the
    earlier folds selected. *)
Lemma cv_loop_fold_raises (X : list (list float)) (y : list float)
      (folds : list (list nat * list nat)) (fold : list nat * list nat)
      (best_model : option Model) (best_score : float) :
  fold ∈ folds ->
  fit_and_score Model mlp_fit predict mean_squared_error r2_score X y fold = None ->
  cv_loop Model mlp_fit predict mean_squared_error r2_score
          X y folds best_model best_score = None.
Proof.
  intros Hin Hraise. revert best_model best_score.
  induction Hin as [fold rest|fold other rest Hin IH];
    intros best_model best_score; simpl.
  - rewrite Hraise. reflexivity.
  - destruct (fit_and_score Model mlp_fit predict mean_squared_error
                r2_score X y other) as [[model mse]|]; simpl;
      [|reflexivity].
    destruct (flt mse best_score); apply IH, Hraise.
Qed.

End TrainingFailure.

(** C8. If fitting or scoring the candidate of any fold raises, then
    [train_mlp_model] returns [None]: no candidate selected in an earlier
    fold is returned.  The same holds when the fold split itself raises. *)
Theorem train_mlp_model_returns_none_on_fold_failure
        (Model : Type)
        (kfold_split : nat -> nat -> option (list (list nat * list nat)))
        (mlp_fit : list (list float) -> list float -> option Model)
        (predict : Model -> list (list float) -> option (list float))
        (mean_squared_error r2_score : list float -> list float -> option float)
        (X : list (list float)) (y : list float) (k : nat) :
  (kfold_split k (length X) = None
   \/ exists folds fold,
       kfold_split k (length X) = Some folds
       /\ fold ∈ folds
       /\ fit_and_score Model mlp_fit predict mean_squared_error r2_score
                        X y fold = None) ->
  train_mlp_model Model kfold_split mlp_fit predict mean_squared_error r2_score
                  X y k = None.
Proof.
  unfold train_mlp_model.
  intros [-> | (folds & fold & -> & Hin & Hraise)]; simpl.
  - reflexivity.
  - by rewrite (cv_loop_fold_raises mlp_fit predict mean_squared_error
                  r2_score X y folds fold None pinf Hin Hraise).
Qed.

Lemma train_mlp_model_returns_none_on_fold_failure_witness :
  ((fun _ _ : nat => Some [([1%nat], [0%nat]); ([0%nat], [1%nat])]) 2%nat
     (length [[of_Z 1]; [of_Z 2]]) = None
   \/ exists folds fold,
       (fun _ _ : nat => Some [([1%nat], [0%nat]); ([0%nat], [1%nat])]) 2%nat
         (length [[of_Z 1]; [of_Z 2]]) = Some folds
       /\ fold ∈ folds
       /\ fit_and_score nat
            (fun X_train y_train =>
               if forallb (fun v => negb (isnan v)) y_train
               then Some (length X_train) else None)
            (fun _ X_val => Some (map (fun _ => zero) X_val))
            (fun _ _ => Some zero) (fun _ _ => Some one)
            [[of_Z 1]; [of_Z 2]] [nan; of_Z 2] fold = None)
  /\ train_mlp_model nat
       (fun _ _ : nat => Some [([1%nat], [0%nat]); ([0%nat], [1%nat])])
       (fun X_train y_train =>
          if forallb (fun v => negb (isnan v)) y_train
          then Some (length X_train) else None)
       (fun _ X_val => Some (map (fun _ => zero) X_val))
       (fun _ _ => Some zero) (fun _ _ => Some one)
       [[of_Z 1]; [of_Z 2]] [nan; of_Z 2] 2 = None.
Proof.
  assert (Hfail :
    (fun _ _ : nat => Some [([1%nat], [0%nat]); ([0%nat], [1%nat])]) 2%nat
      (length [[of_Z 1]; [of_Z 2]]) = None
    \/ exists folds fold,
        (fun _ _ : nat => Some [([1%nat], [0%nat]); ([0%nat], [1%nat])]) 2%nat
          (length [[of_Z 1]; [of_Z 2]]) = Some folds
        /\ fold ∈ folds
        /\ fit_and_score nat
             (fun X_train y_train =>
                if forallb (fun v => negb (isnan v)) y_train
                then Some (length X_train) else None)
             (fun _ X_val => Some (map (fun _ => zero) X_val))
             (fun _ _ => Some zero) (fun _ _ => Some one)
             [[of_Z 1]; [of_Z 2]] [nan; of_Z 2] fold = None).
  { right. exists [([1%nat], [0%nat]); ([0%nat], [1%nat])], ([0%nat], [1%nat]).
    split; [reflexivity|]. split; [|reflexivity].
    apply list_elem_of_further, list_elem_of_here. }
  split; [exact Hfail|].
  apply (train_mlp_model_returns_none_on_fold_failure nat
           (fun _ _ : nat => Some [([1%nat], [0%nat]); ([0%nat], [1%nat])])
           _ _ _ _ [[of_Z 1]; [of_Z 2]] [nan; of_Z 2] 2%nat Hfail).
Defined.

(* ================================================================== *)
(** * Monthly mean-return test *)

Section MonthlyTestFacts.

Context {DataFrame : Type}
        (monthly_returns_pct : DataFrame -> option (list float))
        (shapiro_pvalue : list float -> option float)
        (series_mean series_std : list float -> float)
        (t_cdf : float -> nat -> option float)
        (threshold_percent alpha : float).

Local Abbreviation try_asset' :=
  (try_asset DataFrame monthly_returns_pct shapiro_pvalue series_mean
             series_std t_cdf).
Local Abbreviation step :=
  (asset_step DataFrame monthly_returns_pct shapiro_pvalue series_mean
              series_std t_cdf threshold_percent alpha).

Lemma asset_step_eq (st : gmap string TestResult * list Message)
      (coin : string) (df : DataFrame) :
  step st (coin, df)
  = match try_asset' coin df threshold_percent alpha with
    | Some (r, msgs) => (<[coin := r]> st.1, st.2 ++ msgs)
    | None => (<[coin := undefined_result]> st.1, st.2 ++ [ErrorOnCoin coin])
    end.
Proof. destruct st as [results out]. reflexivity. Qed.

(** The [try] block never prints the error line. *)
Lemma try_asset_no_error (coin c : string) (df : DataFrame)
      (r : TestResult) (msgs : list Message) :
  try_asset' coin df threshold_percent alpha = Some (r, msgs) ->
  ErrorOnCoin c ∉ msgs.
Proof.
  unfold try_asset. intros Hrun.
  destruct (monthly_returns_pct df) as [returns|]; simpl in Hrun; [|discriminate].
  destruct (length (last_rows 6 returns) <? 3)%nat.
  { injection Hrun as <- <-. by intros [=]%list_elem_of_singleton. }
  destruct (shapiro_pvalue (last_rows 6 returns)) as [p|]; simpl in Hrun;
    [|discriminate].
  destruct (fge p alpha).
  - destruct (t_cdf _ _); simpl in Hrun; [|discriminate].
    injection Hrun as <- <-. apply not_elem_of_nil.
  - injection Hrun as <- <-. by intros [=]%list_elem_of_singleton.
Qed.

Lemma asset_step_other (st : gmap string TestResult * list Message)
      (coin c : string) (df : DataFrame) :
  c <> coin ->
  (step st (c, df)).1 !! coin = st.1 !! coin
  /\ (ErrorOnCoin coin ∉ st.2 -> ErrorOnCoin coin ∉ (step st (c, df)).2).
Proof.
  intros Hne. rewrite asset_step_eq.
  destruct (try_asset' c df threshold_percent alpha) as [[r msgs]|] eqn:Hrun;
    simpl; (split; [by apply lookup_insert_ne|]); intros Hout Hin;
    apply elem_of_app in Hin as [Hin|Hin]; try done.
  - by apply (try_asset_no_error c coin df r msgs Hrun).
  - apply list_elem_of_singleton in Hin. congruence.
Qed.

Lemma asset_step_grows (st : gmap string TestResult * list Message)
      (item : string * DataFrame) (m : Message) (c : string) :
  (m ∈ st.2 -> m ∈ (step st item).2)
  /\ (is_Some (st.1 !! c) \/ c = item.1 -> is_Some ((step st item).1 !! c)).
Proof.
  destruct item as [coin df]. rewrite asset_step_eq.
  destruct (try_asset' coin df threshold_percent alpha) as [[r msgs]|];
    simpl; (split; [intros Hin; apply elem_of_app; by left|]);
    intros Hc; apply lookup_insert_is_Some;
    destruct (decide (coin = c)) as [->|Hne]; auto;
    right; (split; [done|]); destruct Hc; congruence.
Qed.

(** Assets processed later without the key [coin] leave its entry and the
    absence of its error line alone; nothing printed is lost; no entry is
    removed. *)
Lemma foldl_steps_other (data : list (string * DataFrame))
      (st : gmap string TestResult * list Message) (coin : string) :
  coin ∉ data.*1 ->
  (foldl step st data).1 !! coin = st.1 !! coin
  /\ (ErrorOnCoin coin ∉ st.2 -> ErrorOnCoin coin ∉ (foldl step st data).2).
Proof.
  revert st. induction data as [|[c df] rest IH]; intros st Hnot; simpl.
  - auto.
  - apply not_elem_of_cons in Hnot as [Hne Hrest]. simpl in Hne.
    destruct (IH (step st (c, df)) Hrest) as [Hl He].
    destruct (asset_step_other st coin c df ltac:(congruence)) as [Hl1 He1].
    split; [congruence | auto].
Qed.

Lemma foldl_steps_grow (data : list (string * DataFrame))
      (st : gmap string TestResult * list Message) (m : Message) (c : string) :
  (m ∈ st.2 -> m ∈ (foldl step st data).2)
  /\ (is_Some (st.1 !! c) \/ c ∈ data.*1 -> is_Some ((foldl step st data).1 !! c)).
Proof.
  revert st. induction data as [|item rest IH]; intros st; simpl.
  - split; [auto|]. intros [?|Hin]; [done|]. by apply elem_of_nil in Hin.
  - destruct (IH (step st item)) as [Hm Hc].
    destruct (asset_step_grows st item m c) as [Hm1 Hc1].
    split; [auto|].
    intros [Hs|Hin]; [apply Hc; left; apply Hc1; by left|].
    apply elem_of_cons in Hin as [->|Hin];
      [apply Hc; left; apply Hc1; by right | apply Hc; by right].
Qed.

(** The asset [coin], whose [try] block ends without exception, keeps
    the tuple and the lines of that block to the end of the run. *)
Lemma foldl_steps_asset (data : list (string * DataFrame))
      (st : gmap string TestResult * list Message)
      (coin : string) (df : DataFrame) (r : TestResult) (msgs : list Message) :
  NoDup data.*1 ->
  (coin, df) ∈ data ->
  try_asset' coin df threshold_percent alpha = Some (r, msgs) ->
  ErrorOnCoin coin ∉ st.2 ->
  (foldl step st data).1 !! coin = Some r
  /\ (forall m, m ∈ msgs -> m ∈ (foldl step st data).2)
  /\ ErrorOnCoin coin ∉ (foldl step st data).2.
Proof.
  intros Hnd Hin Hrun. revert st.
  induction data as [|[c d] rest IH]; intros st Hst; simpl.
  - by apply elem_of_nil in Hin.
  - simpl in Hnd. apply NoDup_cons in Hnd as [Hc Hnd].
    apply elem_of_cons in Hin as [[= <- <-]|Hin].
    + destruct (foldl_steps_other rest (step st (coin, df)) coin Hc) as [Hl He].
      rewrite Hl. rewrite asset_step_eq in He |- *. rewrite Hrun in He |- *.
      simpl in He |- *. split; [apply lookup_insert_eq|]. split.
      * intros m Hm.
        apply (foldl_steps_grow rest _ m coin). simpl.
        apply elem_of_app. by right.
      * apply He. intros [?|Hbad]%elem_of_app; [done|].
        by apply (try_asset_no_error coin coin df r msgs Hrun).
    + assert (Hne : c <> coin).
      { intros ->. apply Hc. apply list_elem_of_fmap. by exists (coin, df). }
      apply (IH Hnd Hin).
      by apply (asset_step_other st coin c d Hne).
Qed.

End MonthlyTestFacts.

(** C9. In [perform_mean_return_monthly_test], an asset whose last six
    monthly returns are fewer than three observations does not reach the
    exception handler: its entry of the result mapping is the undefined
    marker [(nan, nan, nan, False)], the insufficient-data line is printed
    for it and the error line is not, and every asset of the input has an
    entry in the result. *)
Theorem insufficient_monthly_data_is_recorded_undefined
        (DataFrame : Type)
        (monthly_returns_pct : DataFrame -> option (list float))
        (shapiro_pvalue : list float -> option float)
        (series_mean series_std : list float -> float)
        (t_cdf : float -> nat -> option float)
        (data : list (string * DataFrame)) (threshold_percent alpha : float)
        (coin : string) (df : DataFrame) (returns : list float) :
  NoDup data.*1 ->
  (coin, df) ∈ data ->
  monthly_returns_pct df = Some returns ->
  (length (last_rows 6 returns) < 3)%nat ->
  let res := perform_mean_return_monthly_test
               DataFrame monthly_returns_pct shapiro_pvalue series_mean
               series_std t_cdf data threshold_percent alpha in
  res.1 !! coin = Some undefined_result
  /\ (InsufficientData coin (length (last_rows 6 returns)) ∈ res.2)
  /\ (ErrorOnCoin coin ∉ res.2)
  /\ forall c d, (c, d) ∈ data -> is_Some (res.1 !! c).
Proof.
  intros Hnd Hin Hret Hfew res. subst res.
  unfold perform_mean_return_monthly_test.
  assert (Hrun : try_asset DataFrame monthly_returns_pct shapiro_pvalue
                   series_mean series_std t_cdf coin df threshold_percent alpha
                 = Some (undefined_result,
                         [InsufficientData coin (length (last_rows 6 returns))])).
  { unfold try_asset. rewrite Hret. simpl.
    destruct (Nat.ltb_spec (length (last_rows 6 returns)) 3); [reflexivity|lia]. }
  destruct (foldl_steps_asset monthly_returns_pct shapiro_pvalue series_mean
              series_std t_cdf threshold_percent alpha data (∅, []) coin df _ _
              Hnd Hin Hrun (not_elem_of_nil _)) as (Hres & Hmsg & Herr).
  split; [exact Hres|]. split; [apply Hmsg, list_elem_of_here|].
  split; [exact Herr|].
  intros c d Hcd.
  apply (foldl_steps_grow monthly_returns_pct shapiro_pvalue series_mean
           series_std t_cdf threshold_percent alpha data (∅, [])
           (ErrorOnCoin c) c).
  right. apply list_elem_of_fmap. by exists (c, d).
Qed.

Lemma insufficient_monthly_data_is_recorded_undefined_witness :
  NoDup [("BTC"%string, map of_Z [4; -2]);
         ("ETH"%string, map of_Z [1; 2; 3; 5])].*1
  /\ ("BTC"%string, map of_Z [4; -2])
       ∈ [("BTC"%string, map of_Z [4; -2]);
          ("ETH"%string, map of_Z [1; 2; 3; 5])]
  /\ Some (map of_Z [4; -2]) = Some (map of_Z [4; -2])
  /\ (length (last_rows 6 (map of_Z [4; -2]%Z)) < 3)%nat
  /\ let res := perform_mean_return_monthly_test
                  (list float) Some
                  (fun l => if (length l <? 3)%nat then None else Some one)
                  (fun _ => one) (fun _ => one) (fun _ _ => Some one)
                  [("BTC"%string, map of_Z [4; -2]);
                   ("ETH"%string, map of_Z [1; 2; 3; 5])] one zero in
     res.1 !! "BTC"%string = Some undefined_result
     /\ (InsufficientData "BTC" (length (last_rows 6 (map of_Z [4; -2]))) ∈ res.2)
     /\ (ErrorOnCoin "BTC" ∉ res.2)
     /\ forall c d, (c, d) ∈ [("BTC"%string, map of_Z [4; -2]);
                              ("ETH"%string, map of_Z [1; 2; 3; 5])] ->
                    is_Some (res.1 !! c).
Proof.
  assert (Hnd : NoDup [("BTC"%string, map of_Z [4; -2]);
                       ("ETH"%string, map of_Z [1; 2; 3; 5])].*1).
  { simpl. apply NoDup_cons. split.
    - intros Hin. apply list_elem_of_singleton in Hin. discriminate Hin.
    - apply NoDup_singleton. }
  split; [exact Hnd|]. split; [apply list_elem_of_here|].
  split; [reflexivity|]. split; [simpl; lia|].
  apply (insufficient_monthly_data_is_recorded_undefined
           (list float) Some
           (fun l => if (length l <? 3)%nat then None else Some one)
           (fun _ => one) (fun _ => one) (fun _ _ => Some one)
           [("BTC"%string, map of_Z [4; -2]);
            ("ETH"%string, map of_Z [1; 2; 3; 5])] one zero
           "BTC"%string (map of_Z [4; -2]) (map of_Z [4; -2]) Hnd).
  - apply list_elem_of_here.
  - reflexivity.
  - simpl; lia.
Defined.

(* ================================================================== *)
(** * Feature windowing *)

Section FeatureWindows.

Lemma omap_all_Some {A B : Type} (f : A -> option B) (l : list A) :
  Forall (fun x => is_Some (f x)) l ->
  length (omap f l) = length l
  /\ forall j, omap f l !! j = l !! j ≫= f.
Proof.
  induction 1 as [|x l [y Hy] _ [IHlen IHl]]; simpl.
  - split; [reflexivity|]. intros j. by rewrite lookup_nil.
  - rewrite Hy. simpl. split; [f_equal; exact IHlen|].
    intros [|j]; simpl; [by rewrite Hy | apply IHl].
Qed.


(** Row [r] of [shift(k)]: NaN in the first [k] rows, the value [k] rows
    up below them. *)
Lemma lookup_shift (k r : nat) (s : list float) :
  (r < length s)%nat ->
  shift k s !! r = if (r <? k)%nat then Some nan else s !! (r - k)%nat.
Proof.
  intros Hr. unfold shift. rewrite lookup_take_lt by exact Hr.
  destruct (Nat.ltb_spec r k) as [Hlt|Hge].
  - rewrite lookup_app_l by (rewrite length_replicate; lia).
    by apply lookup_replicate_2.
  - rewrite lookup_app_r by (rewrite length_replicate; lia).
    by rewrite length_replicate.
Qed.

Lemma row_has_na_app (cols1 cols2 : list (list float)) (r : nat) :
  row_has_na (cols1 ++ cols2) r = row_has_na cols1 r || row_has_na cols2 r.
Proof. apply existsb_app. Qed.


Context (df : DataFrame) (window : nat).
Hypothesis close_clean : Forall (fun v => isnan v = false) (close df).


Hypothesis others_clean :
  Forall (Forall (fun v => isnan v = false)) (others df).


(** The lag row at a surviving label [r]: entry [j] is the close [j + 1]
    rows up. *)
Lemma row_lags (r : nat) :
  (window <= r < length (close df))%nat ->
  length (row (lag_columns window df) r) = window
  /\ forall j, (j < window)%nat ->
       row (lag_columns window df) r !! j = close df !! (r - 1 - j)%nat
       /\ is_Some (close df !! (r - 1 - j)%nat).
Proof.
  intros Hr. unfold row.
  destruct (omap_all_Some (fun c : list float => c !! r)
              (lag_columns window df)) as [Hlen Hlk].
  { apply Forall_forall. intros c Hc. unfold lag_columns in Hc.
    apply list_elem_of_fmap in Hc as (k & -> & Hk).
    apply lookup_lt_is_Some_2. unfold shift.
    rewrite length_take, length_app, length_replicate. lia. }
  unfold lag_columns in Hlen at 2. rewrite length_map, length_seq in Hlen.
  split; [exact Hlen|]. intros j Hj.
  rewrite Hlk. unfold lag_columns.
  rewrite list_lookup_fmap, lookup_seq_lt by exact Hj. simpl.
  rewrite lookup_shift by lia.
  destruct (Nat.ltb_spec r (S j)); [lia|].
  replace (r - S j)%nat with (r - 1 - j)%nat by lia.
  split; [reflexivity|]. apply lookup_lt_is_Some_2. lia.
Qed.

End FeatureWindows.




(* ================================================================== *)
(** * Rounding never flips a sign, and a quotient of prices above the
      floor never rounds to zero *)

Section Float64Rounding.

Lemma fexp_eq (x : Z) : fexp prec emax x = Z.max (x - 53) (-1074).
Proof. reflexivity. Qed.

(** [digits2_pos p] is the bit length of [p]. *)
Lemma digits2_pos_bounds (p : positive) :
  2 ^ (Z.pos (digits2_pos p) - 1) <= Z.pos p < 2 ^ Z.pos (digits2_pos p).
Proof.
  assert (Hdouble : forall d, 1 <= d ->
            2 ^ (d + 1 - 1) = 2 * 2 ^ (d - 1) /\ 2 ^ (d + 1) = 2 * 2 ^ d).
  { intros d Hd. split.
    - replace (d + 1 - 1) with (Z.succ (d - 1)) by lia.
      apply Z.pow_succ_r. lia.
    - apply Z.pow_succ_r. lia. }
  induction p as [p IH|p IH|].
  - change (digits2_pos p~1) with (digits2_pos p~0).
    rewrite digits2_pos_xO, (Pos2Z.inj_xI p).
    destruct (Hdouble (Z.pos (digits2_pos p)) ltac:(lia)) as [E1 E2].
    rewrite E1, E2. lia.
  - rewrite digits2_pos_xO, (Pos2Z.inj_xO p).
    destruct (Hdouble (Z.pos (digits2_pos p)) ltac:(lia)) as [E1 E2].
    rewrite E1, E2. lia.
  - simpl. lia.
Qed.

(** One right shift halves a nonnegative mantissa. *)
Lemma shr_1_m (r : shr_record) :
  0 <= shr_m r -> shr_m (shr_1 r) = shr_m r / 2.
Proof.
  destruct r as [m b s]. simpl. intros Hm.
  destruct m as [|[p|p|]|p]; simpl; try lia; try reflexivity.
  - rewrite (Pos2Z.inj_xI p). Z.div_mod_to_equations. lia.
  - rewrite (Pos2Z.inj_xO p). Z.div_mod_to_equations. lia.
Qed.

Lemma iter_pos_shr_1_m (p : positive) (r : shr_record) :
  0 <= shr_m r ->
  shr_m (SpecFloat.iter_pos shr_1 p r) = shr_m r / 2 ^ Z.pos p.
Proof.
  revert r. induction p as [p IH|p IH|]; intros r Hr; simpl.
  - assert (H1 : 0 <= shr_m (shr_1 r)) by (rewrite shr_1_m by lia; apply Z.div_pos; lia).
    assert (H2 : 0 <= shr_m (SpecFloat.iter_pos shr_1 p (shr_1 r)))
      by (rewrite IH by lia; apply Z.div_pos; lia).
    rewrite IH, IH, shr_1_m by lia.
    rewrite !Z.div_div by lia. f_equal.
    rewrite (Pos2Z.inj_xI p).
    replace (2 * Z.pos p + 1) with (1 + Z.pos p + Z.pos p) by lia.
    rewrite !Z.pow_add_r by lia. lia.
  - assert (H2 : 0 <= shr_m (SpecFloat.iter_pos shr_1 p r))
      by (rewrite IH by lia; apply Z.div_pos; lia).
    rewrite IH, IH by lia.
    rewrite Z.div_div by lia. f_equal.
    rewrite (Pos2Z.inj_xO p).
    replace (2 * Z.pos p) with (Z.pos p + Z.pos p) by lia.
    rewrite Z.pow_add_r by lia. lia.
  - rewrite shr_1_m by lia. reflexivity.
Qed.

Lemma shr_record_of_loc_m (m : Z) (l : location) :
  shr_m (shr_record_of_loc m l) = m.
Proof. destruct l as [|[| |]]; reflexivity. Qed.

Lemma round_nearest_even_ge (m : Z) (l : location) :
  m <= round_nearest_even m l.
Proof.
  destruct l as [|[| |]]; simpl; try lia. destruct (Z.even m); lia.
Qed.

(** The shift to the target exponent keeps a nonnegative mantissa
    nonnegative. *)
Lemma shr_fexp_nonneg (m e : Z) (l : location) :
  0 <= m -> 0 <= shr_m (shr_fexp prec emax m e l).1.
Proof.
  intros Hm. unfold shr_fexp, shr.
  destruct (fexp prec emax (Zdigits2 m + e) - e) as [|p|p]; simpl;
    rewrite ?iter_pos_shr_1_m, shr_record_of_loc_m
      by (rewrite shr_record_of_loc_m; lia);
    try lia.
  apply Z.div_pos; lia.
Qed.

(** It keeps a positive mantissa positive when the value is at least the
    smallest subnormal, and ends on an exponent that is in range. *)
Lemma shr_fexp_pos (m e : Z) (l : location) :
  0 < m -> -1074 < Zdigits2 m + e ->
  0 < shr_m (shr_fexp prec emax m e l).1
  /\ -1074 <= (shr_fexp prec emax m e l).2.
Proof.
  intros Hm Hd. unfold shr_fexp, shr. rewrite fexp_eq.
  destruct m as [|pm|pm]; try lia. simpl Zdigits2 in *.
  pose proof (digits2_pos_bounds pm) as [Hlo Hhi].
  destruct (Z.max (Z.pos (digits2_pos pm) + e - 53) (-1074) - e)
    as [|p|p] eqn:Hn; simpl.
  - rewrite shr_record_of_loc_m. lia.
  - rewrite iter_pos_shr_1_m, shr_record_of_loc_m
      by (rewrite shr_record_of_loc_m; lia).
    split; [|lia].
    apply Z.div_str_pos. split; [lia|].
    assert (2 ^ Z.pos p <= 2 ^ (Z.pos (digits2_pos pm) - 1))
      by (apply Z.pow_le_mono_r; lia).
    lia.
  - rewrite shr_record_of_loc_m. lia.
Qed.

(** Rounding a nonnegative mantissa gives a number with the sign it was
    asked for. *)
Lemma binary_round_aux_sign (s : bool) (m e : Z) (l : location) :
  0 <= m ->
  binary_round_aux prec emax s m e l = S754_zero s
  \/ binary_round_aux prec emax s m e l = S754_infinity s
  \/ exists m' e', binary_round_aux prec emax s m e l = S754_finite s m' e'.
Proof.
  intros Hm. unfold binary_round_aux.
  pose proof (shr_fexp_nonneg m e l Hm) as H1.
  destruct (shr_fexp prec emax m e l) as [mrs' e'].
  pose proof (round_nearest_even_ge (shr_m mrs') (loc_of_shr_record mrs')) as H2.
  simpl in H1.
  pose proof (shr_fexp_nonneg (round_nearest_even (shr_m mrs') (loc_of_shr_record mrs'))
                e' loc_Exact ltac:(lia)) as H3.
  destruct (shr_fexp prec emax _ e' loc_Exact) as [mrs'' e''].
  simpl in H3.
  destruct (shr_m mrs'') as [|p|p]; [auto| |lia].
  destruct (e'' <=? emax - prec); eauto.
Qed.

(** Rounding a positive mantissa whose value is at least the smallest
    subnormal does not give zero. *)
Lemma binary_round_aux_pos (s : bool) (m e : Z) (l : location) :
  0 < m -> -1074 < Zdigits2 m + e ->
  binary_round_aux prec emax s m e l = S754_infinity s
  \/ exists m' e', binary_round_aux prec emax s m e l = S754_finite s m' e'.
Proof.
  intros Hm Hd. unfold binary_round_aux.
  pose proof (shr_fexp_pos m e l Hm Hd) as [H1 He1].
  destruct (shr_fexp prec emax m e l) as [mrs' e'].
  pose proof (round_nearest_even_ge (shr_m mrs') (loc_of_shr_record mrs')) as H2.
  simpl in H1, He1.
  destruct (round_nearest_even (shr_m mrs') (loc_of_shr_record mrs'))
    as [|pr|pr] eqn:Hr; try lia.
  pose proof (shr_fexp_pos (Z.pos pr) e' loc_Exact ltac:(lia)) as H3.
  simpl Zdigits2 in H3. destruct H3 as [H3 _]; [lia|].
  destruct (shr_fexp prec emax (Z.pos pr) e' loc_Exact) as [mrs'' e''].
  simpl in H3.
  destruct (shr_m mrs'') as [|p|p]; try lia.
  destruct (e'' <=? emax - prec); eauto.
Qed.

End Float64Rounding.

Section PositiveMultiplier.

(** A float64 price above the floor has a full 53-bit mantissa and an
    exponent of at least [-52]. *)
Lemma above_floor_exponent (m : positive) (e : Z) :
  valid (S754_finite false m e) = true ->
  fle (S754_finite false m e) min_price = false ->
  Z.pos (digits2_pos m) = 53 /\ -52 <= e <= 971.
Proof.
  intros Hv Hfloor.
  unfold valid, valid_binary, bounded, canonical_mantissa in Hv.
  apply andb_prop in Hv as [Hc He].
  apply Z.eqb_eq in Hc. apply Z.leb_le in He. rewrite fexp_eq in Hc.
  change (emax - prec) with 971 in He.
  assert (Hlow : -52 <= e).
  { apply Z.nlt_ge. intros Hlt. apply Z.compare_lt_iff in Hlt.
    cbv [fle SFleb SFcompare min_price one] in Hfloor.
    rewrite Hlt in Hfloor. discriminate Hfloor. }
  lia.
Qed.

(** A float64 has at most 53 mantissa bits and an exponent of at most
    971. *)
Lemma valid_finite_bounds (s : bool) (m : positive) (e : Z) :
  valid (S754_finite s m e) = true ->
  Z.pos (digits2_pos m) <= 53 /\ -1074 <= e <= 971.
Proof.
  intros Hv.
  unfold valid, valid_binary, bounded, canonical_mantissa in Hv.
  apply andb_prop in Hv as [Hc He].
  apply Z.eqb_eq in Hc. apply Z.leb_le in He. rewrite fexp_eq in Hc.
  change (emax - prec) with 971 in He. lia.
Qed.

(** The quotient of a price above the floor by a finite positive price
    is a positive number: the smallest such quotient is about [2^-1024],
    far above the smallest subnormal [2^-1074]. *)
Lemma fdiv_prices_positive (m1 m2 : positive) (e1 e2 : Z) :
  valid (S754_finite false m1 e1) = true ->
  valid (S754_finite false m2 e2) = true ->
  fle (S754_finite false m1 e1) min_price = false ->
  fdiv (S754_finite false m1 e1) (S754_finite false m2 e2) = S754_infinity false
  \/ exists m e,
      fdiv (S754_finite false m1 e1) (S754_finite false m2 e2)
      = S754_finite false m e.
Proof.
  intros Hv1 Hv2 Hfloor.
  destruct (above_floor_exponent m1 e1 Hv1 Hfloor) as [Hd1 He1].
  destruct (valid_finite_bounds false m2 e2 Hv2) as [Hd2 He2].
  pose proof (digits2_pos_bounds m1) as Hb1.
  pose proof (digits2_pos_bounds m2) as Hb2.
  unfold fdiv, SFdiv, SFdiv_core_binary, Zdigits2.
  rewrite fexp_eq, Hd1 in *.
  remember (Z.pos (digits2_pos m2)) as d2 eqn:Ed2.
  assert (Hd2pos : 1 <= d2) by lia.
  remember (Z.min (Z.max (53 + e1 - (d2 + e2) - 53) (-1074)) (e1 - e2))
    as e' eqn:Ee'.
  assert (Hs : 0 <= e1 - e2 - e') by lia.
  assert (Hshift :
    match e1 - e2 - e' with
    | 0 => Z.pos m1
    | Z.pos _ => Z.shiftl (Z.pos m1) (e1 - e2 - e')
    | Z.neg _ => 0
    end = Z.pos m1 * 2 ^ (e1 - e2 - e')).
  { destruct (e1 - e2 - e') as [|ps|ps] eqn:Es.
    - simpl. lia.
    - apply Z.shiftl_mul_pow2. lia.
    - lia. }
  rewrite Hshift.
  remember (e1 - e2 - e') as s eqn:Es.
  pose proof (Z_div_mod (Z.pos m1 * 2 ^ s) (Z.pos m2) eq_refl) as Hdm.
  destruct (Z.div_eucl (Z.pos m1 * 2 ^ s) (Z.pos m2)) as [q r].
  destruct Hdm as [Hq Hr].
  cbv beta iota zeta. change (xorb false false) with false.
  (* the quotient of the mantissas has at least [t + 1] bits *)
  assert (Ht : 0 <= 52 + s - d2) by lia.
  assert (Hpow : 2 ^ (53 - 1) * 2 ^ s = 2 ^ (52 + s - d2) * 2 ^ d2).
  { rewrite <- !Z.pow_add_r by lia. f_equal. lia. }
  assert (H2s : 0 < 2 ^ s) by (apply Z.pow_pos_nonneg; lia).
  assert (H2t : 0 < 2 ^ (52 + s - d2)) by (apply Z.pow_pos_nonneg; lia).
  assert (Hqlow : 2 ^ (52 + s - d2) <= q).
  { apply Z.nlt_ge. intros Hlt.
    assert (q + 1 <= 2 ^ (52 + s - d2)) by lia.
    assert (Z.pos m2 * (q + 1) <= Z.pos m2 * 2 ^ (52 + s - d2))
      by (apply Z.mul_le_mono_nonneg_l; lia).
    assert (Z.pos m2 * 2 ^ (52 + s - d2) <= 2 ^ d2 * 2 ^ (52 + s - d2))
      by (apply Z.mul_le_mono_nonneg_r; lia).
    assert (2 ^ (53 - 1) * 2 ^ s <= Z.pos m1 * 2 ^ s)
      by (apply Z.mul_le_mono_nonneg_r; lia).
    nia. }
  apply binary_round_aux_pos; [lia|].
  destruct q as [|pq|pq]; try lia. simpl Zdigits2.
  pose proof (digits2_pos_bounds pq) as [_ Hqhi].
  assert (52 + s - d2 < Z.pos (digits2_pos pq)).
  { apply (Z.pow_lt_mono_r_iff 2); lia. }
  lia.
Qed.

End PositiveMultiplier.

(* ================================================================== *)
(** * The balance never turns negative *)

Section BalanceSign.

Lemma nonneg_fle (b : float) : nonneg b = true -> fle zero b = true.
Proof. destruct b as [[|]|[|]| |[|] m e]; try discriminate; reflexivity. Qed.

Lemma positive_nonneg (b : float) : fgt b zero = true -> nonneg b = true.
Proof.
  destruct b as [[|]|[|]| |[|] m e]; cbv [fgt SFltb SFcompare zero];
    try discriminate; reflexivity.
Qed.

(** Only NaN is unordered. *)
Lemma SFcompare_None (x y : float) :
  SFcompare x y = None -> isnan x = true \/ isnan y = true.
Proof.
  destruct x as [sx|sx| |sx mx ex], y as [sy|sy| |sy my ey];
    cbv [SFcompare isnan]; auto; discriminate.
Qed.

(** Among numbers, "not greater" is "less or equal". *)
Lemma not_fgt_fle (x y : float) :
  isnan x = false -> isnan y = false -> fgt x y = false -> fle x y = true.
Proof.
  unfold fgt, fle, SFltb, SFleb. intros Hx Hy.
  rewrite (SFcompare_antisym x y).
  destruct (SFcompare x y) as [[| |]|] eqn:Hc; simpl; try congruence.
  apply SFcompare_None in Hc as [Hc|Hc]; congruence.
Qed.

(** A product of a nonnegative balance with a positive finite multiplier
    is a nonnegative number. *)
Lemma fmul_nonneg (b : float) (m : positive) (e : Z) :
  nonneg b = true -> nonneg (fmul b (S754_finite false m e)) = true.
Proof.
  destruct b as [[|]|[|]| |[|] mb eb]; try discriminate; intros _;
    try reflexivity.
  unfold fmul, SFmul. change (xorb false false) with false.
  destruct (binary_round_aux_sign false (Z.pos (mb * m)) (eb + e) loc_Exact
              ltac:(lia)) as [-> | [-> | (m' & e' & ->)]]; reflexivity.
Qed.

(** A price that is a number above the floor is a positive finite float
    or [+inf]. *)
Lemma above_floor_cases (t : float) :
  isnan t = false -> fle t min_price = false ->
  t = S754_infinity false \/ exists m e, t = S754_finite false m e.
Proof.
  intros Hnan Hfloor.
  destruct t as [[|]|[|]| |[|] m e]; try discriminate Hnan;
    try (cbv [fle SFleb SFcompare min_price one] in Hfloor; discriminate Hfloor);
    eauto.
Qed.

(** The multiplier of a step that trades is a positive finite float. *)
Lemma trade_multiplier (today tomorrow pred : float) :
  valid today = true -> valid tomorrow = true ->
  isnan tomorrow = false ->
  fle today min_price = false -> fle tomorrow min_price = false ->
  fgt pred today = true ->
  fgt (fdiv tomorrow today) ten = false ->
  exists m e, fdiv tomorrow today = S754_finite false m e.
Proof.
  intros Hv0 Hv1 Hnan Hf0 Hf1 Hsig Hten.
  destruct (above_floor_finite today pred Hf0 Hsig) as (m0 & e0 & ->).
  destruct (above_floor_cases tomorrow Hnan Hf1) as [->|(m1 & e1 & ->)].
  - discriminate Hten.
  - destruct (fdiv_prices_positive m1 m0 e1 e0 Hv1 Hv0 Hf1) as [Hinf|Hfin];
      [|exact Hfin].
    rewrite Hinf in Hten. discriminate Hten.
Qed.

Context (y_true y_pred : list float).
Hypothesis prices_valid : Forall (fun x => valid x = true) y_true.

Lemma profit_loop_nonneg (idx : list nat) (b b' : float) :
  nonneg b = true ->
  profit_loop y_true y_pred idx b = Some b' ->
  nonneg b' = true.
Proof.
  revert b. induction idx as [|i rest IH]; intros b Hb; simpl.
  - by intros [= <-].
  - destruct (y_true !! i) as [today|] eqn:Ht0; [|discriminate].
    destruct (y_true !! (i + 1)%nat) as [tomorrow|] eqn:Ht1; [|discriminate].
    destruct (y_pred !! (i + 1)%nat) as [pred|] eqn:Hp1; [|discriminate].
    simpl. loop_cases; try (by apply IH).
    apply IH. split_guards.
    destruct (trade_multiplier today tomorrow pred) as (m & e & ->);
      try assumption.
    + by apply (proj1 (Forall_lookup _ _) prices_valid i).
    + by apply (proj1 (Forall_lookup _ _) prices_valid (i + 1)%nat).
    + by apply fmul_nonneg.
Qed.

Lemma series_loop_nonneg (idx : list nat) (b : float) (bs tr : list float) :
  nonneg b = true ->
  Forall (fun x => nonneg x = true) bs ->
  series_loop y_true y_pred idx b bs = Some tr ->
  Forall (fun x => nonneg x = true) tr.
Proof.
  revert b bs. induction idx as [|i rest IH]; intros b bs Hb Hbs; simpl.
  - by intros [= <-].
  - destruct (y_true !! i) as [today|] eqn:Ht0; [|discriminate].
    destruct (y_true !! (i + 1)%nat) as [tomorrow|] eqn:Ht1; [|discriminate].
    destruct (y_pred !! (i + 1)%nat) as [pred|] eqn:Hp1; [|discriminate].
    simpl.
    assert (Hsnoc : forall x, nonneg x = true ->
              Forall (fun x => nonneg x = true) (bs ++ [x])).
    { intros x Hx. apply Forall_app. split; [exact Hbs|by repeat constructor]. }
    loop_cases; try (by apply IH; auto).
    split_guards.
    destruct (trade_multiplier today tomorrow pred) as (m & e & ->);
      try assumption.
    + by apply (proj1 (Forall_lookup _ _) prices_valid i).
    + by apply (proj1 (Forall_lookup _ _) prices_valid (i + 1)%nat).
    + apply IH; [|apply Hsnoc]; by apply fmul_nonneg.
Qed.

End BalanceSign.

(** C10, amended.  With [initial_balance > 0] and float64 prices, every
    entry of the trajectory of [simulate_profit_series] and the balance of
    [simulate_profit] before rounding is a number [>= 0]: never negative
    and never NaN.  A step multiplies the balance only when both real
    prices are numbers above the [1.0] floor, and every multiplier it
    applies is strictly positive and at most [10]. *)
Theorem balance_stays_nonnegative
        (y_true y_pred : list float) (initial_balance : float) :
  fgt initial_balance zero = true ->
  Forall (fun x => valid x = true) y_true ->
  (forall tr, simulate_profit_series y_true y_pred initial_balance = Some tr ->
              Forall (fun b => fle zero b = true) tr)
  /\ (forall b, simulate_profit_raw y_true y_pred initial_balance = Some b ->
                fle zero b = true)
  /\ (forall i today_real tomorrow_real tomorrow_pred,
        y_true !! i = Some today_real ->
        y_true !! (i + 1)%nat = Some tomorrow_real ->
        y_pred !! (i + 1)%nat = Some tomorrow_pred ->
        isnan today_real || isnan tomorrow_real || isnan tomorrow_pred = false ->
        fle today_real min_price || fle tomorrow_real min_price = false ->
        fgt tomorrow_pred today_real = true ->
        fgt (fdiv tomorrow_real today_real) ten = false ->
        fgt (fdiv tomorrow_real today_real) zero = true
        /\ fle (fdiv tomorrow_real today_real) ten = true).
Proof.
  intros Hpos Hvalid. apply positive_nonneg in Hpos.
  split; [|split].
  - intros tr Hrun. unfold simulate_profit_series in Hrun.
    apply (series_loop_nonneg y_true y_pred Hvalid) in Hrun;
      [|exact Hpos|by repeat constructor].
    eapply Forall_impl; [exact Hrun|]. intros b. apply nonneg_fle.
  - intros b Hrun. apply nonneg_fle.
    by apply (profit_loop_nonneg y_true y_pred Hvalid _ _ _ Hpos Hrun).
  - intros i today tomorrow pred Ht0 Ht1 Hp1 Hnan Hfloor Hsig Hten.
    split_guards.
    destruct (trade_multiplier today tomorrow pred) as (m & e & Hchange);
      try assumption.
    + by apply (proj1 (Forall_lookup _ _) Hvalid i).
    + by apply (proj1 (Forall_lookup _ _) Hvalid (i + 1)%nat).
    + split.
      * rewrite Hchange. reflexivity.
      * apply not_fgt_fle; [by rewrite Hchange|reflexivity|exact Hten].
Qed.

Lemma balance_stays_nonnegative_witness :
  fgt (of_Z 1000) zero = true
  /\ Forall (fun x => valid x = true) (map of_Z [100; 101; 99])
  /\ (forall tr,
        simulate_profit_series (map of_Z [100; 101; 99])
                               (map of_Z [100; 102; 103]) (of_Z 1000) = Some tr ->
        Forall (fun b => fle zero b = true) tr)
  /\ (forall b,
        simulate_profit_raw (map of_Z [100; 101; 99])
                            (map of_Z [100; 102; 103]) (of_Z 1000) = Some b ->
        fle zero b = true).
Proof.
  assert (Hvalid : Forall (fun x => valid x = true) (map of_Z [100; 101; 99])).
  { repeat constructor. }
  split; [reflexivity|]. split; [exact Hvalid|].
  destruct (balance_stays_nonnegative (map of_Z [100; 101; 99])
              (map of_Z [100; 102; 103]) (of_Z 1000) eq_refl Hvalid)
    as (Hseries & Hraw & _).
  split; [exact Hseries | exact Hraw].
Defined.

(** C10 as stated fails: a positive balance can underflow to [0.0].  With
    the smallest positive float64 as initial balance, one trade on prices
    [4 -> 2] multiplies it by [0.5], and the product rounds to zero.  The
    same happens from the default balance [1000.0] after two trades on
    prices [2^1000 -> 2]. *)
Lemma balance_underflows_to_zero :
  fgt (of_scaled 1 (-1074)) zero = true
  /\ valid (of_scaled 1 (-1074)) = true
  /\ simulate_profit_series (map of_Z [4; 2]) (map of_Z [0; 5])
                            (of_scaled 1 (-1074))
     = Some [of_scaled 1 (-1074); zero]
  /\ simulate_profit_raw (map of_Z [4; 2]) (map of_Z [0; 5])
                         (of_scaled 1 (-1074))
     = Some zero
  /\ fgt zero zero = false
  /\ fgt (of_Z 1000) zero = true
  /\ Forall (fun x => valid x = true)
            [of_scaled 1 1000; of_Z 2; of_scaled 1 1000; of_Z 2]
  /\ simulate_profit_raw [of_scaled 1 1000; of_Z 2; of_scaled 1 1000; of_Z 2]
                         [zero; of_scaled 1 1001; zero; of_scaled 1 1001]
                         (of_Z 1000)
     = Some zero.
Proof.
  repeat (split; [reflexivity|]).
  split; [repeat constructor|]. reflexivity.
Qed.

(* ================================================================== *)
(** * Further properties of the profit simulation *)

Section SimulationReads.

Context (y_true y_pred y_true' y_pred' : list float).

(** The loops read [y_true[i]], [y_true[i+1]] and [y_pred[i+1]] for the
    indices of the run and nothing else. *)
Lemma loops_ext (idx : list nat) (b : float) (bs : list float) :
  Forall (fun i => y_true !! i = y_true' !! i
                   /\ y_true !! (i + 1)%nat = y_true' !! (i + 1)%nat
                   /\ y_pred !! (i + 1)%nat = y_pred' !! (i + 1)%nat) idx ->
  profit_loop y_true y_pred idx b = profit_loop y_true' y_pred' idx b
  /\ series_loop y_true y_pred idx b bs = series_loop y_true' y_pred' idx b bs.
Proof.
  intros Hidx. revert b bs.
  induction Hidx as [|i rest (E0 & E1 & Ep) _ IH]; intros b bs; simpl.
  - auto.
  - rewrite E0, E1, Ep.
    split; loop_cases; try reflexivity;
      first [apply (proj1 (IH _ bs)) | apply (proj2 (IH _ _))].
Qed.

Lemma type_loop_ext (idx : list nat) (ty : NumType) :
  Forall (fun i => y_true !! i = y_true' !! i
                   /\ y_true !! (i + 1)%nat = y_true' !! (i + 1)%nat
                   /\ y_pred !! (i + 1)%nat = y_pred' !! (i + 1)%nat) idx ->
  profit_type_loop y_true y_pred idx ty = profit_type_loop y_true' y_pred' idx ty.
Proof.
  intros Hidx. revert ty.
  induction Hidx as [|i rest (E0 & E1 & Ep) _ IH]; intros ty; simpl.
  - reflexivity.
  - rewrite E0, E1, Ep. loop_cases; try reflexivity; apply IH.
Qed.

End SimulationReads.

Section SimulationSteps.

Context (y_true y_pred : list float) (initial_balance : float).

(** What iteration [i] does to the balance shows between the balances
    after [i] and [i + 1] iterations and between entries [i] and [i + 1]
    of the trajectory. *)
Lemma step_effect (i : nat) (f : float -> float) :
  (i + 1 < length y_true)%nat ->
  (i + 1 < length y_pred)%nat ->
  (forall b, profit_loop y_true y_pred [i] b = Some (f b)) ->
  (exists b, balance_after y_true y_pred i initial_balance = Some b
             /\ balance_after y_true y_pred (i + 1) initial_balance = Some (f b))
  /\ (forall tr, simulate_profit_series y_true y_pred initial_balance = Some tr ->
        exists b, tr !! i = Some b /\ tr !! (i + 1)%nat = Some (f b)).
Proof.
  intros Ht Hp Hstep.
  destruct (profit_loop_total y_true y_pred (seq 0 i) initial_balance) as [b Hb].
  { apply range_in_bounds. lia. }
  assert (Hnext : balance_after y_true y_pred (i + 1) initial_balance = Some (f b)).
  { rewrite balance_after_succ. unfold balance_after. rewrite Hb. apply Hstep. }
  split.
  - exists b. auto.
  - intros tr Hrun. unfold simulate_profit_series in Hrun.
    destruct (series_entry y_true y_pred initial_balance _ i tr Hrun ltac:(lia))
      as [Hi _].
    destruct (series_entry y_true y_pred initial_balance _ (i + 1) tr Hrun
                ltac:(lia)) as [Hi1 _].
    exists b. unfold balance_after in Hi. split; congruence.
Qed.

End SimulationSteps.

(** X1. The simulation has no look-ahead: the trajectory over the first
    [n] days is the first [n] entries of the trajectory over the whole
    series. *)
Theorem series_of_prefix_is_prefix
        (y_true y_pred : list float) (initial_balance : float)
        (n : nat) (tr : list float) :
  (1 <= n <= length y_true)%nat ->
  simulate_profit_series y_true y_pred initial_balance = Some tr ->
  simulate_profit_series (take n y_true) (take n y_pred) initial_balance
  = Some (take n tr).
Proof.
  intros Hn Hrun. unfold simulate_profit_series in *.
  rewrite length_take_le by lia.
  destruct (loops_ext (take n y_true) (take n y_pred) y_true y_pred
              (seq 0 (n - 1)) initial_balance [initial_balance]) as [_ ->].
  { apply Forall_forall. intros i Hi. apply elem_of_seq in Hi.
    rewrite !lookup_take_lt by lia. auto. }
  replace (length y_true - 1)%nat with ((n - 1) + (length y_true - n))%nat
    in Hrun by lia.
  rewrite seq_app, series_loop_app in Hrun.
  destruct (profit_loop y_true y_pred (seq 0 (n - 1)) initial_balance)
    as [b'|]; [|discriminate].
  simpl in Hrun.
  destruct (series_loop y_true y_pred (seq 0 (n - 1)) initial_balance
              [initial_balance]) as [bs'|] eqn:Hpre; [|discriminate].
  simpl in Hrun. f_equal.
  apply series_loop_shape in Hpre as (tl1 & -> & Hl1).
  apply series_loop_shape in Hrun as (tl2 & -> & _).
  rewrite length_seq in Hl1.
  rewrite take_app_length'; [reflexivity|]. simpl. lia.
Qed.

Lemma series_of_prefix_is_prefix_witness :
  (1 <= 2 <= length (map of_Z [100; 101; 99; 102]%Z))%nat
  /\ simulate_profit_series (map of_Z [100; 101; 99; 102])
                            (map of_Z [100; 102; 100; 90]) (of_Z 1000)
     = Some [of_Z 1000; of_Z 1010; of_Z 1010; of_Z 1010]
  /\ simulate_profit_series (take 2 (map of_Z [100; 101; 99; 102]))
                            (take 2 (map of_Z [100; 102; 100; 90])) (of_Z 1000)
     = Some (take 2 [of_Z 1000; of_Z 1010; of_Z 1010; of_Z 1010]).
Proof.
  split; [simpl; lia|]. split; [reflexivity|].
  apply (series_of_prefix_is_prefix (map of_Z [100; 101; 99; 102])
           (map of_Z [100; 102; 100; 90]) (of_Z 1000) 2
           [of_Z 1000; of_Z 1010; of_Z 1010; of_Z 1010]);
    [simpl; lia | reflexivity].
Defined.

(** X2. The only predictions read are [y_pred[1]] .. [y_pred[len(y_true)-1]]:
    two prediction arrays that agree there, whatever [y_pred[0]] and the
    entries past the end of [y_true] are, give the same result in both
    modes. *)
Theorem unread_predictions_do_not_matter
        (round2 : NumType -> float -> float) (y_true y_pred y_pred' : list float)
        (initial_type : NumType) (initial_balance : float) :
  (forall i, (1 <= i < length y_true)%nat -> y_pred !! i = y_pred' !! i) ->
  simulate_profit round2 y_true y_pred initial_type initial_balance
  = simulate_profit round2 y_true y_pred' initial_type initial_balance
  /\ simulate_profit_series y_true y_pred initial_balance
     = simulate_profit_series y_true y_pred' initial_balance.
Proof.
  intros Hsame.
  assert (Hidx : Forall (fun i => y_true !! i = y_true !! i
                   /\ y_true !! (i + 1)%nat = y_true !! (i + 1)%nat
                   /\ y_pred !! (i + 1)%nat = y_pred' !! (i + 1)%nat)
                  (seq 0 (length y_true - 1))).
  { apply Forall_forall. intros i Hi. apply elem_of_seq in Hi.
    repeat split. apply Hsame. lia. }
  destruct (loops_ext y_true y_pred y_true y_pred' (seq 0 (length y_true - 1))
              initial_balance [initial_balance] Hidx) as [Hp Hs].
  pose proof (type_loop_ext y_true y_pred y_true y_pred'
                (seq 0 (length y_true - 1)) initial_type Hidx) as Hty.
  unfold simulate_profit, simulate_profit_raw, simulate_profit_type,
    balance_after, simulate_profit_series.
  by rewrite Hp, Hs, Hty.
Qed.

Lemma unread_predictions_do_not_matter_witness :
  (forall i, (1 <= i < length (map of_Z [100; 101; 99]%Z))%nat ->
             map of_Z [0; 102; 103] !! i = map of_Z [777; 102; 103; 5; 6] !! i)
  /\ simulate_profit (fun _ x => x) (map of_Z [100; 101; 99])
                     (map of_Z [0; 102; 103]) PyFloat (of_Z 1000)
     = simulate_profit (fun _ x => x) (map of_Z [100; 101; 99])
                       (map of_Z [777; 102; 103; 5; 6]) PyFloat (of_Z 1000)
  /\ simulate_profit_series (map of_Z [100; 101; 99])
                            (map of_Z [0; 102; 103]) (of_Z 1000)
     = simulate_profit_series (map of_Z [100; 101; 99])
                              (map of_Z [777; 102; 103; 5; 6]) (of_Z 1000).
Proof.
  assert (Hsame : forall i, (1 <= i < length (map of_Z [100; 101; 99]%Z))%nat ->
             map of_Z [0; 102; 103] !! i = map of_Z [777; 102; 103; 5; 6] !! i).
  { intros [|[|[|i]]] Hi; simpl in Hi; try lia; reflexivity. }
  split; [exact Hsame|].
  exact (unread_predictions_do_not_matter (fun _ x => x)
           (map of_Z [100; 101; 99]) (map of_Z [0; 102; 103])
           (map of_Z [777; 102; 103; 5; 6]) PyFloat (of_Z 1000) Hsame).
Defined.

(** X3. For every input, [simulate_profit] raises [IndexError] exactly when
    [y_true] has at least two entries and [y_pred] is shorter than
    [y_true], which is also exactly when [simulate_profit_series] raises;
    otherwise it returns the last entry of that trajectory, rounded. *)
Theorem simulate_profit_raises_with_series
        (round2 : NumType -> float -> float) (y_true y_pred : list float)
        (initial_type : NumType) (initial_balance : float) :
  match simulate_profit round2 y_true y_pred initial_type initial_balance with
  | Some r =>
      ((length y_true < 2)%nat \/ (length y_true <= length y_pred)%nat)
      /\ exists tr types b ty,
          simulate_profit_series y_true y_pred initial_balance = Some tr
          /\ simulate_profit_series_types y_true y_pred initial_type
             = Some types
          /\ last tr = Some b /\ last types = Some ty /\ r = round2 ty b
  | None =>
      (2 <= length y_true)%nat /\ (length y_pred < length y_true)%nat
      /\ simulate_profit_series y_true y_pred initial_balance = None
  end.
Proof.
  destruct (decide (2 <= length y_true /\ length y_pred < length y_true)%nat)
    as [Hbad|Hok].
  - assert (Hseries : simulate_profit_series y_true y_pred initial_balance
                      = None).
    { unfold simulate_profit_series.
      apply (series_loop_index_error y_true y_pred _ (length y_pred - 1)).
      - apply elem_of_seq. lia.
      - apply lookup_ge_None. lia. }
    pose proof (series_loop_last y_true y_pred (seq 0 (length y_true - 1))
                  initial_balance [initial_balance] eq_refl) as Hlast.
    unfold simulate_profit_series in Hseries. rewrite Hseries in Hlast.
    unfold simulate_profit, simulate_profit_raw, balance_after.
    rewrite <- Hlast. simpl. unfold simulate_profit_series. tauto.
  - destruct (simulation_returns y_true y_pred initial_type initial_balance)
      as (tr & types & b & ty & Htr & Htypes & _ & Hlast & Htlast & Hb & Hty).
    { lia. }
    unfold simulate_profit. rewrite Hb, Hty. simpl.
    split; [lia|]. exists tr, types, b, ty. auto.
Qed.

Section SimulationPaths.

Context (y_true y_pred : list float).

(** The multiplying path of an iteration. *)
Lemma profit_step_trade (i : nat) (b today tomorrow pred : float) :
  y_true !! i = Some today ->
  y_true !! (i + 1)%nat = Some tomorrow ->
  y_pred !! (i + 1)%nat = Some pred ->
  isnan today || isnan tomorrow || isnan pred = false ->
  fle today min_price || fle tomorrow min_price = false ->
  fgt pred today = true ->
  fgt (fdiv tomorrow today) ten = false ->
  profit_loop y_true y_pred [i] b = Some (fmul b (fdiv tomorrow today)).
Proof.
  intros Ht0 Ht1 Hp1 Hnan Hfloor Hsig Hten. simpl.
  rewrite Ht0, Ht1, Hp1. simpl. by rewrite Hnan, Hfloor, Hsig, Hten.
Qed.

(** The two sanity filters of an iteration. *)
Lemma profit_step_filtered (i : nat) (b today tomorrow pred : float) :
  y_true !! i = Some today ->
  y_true !! (i + 1)%nat = Some tomorrow ->
  y_pred !! (i + 1)%nat = Some pred ->
  isnan today || isnan tomorrow || isnan pred = true
  \/ fle today min_price || fle tomorrow min_price = true ->
  profit_loop y_true y_pred [i] b = Some b.
Proof.
  intros Ht0 Ht1 Hp1 Hskip. simpl. rewrite Ht0, Ht1, Hp1. simpl.
  loop_cases; try reflexivity. destruct Hskip; congruence.
Qed.

(** A run none of whose iterations reaches [balance *= change]: the
    object [balance] is bound to is the caller's from start to end. *)
Lemma flat_run (round2 : NumType -> float -> float)
      (initial_type : NumType) (initial_balance : float) :
  (length y_true <= length y_pred)%nat ->
  (forall i today tomorrow pred,
      y_true !! i = Some today ->
      y_true !! (i + 1)%nat = Some tomorrow ->
      y_pred !! (i + 1)%nat = Some pred ->
      isnan today || isnan tomorrow || isnan pred = true
      \/ fle today min_price || fle tomorrow min_price = true
      \/ fgt (fdiv tomorrow today) ten = true
      \/ fgt pred today = false) ->
  simulate_profit round2 y_true y_pred initial_type initial_balance
  = Some (round2 initial_type initial_balance)
  /\ simulate_profit_series y_true y_pred initial_balance
     = Some (initial_balance :: replicate (length y_true - 1) initial_balance).
Proof.
  intros Hlen Hsteps.
  assert (Hreads : forall i, i ∈ seq 0 (length y_true - 1) ->
            exists t0 t1 p1, y_true !! i = Some t0
                             /\ y_true !! (i + 1)%nat = Some t1
                             /\ y_pred !! (i + 1)%nat = Some p1).
  { intros i Hi. apply elem_of_seq in Hi.
    destruct (lookup_lt_is_Some_2 y_true i ltac:(lia)) as [t0 Ht0].
    destruct (lookup_lt_is_Some_2 y_true (i + 1) ltac:(lia)) as [t1 Ht1].
    destruct (lookup_lt_is_Some_2 y_pred (i + 1) ltac:(lia)) as [p1 Hp1].
    eauto 10. }
  destruct (loops_hold_all y_true y_pred (seq 0 (length y_true - 1))
              initial_balance [initial_balance] eq_refl) as [Hp Hs].
  { apply Forall_forall. intros i Hi.
    destruct (Hreads i Hi) as (t0 & t1 & p1 & Ht0 & Ht1 & Hp1).
    destruct (Hsteps i t0 t1 p1 Ht0 Ht1 Hp1) as [Hskip|[Hskip|Hhold]].
    - eapply profit_step_filtered; eauto.
    - eapply profit_step_filtered; eauto.
    - eapply profit_step_hold; eauto. }
  assert (Hty : profit_type_loop y_true y_pred (seq 0 (length y_true - 1))
                                 initial_type = Some initial_type).
  { apply profit_type_loop_hold_all, Forall_forall. intros i Hi.
    destruct (Hreads i Hi) as (t0 & t1 & p1 & Ht0 & Ht1 & Hp1).
    eapply type_step_hold; eauto. }
  unfold simulate_profit, simulate_profit_raw, simulate_profit_type,
    balance_after, simulate_profit_series.
  rewrite Hp, Hs, Hty, length_seq. auto.
Qed.

End SimulationPaths.

(** X4. A step that passes both sanity filters, has the entry signal
    [y_pred[i+1] > y_true[i]] and a change of at most 10 multiplies the
    balance by [y_true[i+1] / y_true[i]], in scalar and in trajectory
    mode: the whole balance is reinvested. *)
Theorem trading_step_multiplies_balance
        (y_true y_pred : list float) (initial_balance : float) (i : nat)
        (today_real tomorrow_real tomorrow_pred : float) :
  y_true !! i = Some today_real ->
  y_true !! (i + 1)%nat = Some tomorrow_real ->
  y_pred !! (i + 1)%nat = Some tomorrow_pred ->
  isnan today_real || isnan tomorrow_real || isnan tomorrow_pred = false ->
  fle today_real min_price || fle tomorrow_real min_price = false ->
  fgt tomorrow_pred today_real = true ->
  fgt (fdiv tomorrow_real today_real) ten = false ->
  (exists b, balance_after y_true y_pred i initial_balance = Some b
             /\ balance_after y_true y_pred (i + 1) initial_balance
                = Some (fmul b (fdiv tomorrow_real today_real)))
  /\ (forall tr, simulate_profit_series y_true y_pred initial_balance = Some tr ->
        exists b, tr !! i = Some b
                  /\ tr !! (i + 1)%nat
                     = Some (fmul b (fdiv tomorrow_real today_real))).
Proof.
  intros Ht0 Ht1 Hp1 Hnan Hfloor Hsig Hten.
  apply (step_effect y_true y_pred initial_balance i
           (fun b => fmul b (fdiv tomorrow_real today_real))).
  - by apply lookup_lt_Some in Ht1.
  - by apply lookup_lt_Some in Hp1.
  - intros b. by eapply profit_step_trade.
Qed.

Lemma trading_step_multiplies_balance_witness :
  map of_Z [100; 101] !! 0%nat = Some (of_Z 100)
  /\ map of_Z [100; 101] !! 1%nat = Some (of_Z 101)
  /\ map of_Z [100; 102] !! 1%nat = Some (of_Z 102)
  /\ isnan (of_Z 100) || isnan (of_Z 101) || isnan (of_Z 102) = false
  /\ fle (of_Z 100) min_price || fle (of_Z 101) min_price = false
  /\ fgt (of_Z 102) (of_Z 100) = true
  /\ fgt (fdiv (of_Z 101) (of_Z 100)) ten = false
  /\ (exists b, balance_after (map of_Z [100; 101]) (map of_Z [100; 102]) 0
                              (of_Z 1000) = Some b
                /\ balance_after (map of_Z [100; 101]) (map of_Z [100; 102]) 1
                                 (of_Z 1000)
                   = Some (fmul b (fdiv (of_Z 101) (of_Z 100))))
  /\ (forall tr,
        simulate_profit_series (map of_Z [100; 101]) (map of_Z [100; 102])
                               (of_Z 1000) = Some tr ->
        exists b, tr !! 0%nat = Some b
                  /\ tr !! 1%nat = Some (fmul b (fdiv (of_Z 101) (of_Z 100)))).
Proof.
  repeat (split; [reflexivity|]).
  apply (trading_step_multiplies_balance (map of_Z [100; 101])
           (map of_Z [100; 102]) (of_Z 1000) 0 (of_Z 100) (of_Z 101) (of_Z 102));
    reflexivity.
Defined.

(** X5. A step where one of the three values is NaN, or where today's or
    tomorrow's real price is at or below the [1.0] floor, leaves the
    balance unchanged in both modes, whatever the prediction signals. *)
Theorem filtered_step_keeps_balance
        (y_true y_pred : list float) (initial_balance : float) (i : nat)
        (today_real tomorrow_real tomorrow_pred : float) :
  y_true !! i = Some today_real ->
  y_true !! (i + 1)%nat = Some tomorrow_real ->
  y_pred !! (i + 1)%nat = Some tomorrow_pred ->
  isnan today_real || isnan tomorrow_real || isnan tomorrow_pred = true
  \/ fle today_real min_price || fle tomorrow_real min_price = true ->
  (exists b, balance_after y_true y_pred i initial_balance = Some b
             /\ balance_after y_true y_pred (i + 1) initial_balance = Some b)
  /\ (forall tr, simulate_profit_series y_true y_pred initial_balance = Some tr ->
        exists b, tr !! i = Some b /\ tr !! (i + 1)%nat = Some b).
Proof.
  intros Ht0 Ht1 Hp1 Hskip.
  apply (step_effect y_true y_pred initial_balance i (fun b => b)).
  - by apply lookup_lt_Some in Ht1.
  - by apply lookup_lt_Some in Hp1.
  - intros b. by eapply profit_step_filtered.
Qed.

Lemma filtered_step_keeps_balance_witness :
  [of_Z 100; nan] !! 0%nat = Some (of_Z 100)
  /\ [of_Z 100; nan] !! 1%nat = Some nan
  /\ map of_Z [100; 500] !! 1%nat = Some (of_Z 500)
  /\ (isnan (of_Z 100) || isnan nan || isnan (of_Z 500) = true
      \/ fle (of_Z 100) min_price || fle nan min_price = true)
  /\ (exists b, balance_after [of_Z 100; nan] (map of_Z [100; 500]) 0
                              (of_Z 1000) = Some b
                /\ balance_after [of_Z 100; nan] (map of_Z [100; 500]) 1
                                 (of_Z 1000) = Some b)
  /\ (forall tr,
        simulate_profit_series [of_Z 100; nan] (map of_Z [100; 500])
                               (of_Z 1000) = Some tr ->
        exists b, tr !! 0%nat = Some b /\ tr !! 1%nat = Some b).
Proof.
  repeat (split; [reflexivity|]). split; [left; reflexivity|].
  apply (filtered_step_keeps_balance [of_Z 100; nan] (map of_Z [100; 500])
           (of_Z 1000) 0 (of_Z 100) nan (of_Z 500));
    try reflexivity.
  left; reflexivity.
Defined.

(** X6. On a price series all of whose values are NaN or at or below the
    [1.0] floor (negative prices, sub-dollar assets) the simulation never
    trades: whatever the predictions, [simulate_profit] returns the
    rounded initial balance and the trajectory is flat. *)
Theorem prices_at_or_below_floor_never_trade
        (round2 : NumType -> float -> float) (y_true y_pred : list float)
        (initial_type : NumType) (initial_balance : float) :
  (length y_true <= length y_pred)%nat ->
  Forall (fun p => isnan p || fle p min_price = true) y_true ->
  simulate_profit round2 y_true y_pred initial_type initial_balance
  = Some (round2 initial_type initial_balance)
  /\ simulate_profit_series y_true y_pred initial_balance
     = Some (initial_balance :: replicate (length y_true - 1) initial_balance).
Proof.
  intros Hlen Hlow. apply flat_run; [exact Hlen|].
  intros i today tomorrow pred Ht0 Ht1 Hp1.
  pose proof (proj1 (Forall_lookup _ _) Hlow i today Ht0) as Hp.
  apply orb_true_iff in Hp as [Hp|Hp]; rewrite Hp; [left|right; left];
    reflexivity.
Qed.

Lemma prices_at_or_below_floor_never_trade_witness :
  (length [of_scaled 1 (-3); of_scaled 3 (-3); of_Z (-100)]
   <= length (map of_Z [5; 5; 5]%Z))%nat
  /\ Forall (fun p => isnan p || fle p min_price = true)
            [of_scaled 1 (-3); of_scaled 3 (-3); of_Z (-100)]
  /\ simulate_profit (fun _ x => x)
       [of_scaled 1 (-3); of_scaled 3 (-3); of_Z (-100)] (map of_Z [5; 5; 5])
       PyFloat (of_Z 1000) = Some (of_Z 1000)
  /\ simulate_profit_series
       [of_scaled 1 (-3); of_scaled 3 (-3); of_Z (-100)] (map of_Z [5; 5; 5])
       (of_Z 1000)
     = Some (of_Z 1000 :: replicate (3 - 1) (of_Z 1000)).
Proof.
  assert (Hlow : Forall (fun p => isnan p || fle p min_price = true)
                        [of_scaled 1 (-3); of_scaled 3 (-3); of_Z (-100)]).
  { repeat constructor. }
  split; [simpl; lia|]. split; [exact Hlow|].
  apply (prices_at_or_below_floor_never_trade (fun _ x => x)
           [of_scaled 1 (-3); of_scaled 3 (-3); of_Z (-100)]
           (map of_Z [5; 5; 5]) PyFloat (of_Z 1000));
    [simpl; lia | exact Hlow].
Defined.

(** X7. When no prediction exceeds the real price of the day before
    ([y_pred[i+1] > y_true[i]] is false at every step, a NaN prediction
    included), the simulation never trades: the balance stays at the
    initial balance through the whole run. *)
Theorem no_entry_signal_never_trades
        (round2 : NumType -> float -> float) (y_true y_pred : list float)
        (initial_type : NumType) (initial_balance : float) :
  (length y_true <= length y_pred)%nat ->
  (forall i today pred,
      y_true !! i = Some today -> y_pred !! (i + 1)%nat = Some pred ->
      fgt pred today = false) ->
  simulate_profit round2 y_true y_pred initial_type initial_balance
  = Some (round2 initial_type initial_balance)
  /\ simulate_profit_series y_true y_pred initial_balance
     = Some (initial_balance :: replicate (length y_true - 1) initial_balance).
Proof.
  intros Hlen Hnosig. apply flat_run; [exact Hlen|].
  intros i today tomorrow pred Ht0 Ht1 Hp1. eauto.
Qed.

Lemma no_entry_signal_never_trades_witness :
  (length (map of_Z [100; 98; 96]%Z) <= length (map of_Z [99; 97; 95]%Z))%nat
  /\ (forall i today pred,
        map of_Z [100; 98; 96] !! i = Some today ->
        map of_Z [99; 97; 95] !! (i + 1)%nat = Some pred ->
        fgt pred today = false)
  /\ simulate_profit (fun _ x => x) (map of_Z [100; 98; 96])
                     (map of_Z [99; 97; 95]) PyFloat (of_Z 1000)
     = Some (of_Z 1000)
  /\ simulate_profit_series (map of_Z [100; 98; 96])
                            (map of_Z [99; 97; 95]) (of_Z 1000)
     = Some (of_Z 1000 :: replicate (3 - 1) (of_Z 1000)).
Proof.
  assert (Hnosig : forall i today pred,
        map of_Z [100; 98; 96] !! i = Some today ->
        map of_Z [99; 97; 95] !! (i + 1)%nat = Some pred ->
        fgt pred today = false).
  { intros [|[|[|i]]] today pred Ht Hp; simpl in Ht, Hp; try discriminate;
      injection Ht as <-; injection Hp as <-; reflexivity. }
  split; [simpl; lia|]. split; [exact Hnosig|].
  apply (no_entry_signal_never_trades (fun _ x => x) (map of_Z [100; 98; 96])
           (map of_Z [99; 97; 95]) PyFloat (of_Z 1000));
    [simpl; lia | exact Hnosig].
Defined.

Section AbsorbingBalances.

Context (y_true y_pred : list float).
Hypothesis prices_valid : Forall (fun x => valid x = true) y_true.

(** From [+0.0] or [+inf] the loop returns the same balance: every
    multiplier it applies is a positive finite float. *)
Lemma profit_loop_absorbing (idx : list nat) (b b' : float) :
  b = zero \/ b = pinf ->
  profit_loop y_true y_pred idx b = Some b' ->
  b' = b.
Proof.
  intros Hb. induction idx as [|i rest IH]; simpl.
  - by intros [= <-].
  - destruct (y_true !! i) as [today|] eqn:Ht0; [|discriminate].
    destruct (y_true !! (i + 1)%nat) as [tomorrow|] eqn:Ht1; [|discriminate].
    destruct (y_pred !! (i + 1)%nat) as [pred|] eqn:Hp1; [|discriminate].
    simpl. loop_cases; try exact IH.
    split_guards.
    destruct (trade_multiplier today tomorrow pred) as (m & e & ->);
      try assumption.
    + by apply (proj1 (Forall_lookup _ _) prices_valid i).
    + by apply (proj1 (Forall_lookup _ _) prices_valid (i + 1)%nat).
    + destruct Hb as [-> | ->]; exact IH.
Qed.

End AbsorbingBalances.

(** X8. With float64 prices, a balance that has underflowed to [0.0] or
    overflowed to [+inf] never changes again: every later entry of the
    trajectory is the same. *)
Theorem zero_and_infinite_balances_are_absorbing
        (y_true y_pred : list float) (initial_balance : float)
        (tr : list float) (k j : nat) (b : float) :
  Forall (fun x => valid x = true) y_true ->
  simulate_profit_series y_true y_pred initial_balance = Some tr ->
  (k <= j < length tr)%nat ->
  tr !! k = Some b ->
  b = zero \/ b = pinf ->
  tr !! j = Some b.
Proof.
  intros Hvalid Hrun Hkj Hk Hb. unfold simulate_profit_series in Hrun.
  assert (Hlen : length tr = S (length y_true - 1)).
  { destruct (series_loop_shape _ _ _ _ _ _ Hrun) as (tl & -> & Htl).
    rewrite length_seq in Htl. simpl. lia. }
  destruct (series_entry y_true y_pred initial_balance _ k tr Hrun ltac:(lia))
    as [Ek _].
  destruct (series_entry y_true y_pred initial_balance _ j tr Hrun ltac:(lia))
    as [Ej [bj Hj]].
  rewrite Hj. f_equal.
  rewrite Ek in Hk. rewrite Ej in Hj. unfold balance_after in Hk, Hj.
  replace j with (k + (j - k))%nat in Hj by lia.
  rewrite seq_app, profit_loop_app, Hk in Hj. simpl in Hj.
  by apply (profit_loop_absorbing y_true y_pred Hvalid (seq k (j - k)) b bj Hb).
Qed.

Lemma zero_and_infinite_balances_are_absorbing_witness :
  Forall (fun x => valid x = true) (map of_Z [4; 2; 4; 8])
  /\ simulate_profit_series (map of_Z [4; 2; 4; 8]) (map of_Z [0; 5; 9; 9])
                            (of_scaled 1 (-1074))
     = Some [of_scaled 1 (-1074); zero; zero; zero]
  /\ (1 <= 3 < length [of_scaled 1 (-1074); zero; zero; zero])%nat
  /\ [of_scaled 1 (-1074); zero; zero; zero] !! 1%nat = Some zero
  /\ (zero = zero \/ zero = pinf)
  /\ [of_scaled 1 (-1074); zero; zero; zero] !! 3%nat = Some zero.
Proof.
  assert (Hvalid : Forall (fun x => valid x = true) (map of_Z [4; 2; 4; 8])).
  { repeat constructor. }
  split; [exact Hvalid|]. split; [reflexivity|]. split; [simpl; lia|].
  split; [reflexivity|]. split; [by left|].
  apply (zero_and_infinite_balances_are_absorbing (map of_Z [4; 2; 4; 8])
           (map of_Z [0; 5; 9; 9]) (of_scaled 1 (-1074))
           [of_scaled 1 (-1074); zero; zero; zero] 1 3 zero Hvalid);
    [reflexivity | simpl; lia | reflexivity | by left].
Defined.

(* ================================================================== *)
(** * Feature windowing on an arbitrary frame *)

(** A filter that keeps only labels from [w] on keeps some of
    [w .. n-1], in order. *)
Lemma filter_seq_sublist (P : nat -> Prop) `{!forall r, Decision (P r)} (w n : nat) :
  (forall r, P r -> (r < n)%nat -> (w <= r)%nat) ->
  filter P (seq 0 n) `sublist_of` seq w (n - w).
Proof.
  induction n as [|n IH]; intros HP; [constructor|].
  rewrite seq_S, filter_app. simpl.
  destruct (decide (P n)) as [Hn|Hn].
  - rewrite filter_cons_True, filter_nil by exact Hn.
    pose proof (HP n Hn ltac:(lia)) as Hw.
    replace (S n - w)%nat with ((n - w) + 1)%nat by lia.
    rewrite seq_app. simpl. replace (w + (n - w))%nat with n by lia.
    apply sublist_app; [|reflexivity].
    apply IH. intros r Hr Hlt. apply HP; [exact Hr|lia].
  - rewrite filter_cons_False, filter_nil, app_nil_r by exact Hn.
    etrans; [apply IH; intros r Hr Hlt; apply HP; [exact Hr|lia]|].
    destruct (decide (w <= n)%nat).
    + replace (S n - w)%nat with ((n - w) + 1)%nat by lia.
      rewrite seq_app. by apply sublist_inserts_r.
    + replace (S n - w)%nat with (n - w)%nat by lia. reflexivity.
Qed.

Section FeatureRowsGeneral.

Context (df : DataFrame) (window : nat).

(** A row without NaN among the lag columns is at or after row [window],
    and the [window] closes above it are present and not NaN. *)
Lemma lags_clean_row (r : nat) :
  (r < length (close df))%nat ->
  row_has_na (lag_columns window df) r = false ->
  (window <= r)%nat
  /\ forall k, (1 <= k <= window)%nat ->
       exists v, close df !! (r - k)%nat = Some v /\ isnan v = false.
Proof.
  intros Hr Hclean.
  assert (Hk : forall k, (1 <= k <= window)%nat ->
            (k <= r)%nat
            /\ exists v, close df !! (r - k)%nat = Some v /\ isnan v = false).
  { intros k Hk.
    assert (Hcol : match shift k (close df) !! r with
                   | Some v => isnan v | None => false end = false).
    { apply not_true_is_false. intros Htrue.
      assert (row_has_na (lag_columns window df) r = true); [|congruence].
      apply existsb_exists. exists (shift k (close df)). split; [|exact Htrue].
      apply in_map_iff. exists k. split; [reflexivity|]. apply in_seq. lia. }
    rewrite lookup_shift in Hcol by exact Hr.
    destruct (Nat.ltb_spec r k) as [Hlt|Hge]; [discriminate Hcol|].
    split; [exact Hge|].
    destruct (lookup_lt_is_Some_2 (close df) (r - k)) as [v Hv]; [lia|].
    rewrite Hv in Hcol. eauto. }
  split; [|intros k Hkw; by apply Hk].
  destruct window as [|w]; [lia|]. apply (Hk (S w)). lia.
Qed.

(** What [dropna] guarantees of a surviving row label. *)
Lemma dropna_rows_kept (r : nat) :
  r ∈ dropna_rows (close df :: others df ++ lag_columns window df)
                  (length (close df)) ->
  (window <= r < length (close df))%nat
  /\ (exists v, close df !! r = Some v /\ isnan v = false)
  /\ forall k, (1 <= k <= window)%nat ->
       exists v, close df !! (r - k)%nat = Some v /\ isnan v = false.
Proof.
  unfold dropna_rows. intros Hin.
  apply list_elem_of_filter in Hin as [Hclean Hr]. apply elem_of_seq in Hr.
  change (close df :: others df ++ lag_columns window df)
    with ([close df] ++ others df ++ lag_columns window df) in Hclean.
  rewrite !row_has_na_app in Hclean.
  apply orb_false_elim in Hclean as [Hc Hclean].
  apply orb_false_elim in Hclean as [_ Hlags].
  destruct (lags_clean_row r ltac:(lia) Hlags) as [Hw Hk].
  split; [lia|]. split; [|exact Hk].
  destruct (lookup_lt_is_Some_2 (close df) r) as [v Hv]; [lia|].
  exists v. split; [exact Hv|].
  unfold row_has_na in Hc. simpl in Hc. rewrite Hv in Hc.
  by apply orb_false_elim in Hc as [? _].
Qed.

(** The labels [dropna] keeps are some of [window .. L-1], in order. *)
Lemma dropna_rows_sublist :
  dropna_rows (close df :: others df ++ lag_columns window df)
              (length (close df))
    `sublist_of` seq window (length (close df) - window).
Proof.
  apply filter_seq_sublist. intros r Hr Hlt.
  assert (Hin : r ∈ dropna_rows (close df :: others df ++ lag_columns window df)
                                (length (close df))).
  { unfold dropna_rows. apply list_elem_of_filter. split; [exact Hr|].
    apply elem_of_seq. lia. }
  apply dropna_rows_kept in Hin as [Hin _]. lia.
Qed.

End FeatureRowsGeneral.

(** X9. On every frame, whatever is missing in it, [prepare_features]
    returns as many targets as feature rows, at most
    [max(L - window, 0)] of them; every feature row has [window] entries,
    and no feature and no target is a missing value. *)
Theorem prepare_features_output_is_complete (df : DataFrame) (window : nat) :
  length (prepare_features df window).2 = length (prepare_features df window).1
  /\ (length (prepare_features df window).1 <= length (close df) - window)%nat
  /\ Forall (fun xrow => length xrow = window
                         /\ Forall (fun v => isnan v = false) xrow)
            (prepare_features df window).1
  /\ Forall (fun v => isnan v = false) (prepare_features df window).2.
Proof.
  unfold prepare_features. simpl.
  set (kept := dropna_rows (close df :: others df ++ lag_columns window df)
                           (length (close df))).
  assert (Hkept : forall r, r ∈ kept ->
            (window <= r < length (close df))%nat
            /\ (exists v, close df !! r = Some v /\ isnan v = false)
            /\ forall k, (1 <= k <= window)%nat ->
                 exists v, close df !! (r - k)%nat = Some v /\ isnan v = false).
  { intros r Hr. by apply dropna_rows_kept. }
  destruct (omap_all_Some (fun r => close df !! r) kept) as [Hylen Hy].
  { apply Forall_forall. intros r Hr.
    destruct (Hkept r Hr) as (_ & (v & -> & _) & _). by eexists. }
  rewrite length_map. split; [exact Hylen|]. split.
  { pose proof (sublist_length _ _ (dropna_rows_sublist df window)) as Hle.
    by rewrite length_seq in Hle. }
  split.
  - apply Forall_fmap, Forall_forall. intros r Hr. simpl.
    destruct (Hkept r Hr) as (Hrange & _ & Hk).
    destruct (row_lags df window r Hrange) as [Hlen Hrow].
    split; [exact Hlen|]. apply Forall_lookup. intros j v Hv.
    assert (Hj : (j < window)%nat).
    { rewrite <- Hlen. by apply lookup_lt_Some in Hv. }
    destruct (Hrow j Hj) as [Heq _]. rewrite Heq in Hv.
    destruct (Hk (j + 1)%nat ltac:(lia)) as (v' & Hv' & Hnan).
    replace (r - (j + 1))%nat with (r - 1 - j)%nat in Hv' by lia. congruence.
  - apply Forall_lookup. intros i v Hv. rewrite Hy in Hv.
    destruct (kept !! i) as [r|] eqn:Hr; [|discriminate]. simpl in Hv.
    apply list_elem_of_lookup_2 in Hr.
    destruct (Hkept r Hr) as (_ & (v' & Hv' & Hnan) & _). congruence.
Qed.

(** X10. On every frame, the pairs [prepare_features] returns come in
    chronological order, and each pairs the close of one day [r] with the
    closes of the [window] days before it, most recent first: a feature
    row never holds the target's own day or a later one. *)
Theorem prepare_features_rows_are_past_closes (df : DataFrame) (window : nat) :
  exists labels,
    labels `sublist_of` seq window (length (close df) - window)
    /\ length (prepare_features df window).1 = length labels
    /\ forall i r, labels !! i = Some r ->
         (prepare_features df window).2 !! i = close df !! r
         /\ is_Some (close df !! r)
         /\ exists xrow,
             (prepare_features df window).1 !! i = Some xrow
             /\ forall j, (j < window)%nat ->
                  xrow !! j = close df !! (r - 1 - j)%nat.
Proof.
  unfold prepare_features. simpl.
  set (kept := dropna_rows (close df :: others df ++ lag_columns window df)
                           (length (close df))).
  exists kept. split; [apply dropna_rows_sublist|].
  split; [apply length_map|]. intros i r Hr.
  assert (Hin : r ∈ kept) by (by apply list_elem_of_lookup_2 in Hr).
  destruct (dropna_rows_kept df window r Hin) as (Hrange & (v & Hv & _) & _).
  destruct (omap_all_Some (fun r => close df !! r) kept) as [_ Hy].
  { apply Forall_forall. intros r' Hr'.
    destruct (dropna_rows_kept df window r' Hr') as (_ & (v' & -> & _) & _).
    by eexists. }
  split; [by rewrite Hy, Hr|]. split; [by eexists|].
  exists (row (lag_columns window df) r).
  split; [by rewrite list_lookup_fmap, Hr|].
  intros j Hj. by destruct (row_lags df window r Hrange) as [_ Hrow];
    destruct (Hrow j Hj).
Qed.

(* ================================================================== *)
(** * Model selection in [train_mlp_model] *)

Section FloatOrder.

(** The comparison of two finite floats: sign first, then exponent and
    mantissa. *)
Lemma finite_compare_Lt (e1 e2 : Z) (m1 m2 : positive) :
  match e1 ?= e2 with
  | Eq => Pos.compare_cont Eq m1 m2
  | Lt => Lt
  | Gt => Gt
  end = Lt <-> e1 < e2 \/ (e1 = e2 /\ (m1 < m2)%positive).
Proof.
  destruct (Z.compare_spec e1 e2) as [->|Hlt|Hgt].
  - change (Pos.compare_cont Eq m1 m2) with (Pos.compare m1 m2).
    rewrite Pos.compare_lt_iff. split; [auto|]. intros [?|[_ ?]]; [lia|done].
  - split; [auto|done].
  - split; [discriminate|]. intros [?|[? _]]; lia.
Qed.

Lemma finite_compare_opp_Lt (e1 e2 : Z) (m1 m2 : positive) :
  match e1 ?= e2 with
  | Eq => CompOpp (Pos.compare_cont Eq m1 m2)
  | Lt => Gt
  | Gt => Lt
  end = Lt <-> e2 < e1 \/ (e1 = e2 /\ (m2 < m1)%positive).
Proof.
  destruct (Z.compare_spec e1 e2) as [->|Hlt|Hgt].
  - change (Pos.compare_cont Eq m1 m2) with (Pos.compare m1 m2).
    destruct (Pos.compare_spec m1 m2) as [->|H|H]; simpl; split;
      try discriminate; try done; try (intros [?|[_ ?]]; lia); auto.
  - split; [discriminate|]. intros [?|[? _]]; lia.
  - split; [auto|done].
Qed.

Lemma flt_finite (s1 s2 : bool) (m1 m2 : positive) (e1 e2 : Z) :
  flt (S754_finite s1 m1 e1) (S754_finite s2 m2 e2) = true <->
  match s1, s2 with
  | true, false => True
  | false, true => False
  | false, false => e1 < e2 \/ (e1 = e2 /\ (m1 < m2)%positive)
  | true, true => e2 < e1 \/ (e1 = e2 /\ (m2 < m1)%positive)
  end.
Proof.
  unfold flt, SFltb. cbn [SFcompare].
  destruct s1, s2.
  - rewrite <- finite_compare_opp_Lt.
    destruct (match e1 ?= e2 with Eq => CompOpp (Pos.compare_cont Eq m1 m2) | Lt => Gt | Gt => Lt end);
      split; congruence.
  - done.
  - split; [discriminate|done].
  - rewrite <- finite_compare_Lt.
    destruct (match e1 ?= e2 with Eq => Pos.compare_cont Eq m1 m2 | Lt => Lt | Gt => Gt end);
      split; congruence.
Qed.

Lemma flt_trans (x y z : float) :
  flt x y = true -> flt y z = true -> flt x z = true.
Proof.
  destruct x as [sx|sx| |sx mx ex], y as [sy|sy| |sy my ey],
           z as [sz|sz| |sz mz ez];
    try (intros H1 H2; discriminate H1 || discriminate H2);
    rewrite ?flt_finite;
    try (destruct sx, sy, sz; intros H1 H2;
         (discriminate H1 || discriminate H2 || reflexivity || tauto || lia)).
Qed.

Lemma flt_asym (x y : float) : flt x y = true -> flt y x = false.
Proof.
  unfold flt, SFltb. rewrite (SFcompare_antisym x y).
  destruct (SFcompare x y) as [[| |]|]; simpl; congruence.
Qed.

Lemma flt_irrefl (x : float) : flt x x = false.
Proof.
  destruct (flt x x) eqn:Hx; [|reflexivity]. by rewrite (flt_asym x x Hx) in Hx.
Qed.

End FloatOrder.

Section ModelSelection.

Context {Model : Type}
        (mlp_fit : list (list float) -> list float -> option Model)
        (predict : Model -> list (list float) -> option (list float))
        (mean_squared_error r2_score : list float -> list float -> option float)
        (X : list (list float)) (y : list float).

Local Abbreviation outcome :=
  (fit_and_score Model mlp_fit predict mean_squared_error r2_score X y).
Local Abbreviation loop :=
  (cv_loop Model mlp_fit predict mean_squared_error r2_score X y).

(** When the loop ends without exception, either no fold scored below the
    score it started from and the model it started from is returned, or
    the candidate of a fold that scored below it is returned and no fold
    scored below that candidate. *)
Lemma cv_loop_selects (folds : list (list nat * list nat))
      (best_model res : option Model) (best_score : float) :
  loop folds best_model best_score = Some res ->
  (res = best_model
   /\ forall fold m' mse', fold ∈ folds -> outcome fold = Some (m', mse') ->
        flt mse' best_score = false)
  \/ (exists fold m mse,
        res = Some m /\ fold ∈ folds /\ outcome fold = Some (m, mse)
        /\ flt mse best_score = true
        /\ forall fold' m' mse', fold' ∈ folds ->
             outcome fold' = Some (m', mse') -> flt mse' mse = false).
Proof.
  revert best_model best_score.
  induction folds as [|fold rest IH]; intros best_model best_score; simpl.
  - intros [= <-]. left. split; [reflexivity|].
    intros fold m' mse' Hin. by apply elem_of_nil in Hin.
  - destruct (outcome fold) as [[m1 mse1]|] eqn:Hout; simpl; [|discriminate].
    destruct (flt mse1 best_score) eqn:Hbetter; intros Hrun;
      apply IH in Hrun as [[-> Hrest] | (f & m & mse & -> & Hin & Hf & Hlt & Hrest)].
    + right. exists fold, m1, mse1. repeat split; auto using list_elem_of_here.
      intros fold' m' mse' Hin' Hout'.
      apply elem_of_cons in Hin' as [-> | Hin'].
      * rewrite Hout in Hout'. injection Hout' as <- <-. apply flt_irrefl.
      * eauto.
    + right. exists f, m, mse. repeat split; auto using list_elem_of_further.
      * by apply (flt_trans mse mse1 best_score).
      * intros fold' m' mse' Hin' Hout'.
        apply elem_of_cons in Hin' as [-> | Hin'].
        -- rewrite Hout in Hout'. injection Hout' as <- <-. by apply flt_asym.
        -- eauto.
    + left. split; [reflexivity|].
      intros fold' m' mse' Hin' Hout'.
      apply elem_of_cons in Hin' as [-> | Hin'].
      * rewrite Hout in Hout'. by injection Hout' as <- <-.
      * eauto.
    + right. exists f, m, mse. repeat split; auto using list_elem_of_further.
      intros fold' m' mse' Hin' Hout'.
      apply elem_of_cons in Hin' as [-> | Hin'].
      * rewrite Hout in Hout'. injection Hout' as <- <-.
        destruct (flt mse1 mse) eqn:Hlow; [|reflexivity].
        by rewrite (flt_trans mse1 mse best_score Hlow Hlt) in Hbetter.
      * eauto.
Qed.

(** The loop raises only if a fold raises. *)
Lemma cv_loop_returns (folds : list (list nat * list nat))
      (best_model : option Model) (best_score : float) :
  Forall (fun fold => is_Some (outcome fold)) folds ->
  is_Some (loop folds best_model best_score).
Proof.
  intros Hall. revert best_model best_score.
  induction Hall as [|fold rest [[m mse] Hout] _ IH];
    intros best_model best_score; simpl.
  - by eexists.
  - rewrite Hout. simpl. destruct (flt mse best_score); apply IH.
Qed.

End ModelSelection.

(** X11. The model [train_mlp_model] returns is the candidate of one of
    the folds, its validation MSE is below [+inf], and no fold's candidate
    has a strictly smaller validation MSE; a candidate whose MSE is NaN is
    never the one returned. *)
Theorem train_mlp_model_returns_lowest_mse
        (Model : Type)
        (kfold_split : nat -> nat -> option (list (list nat * list nat)))
        (mlp_fit : list (list float) -> list float -> option Model)
        (predict : Model -> list (list float) -> option (list float))
        (mean_squared_error r2_score : list float -> list float -> option float)
        (X : list (list float)) (y : list float) (k : nat) (model : Model) :
  train_mlp_model Model kfold_split mlp_fit predict mean_squared_error r2_score
                  X y k = Some model ->
  exists folds fold mse,
    kfold_split k (length X) = Some folds
    /\ fold ∈ folds
    /\ fit_and_score Model mlp_fit predict mean_squared_error r2_score
                     X y fold = Some (model, mse)
    /\ flt mse pinf = true
    /\ isnan mse = false
    /\ forall fold' m' mse',
         fold' ∈ folds ->
         fit_and_score Model mlp_fit predict mean_squared_error r2_score
                       X y fold' = Some (m', mse') ->
         flt mse' mse = false.
Proof.
  unfold train_mlp_model. intros Hret.
  destruct (kfold_split k (length X)) as [folds|]; simpl in Hret; [|discriminate].
  destruct (cv_loop Model mlp_fit predict mean_squared_error r2_score X y
              folds None pinf) as [res|] eqn:Hrun; [|discriminate].
  subst res.
  apply cv_loop_selects in Hrun
    as [[? _] | (fold & m & mse & [= <-] & Hin & Hout & Hlt & Hmin)];
    [discriminate|].
  exists folds, fold, mse. repeat split; auto.
  by destruct mse.
Qed.

Lemma train_mlp_model_returns_lowest_mse_witness :
  train_mlp_model nat
    (fun _ _ : nat => Some [([1%nat], [0%nat]); ([0%nat], [1%nat])])
    (fun X_train _ => Some (length X_train))
    (fun _ X_val => Some (concat X_val))
    (fun y_val y_pred =>
       match y_val, y_pred with
       | [a], [b] => Some (fsub a b)
       | _, _ => None
       end)
    (fun _ _ => Some one)
    [[of_Z 1]; [of_Z 5]] [of_Z 4; of_Z 7] 2 = Some 1%nat
  /\ exists folds fold mse,
      (fun _ _ : nat => Some [([1%nat], [0%nat]); ([0%nat], [1%nat])]) 2%nat
        (length [[of_Z 1]; [of_Z 5]]) = Some folds
      /\ fold ∈ folds
      /\ fit_and_score nat
           (fun X_train _ => Some (length X_train))
           (fun _ X_val => Some (concat X_val))
           (fun y_val y_pred =>
              match y_val, y_pred with
              | [a], [b] => Some (fsub a b)
              | _, _ => None
              end)
           (fun _ _ => Some one)
           [[of_Z 1]; [of_Z 5]] [of_Z 4; of_Z 7] fold = Some (1%nat, mse)
      /\ flt mse pinf = true
      /\ isnan mse = false
      /\ forall fold' m' mse',
           fold' ∈ folds ->
           fit_and_score nat
             (fun X_train _ => Some (length X_train))
             (fun _ X_val => Some (concat X_val))
             (fun y_val y_pred =>
                match y_val, y_pred with
                | [a], [b] => Some (fsub a b)
                | _, _ => None
                end)
             (fun _ _ => Some one)
             [[of_Z 1]; [of_Z 5]] [of_Z 4; of_Z 7] fold' = Some (m', mse') ->
           flt mse' mse = false.
Proof.
  split; [reflexivity|].
  apply (train_mlp_model_returns_lowest_mse nat
           (fun _ _ : nat => Some [([1%nat], [0%nat]); ([0%nat], [1%nat])])
           (fun X_train _ => Some (length X_train))
           (fun _ X_val => Some (concat X_val))
           (fun y_val y_pred =>
              match y_val, y_pred with
              | [a], [b] => Some (fsub a b)
              | _, _ => None
              end)
           (fun _ _ => Some one)
           [[of_Z 1]; [of_Z 5]] [of_Z 4; of_Z 7] 2 1%nat).
  reflexivity.
Defined.

(** X12. When the split and every fold run without exception,
    [train_mlp_model] still returns [None] exactly when no fold's
    validation MSE is below [+inf] (every MSE is NaN or infinite, or there
    is no fold): an absent model does not always mean that training
    raised. *)
Theorem train_mlp_model_none_without_exception
        (Model : Type)
        (kfold_split : nat -> nat -> option (list (list nat * list nat)))
        (mlp_fit : list (list float) -> list float -> option Model)
        (predict : Model -> list (list float) -> option (list float))
        (mean_squared_error r2_score : list float -> list float -> option float)
        (X : list (list float)) (y : list float) (k : nat)
        (folds : list (list nat * list nat)) :
  kfold_split k (length X) = Some folds ->
  Forall (fun fold =>
            is_Some (fit_and_score Model mlp_fit predict mean_squared_error
                                   r2_score X y fold)) folds ->
  train_mlp_model Model kfold_split mlp_fit predict mean_squared_error r2_score
                  X y k = None
  <-> forall fold m mse,
        fold ∈ folds ->
        fit_and_score Model mlp_fit predict mean_squared_error r2_score
                      X y fold = Some (m, mse) ->
        flt mse pinf = false.
Proof.
  intros Hsplit Hall. unfold train_mlp_model. rewrite Hsplit. simpl.
  destruct (cv_loop_returns mlp_fit predict mean_squared_error r2_score X y
              folds None pinf Hall) as [res Hrun].
  rewrite Hrun.
  apply cv_loop_selects in Hrun
    as [[-> Hnone] | (fold & m & mse & -> & Hin & Hout & Hlt & _)].
  - split; [intros _; exact Hnone | reflexivity].
  - split; [discriminate|]. intros Hnone.
    by rewrite (Hnone fold m mse Hin Hout) in Hlt.
Qed.

Lemma train_mlp_model_none_without_exception_witness :
  (fun _ _ : nat => Some [([1%nat], [0%nat]); ([0%nat], [1%nat])]) 2%nat
    (length [[of_Z 1]; [of_Z 5]]) = Some [([1%nat], [0%nat]); ([0%nat], [1%nat])]
  /\ Forall (fun fold =>
               is_Some (fit_and_score nat
                          (fun X_train _ => Some (length X_train))
                          (fun _ X_val => Some (concat X_val))
                          (fun _ _ => Some nan) (fun _ _ => Some nan)
                          [[of_Z 1]; [of_Z 5]] [of_Z 4; of_Z 7] fold))
            [([1%nat], [0%nat]); ([0%nat], [1%nat])]
  /\ (train_mlp_model nat
        (fun _ _ : nat => Some [([1%nat], [0%nat]); ([0%nat], [1%nat])])
        (fun X_train _ => Some (length X_train))
        (fun _ X_val => Some (concat X_val))
        (fun _ _ => Some nan) (fun _ _ => Some nan)
        [[of_Z 1]; [of_Z 5]] [of_Z 4; of_Z 7] 2 = None
      <-> forall fold m mse,
            fold ∈ [([1%nat], [0%nat]); ([0%nat], [1%nat])] ->
            fit_and_score nat
              (fun X_train _ => Some (length X_train))
              (fun _ X_val => Some (concat X_val))
              (fun _ _ => Some nan) (fun _ _ => Some nan)
              [[of_Z 1]; [of_Z 5]] [of_Z 4; of_Z 7] fold = Some (m, mse) ->
            flt mse pinf = false).
Proof.
  assert (Hall : Forall (fun fold =>
               is_Some (fit_and_score nat
                          (fun X_train _ => Some (length X_train))
                          (fun _ X_val => Some (concat X_val))
                          (fun _ _ => Some nan) (fun _ _ => Some nan)
                          [[of_Z 1]; [of_Z 5]] [of_Z 4; of_Z 7] fold))
            [([1%nat], [0%nat]); ([0%nat], [1%nat])]).
  { repeat constructor; by eexists. }
  split; [reflexivity|]. split; [exact Hall|].
  exact (train_mlp_model_none_without_exception nat
           (fun _ _ : nat => Some [([1%nat], [0%nat]); ([0%nat], [1%nat])])
           (fun X_train _ => Some (length X_train))
           (fun _ X_val => Some (concat X_val))
           (fun _ _ => Some nan) (fun _ _ => Some nan)
           [[of_Z 1]; [of_Z 5]] [of_Z 4; of_Z 7] 2
           [([1%nat], [0%nat]); ([0%nat], [1%nat])] eq_refl Hall).
Defined.

(* ================================================================== *)
(** * The result mapping of the two hypothesis tests *)

Section RecordingLoop.

(** Both tests run the same loop: a [try] block per asset whose tuple is
    stored under the asset's key, and a handler that stores the undefined
    marker. *)
Context {D : Type}
        (try_block : string -> D -> option (TestResult * list Message))
        (step : gmap string TestResult * list Message -> string * D ->
                gmap string TestResult * list Message).
Hypothesis step_eq : forall st coin df,
  step st (coin, df)
  = match try_block coin df with
    | Some (r, msgs) => (<[coin := r]> st.1, st.2 ++ msgs)
    | None => (<[coin := undefined_result]> st.1, st.2 ++ [ErrorOnCoin coin])
    end.

Lemma recorded_keys (data : list (string * D))
      (st : gmap string TestResult * list Message) (c : string) :
  is_Some ((foldl step st data).1 !! c)
  <-> is_Some (st.1 !! c) \/ c ∈ data.*1.
Proof.
  revert st. induction data as [|[coin df] rest IH]; intros st; simpl.
  - split; [auto|]. intros [?|Hin]; [done|]. by apply elem_of_nil in Hin.
  - rewrite IH, step_eq, elem_of_cons.
    assert (Hins : forall r, is_Some (<[coin := r]> st.1 !! c)
                             <-> is_Some (st.1 !! c) \/ c = coin).
    { intros r. rewrite lookup_insert_is_Some.
      destruct (decide (coin = c)); split; intros; intuition congruence. }
    destruct (try_block coin df) as [[r msgs]|]; simpl; rewrite Hins; tauto.
Qed.

Lemma recorded_origin (data : list (string * D))
      (st : gmap string TestResult * list Message) (c : string)
      (r : TestResult) :
  (foldl step st data).1 !! c = Some r ->
  st.1 !! c = Some r
  \/ exists df, (c, df) ∈ data
       /\ ((exists msgs, try_block c df = Some (r, msgs))
           \/ (try_block c df = None /\ r = undefined_result)).
Proof.
  revert st. induction data as [|[coin df] rest IH]; intros st; simpl.
  - auto.
  - intros Hres. apply IH in Hres as [Hres|(df' & Hin & Hwhy)].
    + rewrite step_eq in Hres.
      destruct (decide (coin = c)) as [->|Hne].
      * right. exists df. split; [apply list_elem_of_here|].
        destruct (try_block c df) as [[r' msgs]|]; simpl in Hres;
          rewrite lookup_insert_eq in Hres; injection Hres as <-; eauto.
      * left. destruct (try_block coin df) as [[r' msgs]|]; simpl in Hres;
          by rewrite lookup_insert_ne in Hres.
    + right. exists df'. split; [by apply list_elem_of_further|exact Hwhy].
Qed.

Lemma recorded_later (data : list (string * D))
      (st : gmap string TestResult * list Message) (c : string) (m : Message) :
  (c ∉ data.*1 -> (foldl step st data).1 !! c = st.1 !! c)
  /\ (m ∈ st.2 -> m ∈ (foldl step st data).2).
Proof.
  revert st. induction data as [|[coin df] rest IH]; intros st; simpl.
  - auto.
  - destruct (IH (step st (coin, df))) as [Hkeep Hmsg]. split.
    + intros Hnot. apply not_elem_of_cons in Hnot as [Hne Hnot]. simpl in Hne.
      rewrite (Hkeep Hnot), step_eq.
      destruct (try_block coin df) as [[r' msgs]|]; simpl;
        by rewrite lookup_insert_ne.
    + intros Hm. apply Hmsg. rewrite step_eq.
      destruct (try_block coin df) as [[r' msgs]|]; simpl;
        apply elem_of_app; by left.
Qed.

Lemma recorded_exception (data : list (string * D))
      (st : gmap string TestResult * list Message) (c : string) (df : D) :
  NoDup data.*1 ->
  (c, df) ∈ data ->
  try_block c df = None ->
  (foldl step st data).1 !! c = Some undefined_result
  /\ ErrorOnCoin c ∈ (foldl step st data).2.
Proof.
  intros Hnd Hin Hraise. revert st.
  induction data as [|[coin d] rest IH]; intros st; simpl.
  - by apply elem_of_nil in Hin.
  - simpl in Hnd. apply NoDup_cons in Hnd as [Hc Hnd].
    apply elem_of_cons in Hin as [[= <- <-]|Hin]; [|by apply IH].
    destruct (recorded_later rest (step st (c, df)) c (ErrorOnCoin c))
      as [Hkeep Hmsg].
    rewrite (Hkeep Hc). rewrite step_eq, Hraise in Hmsg |- *. simpl in *.
    split; [apply lookup_insert_eq|].
    apply Hmsg, elem_of_app. right. apply list_elem_of_here.
Qed.

End RecordingLoop.

(** X13. The mapping [perform_mean_return_monthly_test] returns has an
    entry exactly for the assets of its input: none is lost to an
    exception, none is added, and an empty input gives an empty
    mapping. *)
Theorem monthly_test_keys_are_the_assets
        (DataFrame : Type)
        (monthly_returns_pct : DataFrame -> option (list float))
        (shapiro_pvalue : list float -> option float)
        (series_mean series_std : list float -> float)
        (t_cdf : float -> nat -> option float)
        (data : list (string * DataFrame)) (threshold_percent alpha : float)
        (coin : string) :
  is_Some ((perform_mean_return_monthly_test
              DataFrame monthly_returns_pct shapiro_pvalue series_mean
              series_std t_cdf data threshold_percent alpha).1 !! coin)
  <-> coin ∈ data.*1.
Proof.
  unfold perform_mean_return_monthly_test.
  rewrite (recorded_keys
             (fun c d => try_asset DataFrame monthly_returns_pct shapiro_pvalue
                           series_mean series_std t_cdf c d threshold_percent
                           alpha)).
  - simpl. rewrite lookup_empty. split; [|auto].
    intros [[? [=]]|?]; done.
  - intros st c d. apply asset_step_eq.
Qed.

(** X14. In the monthly test [reject_H0] is [True] for an asset only if
    its [try] block ran to the end of the normal branch: at least three
    monthly returns, a Shapiro-Wilk p-value [>= alpha], and a t-test
    p-value [< alpha].  An asset with too few returns, a non-normal one or
    one whose processing raised never rejects. *)
Theorem monthly_test_rejects_only_after_normality
        (DataFrame : Type)
        (monthly_returns_pct : DataFrame -> option (list float))
        (shapiro_pvalue : list float -> option float)
        (series_mean series_std : list float -> float)
        (t_cdf : float -> nat -> option float)
        (data : list (string * DataFrame)) (threshold_percent alpha : float)
        (coin : string) (media t_stat p_value : float) :
  (perform_mean_return_monthly_test
     DataFrame monthly_returns_pct shapiro_pvalue series_mean
     series_std t_cdf data threshold_percent alpha).1 !! coin
  = Some (media, t_stat, p_value, true) ->
  exists df returns shapiro_p,
    (coin, df) ∈ data
    /\ monthly_returns_pct df = Some returns
    /\ (3 <= length (last_rows 6 returns))%nat
    /\ shapiro_pvalue (last_rows 6 returns) = Some shapiro_p
    /\ fge shapiro_p alpha = true
    /\ media = series_mean (last_rows 6 returns)
    /\ t_cdf t_stat (length (last_rows 6 returns) - 1)%nat = Some p_value
    /\ flt p_value alpha = true.
Proof.
  unfold perform_mean_return_monthly_test. intros Hres.
  apply (recorded_origin
           (fun c d => try_asset DataFrame monthly_returns_pct shapiro_pvalue
                         series_mean series_std t_cdf c d threshold_percent
                         alpha)) in Hres
    as [Hres|(df & Hin & [(msgs & Hrun)|[_ [=]]])];
    [..|intros st c d; apply asset_step_eq].
  { simpl in Hres. by rewrite lookup_empty in Hres. }
  exists df. unfold try_asset in Hrun.
  destruct (monthly_returns_pct df) as [returns|]; simpl in Hrun; [|discriminate].
  exists returns.
  destruct (Nat.ltb_spec (length (last_rows 6 returns)) 3) as [|Hge];
    [discriminate Hrun|].
  destruct (shapiro_pvalue (last_rows 6 returns)) as [shapiro_p|];
    simpl in Hrun; [|discriminate].
  exists shapiro_p.
  destruct (fge shapiro_p alpha) eqn:Hnormal; [|discriminate Hrun].
  destruct (t_cdf _ _) as [p|] eqn:Hcdf; simpl in Hrun; [|discriminate].
  injection Hrun as <- <- <- Hrej _.
  repeat split; auto.
Qed.

Lemma monthly_test_rejects_only_after_normality_witness :
  (perform_mean_return_monthly_test
     (list float) Some
     (fun l => if (length l <? 3)%nat then None else Some one)
     (fun _ => zero) (fun _ => one) (fun _ _ => Some zero)
     [("BTC"%string, map of_Z [4; -2]);
      ("ETH"%string, map of_Z [1; 2; 3; 5])] one one).1 !! "ETH"%string
  = Some (zero,
          fdiv (fsub zero one) (fdiv one (sqrt_of_len 4)), zero, true)
  /\ exists df returns shapiro_p,
      ("ETH"%string, df) ∈ [("BTC"%string, map of_Z [4; -2]);
                            ("ETH"%string, map of_Z [1; 2; 3; 5])]
      /\ Some df = Some returns
      /\ (3 <= length (last_rows 6 returns))%nat
      /\ (fun l : list float => if (length l <? 3)%nat then None else Some one)
           (last_rows 6 returns) = Some shapiro_p
      /\ fge shapiro_p one = true
      /\ zero = (fun _ : list float => zero) (last_rows 6 returns)
      /\ (fun _ _ => Some zero)
           (fdiv (fsub zero one) (fdiv one (sqrt_of_len 4)))
           (length (last_rows 6 returns) - 1)%nat = Some zero
      /\ flt zero one = true.
Proof.
  split; [reflexivity|].
  apply (monthly_test_rejects_only_after_normality
           (list float) Some
           (fun l => if (length l <? 3)%nat then None else Some one)
           (fun _ => zero) (fun _ => one) (fun _ _ => Some zero)
           [("BTC"%string, map of_Z [4; -2]);
            ("ETH"%string, map of_Z [1; 2; 3; 5])] one one "ETH"%string
           zero (fdiv (fsub zero one) (fdiv one (sqrt_of_len 4))) zero).
  reflexivity.
Defined.

Section DailyTestFacts.

Import DailyTest.

Variable DataFrame : Type.
Variable daily_returns_pct : DataFrame -> option (list float).
Variable shapiro_pvalue : list float -> option float.
Variable series_mean series_std : list float -> float.
Variable t_cdf : float -> Z -> option float.

Local Abbreviation try_daily' :=
  (try_asset_daily DataFrame daily_returns_pct shapiro_pvalue series_mean
                   series_std t_cdf).
Local Abbreviation step_daily' :=
  (asset_step_daily DataFrame daily_returns_pct shapiro_pvalue series_mean
                    series_std t_cdf).

Lemma asset_step_daily_eq (threshold_percent alpha : float)
      (st : gmap string TestResult * list Message)
      (coin : string) (df : DataFrame) :
  step_daily' threshold_percent alpha st (coin, df)
  = match try_daily' coin df threshold_percent alpha with
    | Some (r, msgs) => (<[coin := r]> st.1, st.2 ++ msgs)
    | None => (<[coin := undefined_result]> st.1, st.2 ++ [ErrorOnCoin coin])
    end.
Proof. destruct st as [results out]. reflexivity. Qed.

(** What the [try] block of the daily test leaves in the mapping when it
    does not raise. *)
Lemma try_asset_daily_result (coin : string) (df : DataFrame)
      (threshold_percent alpha : float) (r : TestResult) (msgs : list Message) :
  try_daily' coin df threshold_percent alpha = Some (r, msgs) ->
  exists returns shapiro_p,
    daily_returns_pct df = Some returns
    /\ shapiro_pvalue returns = Some shapiro_p
    /\ if fge shapiro_p alpha then
         let t_stat :=
           fdiv (fsub (series_mean returns) threshold_percent)
                (fdiv (series_std returns) (sqrt_of_len (length returns))) in
         exists p_value,
           t_cdf t_stat (Z.of_nat (length returns) - 1) = Some p_value
           /\ r = (series_mean returns, t_stat, p_value, flt p_value alpha)
       else r = (series_mean returns, nan, nan, false).
Proof.
  unfold try_asset_daily. intros Hrun.
  destruct (daily_returns_pct df) as [returns|]; simpl in Hrun; [|discriminate].
  destruct (shapiro_pvalue returns) as [shapiro_p|] eqn:Hsh; simpl in Hrun;
    [|discriminate].
  exists returns, shapiro_p. split; [reflexivity|]. split; [exact Hsh|].
  destruct (fge shapiro_p alpha).
  - destruct (t_cdf _ _) as [p|] eqn:Hcdf; simpl in Hrun; [|discriminate].
    injection Hrun as <- _. exists p. split; reflexivity.
  - by injection Hrun as <- _.
Qed.

End DailyTestFacts.

(** X15. In the daily test an asset whose processing raises, either while
    the returns are computed or inside the Shapiro-Wilk call (which has no
    guard on the number of returns here), is still given an entry: the
    undefined tuple [(nan, nan, nan, False)], and its error line is
    printed.  The keys of [data] are those of a dict, hence distinct. *)
Theorem daily_test_records_exception_as_undefined
        (DataFrame : Type)
        (daily_returns_pct : DataFrame -> option (list float))
        (shapiro_pvalue : list float -> option float)
        (series_mean series_std : list float -> float)
        (t_cdf : float -> Z -> option float)
        (data : list (string * DataFrame)) (threshold_percent alpha : float)
        (coin : string) (df : DataFrame) :
  NoDup data.*1 ->
  (coin, df) ∈ data ->
  daily_returns_pct df = None
  \/ (exists returns, daily_returns_pct df = Some returns
                      /\ shapiro_pvalue returns = None) ->
  (DailyTest.perform_mean_return_test
     DataFrame daily_returns_pct shapiro_pvalue series_mean series_std t_cdf
     data threshold_percent alpha).1 !! coin = Some undefined_result
  /\ ErrorOnCoin coin
       ∈ (DailyTest.perform_mean_return_test
            DataFrame daily_returns_pct shapiro_pvalue series_mean series_std
            t_cdf data threshold_percent alpha).2.
Proof.
  intros Hnd Hin Hraise. unfold DailyTest.perform_mean_return_test.
  apply (recorded_exception
           (fun c d => DailyTest.try_asset_daily
                         DataFrame daily_returns_pct shapiro_pvalue series_mean
                         series_std t_cdf c d threshold_percent alpha))
    with (df := df); auto.
  - intros st c d. apply asset_step_daily_eq.
  - unfold DailyTest.try_asset_daily.
    destruct Hraise as [->|(returns & -> & Hsh)]; [reflexivity|].
    simpl. by rewrite Hsh.
Qed.

Lemma daily_test_records_exception_as_undefined_witness :
  let shapiro := fun l : list float =>
                   if (length l <? 3)%nat then None else Some one in
  let data := [("BTC"%string, map of_Z [4; -2]);
               ("ETH"%string, map of_Z [1; 2; 3; 5])] in
  (DailyTest.perform_mean_return_test
     (list float) Some shapiro (fun _ => zero) (fun _ => one)
     (fun _ _ => Some zero) data one one).1 !! "BTC"%string
  = Some undefined_result
  /\ ErrorOnCoin "BTC"
       ∈ (DailyTest.perform_mean_return_test
            (list float) Some shapiro (fun _ => zero) (fun _ => one)
            (fun _ _ => Some zero) data one one).2.
Proof.
  intros shapiro data.
  apply (daily_test_records_exception_as_undefined
           (list float) Some shapiro (fun _ => zero) (fun _ => one)
           (fun _ _ => Some zero) data one one "BTC"%string
           (map of_Z [4; -2])).
  - apply (bool_decide_unpack _). vm_compute. reflexivity.
  - apply list_elem_of_here.
  - right. exists (map of_Z [4; -2]). split; reflexivity.
Defined.

(** X16. Every entry of the daily test's mapping is of one of three
    kinds, and there is an entry exactly for the assets of the input: the
    undefined tuple of the exception handler; for a Shapiro-Wilk p-value
    below [alpha] the sample mean with NaN statistics and no rejection;
    otherwise the sample mean, the t statistic, its left-tail p-value and
    [p_value < alpha]. *)
Theorem daily_test_entries
        (DataFrame : Type)
        (daily_returns_pct : DataFrame -> option (list float))
        (shapiro_pvalue : list float -> option float)
        (series_mean series_std : list float -> float)
        (t_cdf : float -> Z -> option float)
        (data : list (string * DataFrame)) (threshold_percent alpha : float)
        (coin : string) :
  match (DailyTest.perform_mean_return_test
           DataFrame daily_returns_pct shapiro_pvalue series_mean series_std
           t_cdf data threshold_percent alpha).1 !! coin with
  | None => coin ∉ data.*1
  | Some r =>
      exists df, (coin, df) ∈ data
      /\ (r = undefined_result
          \/ exists returns shapiro_p,
               daily_returns_pct df = Some returns
               /\ shapiro_pvalue returns = Some shapiro_p
               /\ if fge shapiro_p alpha then
                    let t_stat :=
                      fdiv (fsub (series_mean returns) threshold_percent)
                           (fdiv (series_std returns)
                                 (sqrt_of_len (length returns))) in
                    exists p_value,
                      t_cdf t_stat (Z.of_nat (length returns) - 1)
                      = Some p_value
                      /\ r = (series_mean returns, t_stat, p_value,
                              flt p_value alpha)
                  else r = (series_mean returns, nan, nan, false))
  end.
Proof.
  unfold DailyTest.perform_mean_return_test.
  set (try_block := fun c d =>
         DailyTest.try_asset_daily
           DataFrame daily_returns_pct shapiro_pvalue series_mean
           series_std t_cdf c d threshold_percent alpha).
  assert (Hstep : forall st c d,
            DailyTest.asset_step_daily
              DataFrame daily_returns_pct shapiro_pvalue series_mean
              series_std t_cdf threshold_percent alpha st (c, d)
            = match try_block c d with
              | Some (r, msgs) => (<[c := r]> st.1, st.2 ++ msgs)
              | None => (<[c := undefined_result]> st.1,
                         st.2 ++ [ErrorOnCoin c])
              end).
  { intros st c d. apply asset_step_daily_eq. }
  destruct (_ !! coin) as [r|] eqn:Hres.
  - apply (recorded_origin try_block _ Hstep) in Hres
      as [Hres|(df & Hin & Hwhy)].
    { simpl in Hres. by rewrite lookup_empty in Hres. }
    exists df. split; [exact Hin|].
    destruct Hwhy as [(msgs & Hrun)|[_ ->]]; [|by left].
    right. by apply try_asset_daily_result in Hrun.
  - intros Hin.
    assert (Hsome : is_Some ((foldl (DailyTest.asset_step_daily
                       DataFrame daily_returns_pct shapiro_pvalue series_mean
                       series_std t_cdf threshold_percent alpha)
                       (∅, []) data).1 !! coin)).
    { apply (recorded_keys try_block _ Hstep). by right. }
    rewrite Hres in Hsome. by destruct Hsome.
Qed.

(* ================================================================== *)
(** * The polynomial baselines *)

Section PolynomialModels.

Import Baselines.

Variable Pipeline : Type.
Variable fit_polynomial :
  Z -> list (list float) -> list float -> option Pipeline.

Lemma polynomial_loop_result (X : list (list float)) (y : list float)
      (degrees : list Z) (models : gmap Z Pipeline) :
  match polynomial_loop Pipeline fit_polynomial X y degrees models with
  | Some result =>
      (forall d, d ∈ degrees ->
         exists model, fit_polynomial d X y = Some model
                       /\ result !! d = Some model)
      /\ (forall d, d ∉ degrees -> result !! d = models !! d)
  | None => exists d, d ∈ degrees /\ fit_polynomial d X y = None
  end.
Proof.
  revert models. induction degrees as [|d rest IH]; intros models; simpl.
  - split; [|reflexivity]. intros d Hd. by apply elem_of_nil in Hd.
  - destruct (fit_polynomial d X y) as [model|] eqn:Hfit; simpl.
    + specialize (IH (<[d := model]> models)).
      destruct (polynomial_loop _ _ _ _ rest _) as [result|].
      * destruct IH as [Hin Hout]. split.
        -- intros d' Hd'. destruct (decide (d' ∈ rest)) as [Hr|Hr];
             [by apply Hin|].
           apply elem_of_cons in Hd' as [->|Hd']; [|done].
           exists model. split; [exact Hfit|].
           rewrite (Hout d Hr). apply lookup_insert_eq.
        -- intros d' Hd'. apply not_elem_of_cons in Hd' as [Hne Hd'].
           rewrite (Hout d' Hd'). by apply lookup_insert_ne.
      * destruct IH as (d' & Hd' & Hnone). exists d'.
        split; [by apply list_elem_of_further|exact Hnone].
    + exists d. split; [apply list_elem_of_here|exact Hfit].
Qed.

End PolynomialModels.

(** X17. [train_polynomial_models] returns a dict whose keys are exactly
    the requested degrees, each mapped to the pipeline fitted for that
    degree on the whole of [X] and [y] (a repeated degree is fitted again
    and overwrites its entry).  It has no handler: it raises exactly when
    one of the fits raises. *)
Theorem train_polynomial_models_result
        (Pipeline : Type)
        (fit_polynomial : Z -> list (list float) -> list float -> option Pipeline)
        (X : list (list float)) (y : list float) (degrees : list Z) :
  match Baselines.train_polynomial_models Pipeline fit_polynomial X y degrees with
  | Some models =>
      forall d,
        match models !! d with
        | Some model => d ∈ degrees /\ fit_polynomial d X y = Some model
        | None => d ∉ degrees
        end
  | None => exists d, d ∈ degrees /\ fit_polynomial d X y = None
  end.
Proof.
  unfold Baselines.train_polynomial_models.
  pose proof (polynomial_loop_result Pipeline fit_polynomial X y degrees ∅)
    as Hloop.
  destruct (Baselines.polynomial_loop _ _ _ _ _ _) as [models|];
    [|exact Hloop].
  destruct Hloop as [Hin Hout]. intros d.
  destruct (decide (d ∈ degrees)) as [Hd|Hd].
  - destruct (Hin d Hd) as (model & Hfit & ->). by split.
  - by rewrite (Hout d Hd), lookup_empty.
Qed.

(* ================================================================== *)
(** * The hold-out split of the model comparison *)

Section HoldOut.

Import Predict.

Lemma last_n_split {A : Type} (n : nat) (a : list A) :
  all_but_last n a ++ last_n n a = a
  /\ length (all_but_last n a) = (length a - n)%nat
  /\ length (last_n n a) = (length a `min` n)%nat.
Proof.
  unfold all_but_last, last_n. split; [apply take_drop|].
  rewrite length_take, length_drop. lia.
Qed.

Lemma prepare_features_aligned (df : DataFrame) (window : nat) :
  length (prepare_features df window).2 = length (prepare_features df window).1
  /\ (length (prepare_features df window).1 <= length (close df) - window)%nat.
Proof.
  unfold prepare_features. simpl.
  set (kept := dropna_rows (close df :: others df ++ lag_columns window df)
                           (length (close df))).
  destruct (omap_all_Some (fun r => close df !! r) kept) as [Hylen _].
  { apply Forall_forall. intros r Hr.
    destruct (dropna_rows_kept df window r Hr) as (_ & (v & -> & _) & _).
    by eexists. }
  rewrite length_map. split; [exact Hylen|].
  pose proof (sublist_length _ _ (dropna_rows_sublist df window)) as Hle.
  by rewrite length_seq in Hle.
Qed.

End HoldOut.

(** X18. The hold-out split of [run_comparison] cuts the windows of
    [prepare_features(df, window=7)] in two without losing or reordering
    any: the training part followed by the test part is the whole, in
    features and in targets; features and targets stay aligned in both
    parts; and the test part holds the last 30 windows, or all of them
    when there are fewer. *)
Theorem comparison_split_partitions (df : DataFrame) :
  let '((X_train, X_test), (y_train, y_test)) := Predict.comparison_split df in
  X_train ++ X_test = (prepare_features df 7).1
  /\ y_train ++ y_test = (prepare_features df 7).2
  /\ length X_train = length y_train
  /\ length X_test = length y_test
  /\ length X_test = (length (prepare_features df 7).1 `min` 30)%nat
  /\ length X_train = (length (prepare_features df 7).1 - 30)%nat.
Proof.
  unfold Predict.comparison_split.
  destruct (prepare_features_aligned df 7) as [Hlen _].
  destruct (prepare_features df 7) as [X y]. simpl in *.
  destruct (last_n_split 30 X) as (HX & HXtrain & HXtest).
  destruct (last_n_split 30 y) as (Hy & Hytrain & Hytest).
  repeat split; auto; lia.
Qed.

(** X19. A price frame of at most 37 rows leaves [run_comparison] with an
    empty training set: seven rows are lost to the lags, the remaining
    windows (at most 30) all go to the test part, and the three training
    calls receive empty arrays. *)
Theorem comparison_split_short_frame_has_no_training_data (df : DataFrame) :
  (length (close df) <= 37)%nat ->
  (Predict.comparison_split df).1.1 = []
  /\ (Predict.comparison_split df).2.1 = []
  /\ (Predict.comparison_split df).1.2 = (prepare_features df 7).1
  /\ (Predict.comparison_split df).2.2 = (prepare_features df 7).2.
Proof.
  intros Hshort. unfold Predict.comparison_split.
  destruct (prepare_features_aligned df 7) as [Hlen Hle].
  destruct (prepare_features df 7) as [X y]. simpl in *.
  unfold Predict.all_but_last, Predict.last_n.
  replace (length X - 30)%nat with 0%nat by lia.
  replace (length y - 30)%nat with 0%nat by lia.
  by rewrite !take_0, !drop_0.
Qed.

Lemma comparison_split_short_frame_has_no_training_data_witness :
  let df := {| close := map of_Z [10; 11; 12; 13; 14; 15; 16; 17; 18; 19];
               others := [] |} in
  (Predict.comparison_split df).1.1 = []
  /\ (Predict.comparison_split df).2.1 = []
  /\ (Predict.comparison_split df).1.2 = (prepare_features df 7).1
  /\ (Predict.comparison_split df).2.2 = (prepare_features df 7).2.
Proof.
  intros df.
  apply (comparison_split_short_frame_has_no_training_data df).
  simpl. lia.
Defined.

(* ================================================================== *)
(** * Loading the price files *)

Section LoadFacts.

Import DataLoad.

Variable DataFrame : Type.
Variable file_path : string -> string -> string.
Variable read_frame : string -> option DataFrame.

Lemma load_fold (base_path : string) (coins : list string)
      (data : gmap string DataFrame) (c : string) :
  foldl (load_step DataFrame file_path read_frame base_path) data coins !! c
  = if decide (c ∈ coins) then
      match read_frame (file_path base_path c) with
      | Some df => Some df
      | None => data !! c
      end
    else data !! c.
Proof.
  revert data. induction coins as [|coin rest IH]; intros data; cbn [foldl].
  - rewrite decide_False; [reflexivity|]. apply not_elem_of_nil.
  - rewrite IH. unfold load_step.
    destruct (decide (c = coin)) as [->|Hne].
    + rewrite (decide_True (P := coin ∈ coin :: rest))
        by apply list_elem_of_here.
      destruct (read_frame (file_path base_path coin)) as [df|];
        destruct (decide (coin ∈ rest)); try reflexivity.
      apply lookup_insert_eq.
    + destruct (decide (c ∈ rest)) as [Hr|Hr].
      * rewrite decide_True by (by apply list_elem_of_further).
        destruct (read_frame (file_path base_path c)); [reflexivity|].
        destruct (read_frame (file_path base_path coin)); [|reflexivity].
        by apply lookup_insert_ne.
      * rewrite decide_False by (by apply not_elem_of_cons).
        destruct (read_frame (file_path base_path coin)); [|reflexivity].
        by apply lookup_insert_ne.
Qed.

End LoadFacts.

(** X20. [load_all_cryptos] returns a frame under a key exactly when the
    key is one of the ten symbols of its list and reading
    [base_path/<symbol>.csv] did not raise, and the frame is the one read
    from that file.  A missing or unreadable file leaves its symbol out
    and never makes the function raise. *)
Theorem load_all_cryptos_keys
        (DataFrame : Type) (file_path : string -> string -> string)
        (read_frame : string -> option DataFrame)
        (base_path coin : string) :
  DataLoad.load_all_cryptos DataFrame file_path read_frame base_path !! coin
  = if decide (coin ∈ DataLoad.cryptos)
    then read_frame (file_path base_path coin) else None.
Proof.
  unfold DataLoad.load_all_cryptos. rewrite load_fold.
  destruct (decide (coin ∈ DataLoad.cryptos)); [|apply lookup_empty].
  destruct (read_frame _); [reflexivity|apply lookup_empty].
Qed.

(* ================================================================== *)
(** * The program loggers *)

Section LoggerFacts.

Import Logging.

Variable log_file_path : string -> string.
Variable can_open : string -> bool.

Lemma getLogger_insert (name : string) (logger : Logger)
      (registry : gmap string Logger) :
  getLogger name (<[logger_key name := logger]> registry) = logger.
Proof. unfold getLogger. by rewrite lookup_insert_eq. Qed.

(** Two names get the same logger as soon as they denote the same one. *)
Lemma getLogger_alias (name name' : string) (registry : gmap string Logger) :
  logger_key name = logger_key name' ->
  getLogger name registry = getLogger name' registry.
Proof. unfold getLogger. by intros ->. Qed.

Lemma get_logger_configured (progname : string)
      (registry registry' : gmap string Logger) :
  get_logger log_file_path can_open progname registry = Some registry' ->
  registry' !! logger_key progname = Some (getLogger progname registry')
  /\ handlers (getLogger progname registry') <> []
  /\ forall key, key <> logger_key progname ->
       registry' !! key = registry !! key.
Proof.
  unfold get_logger. intros Hget.
  destruct (handlers (getLogger progname registry)) as [|h hs] eqn:Hh.
  - destruct (can_open (log_file_path progname)); [|discriminate].
    injection Hget as <-. rewrite getLogger_insert. simpl.
    split; [apply lookup_insert_eq|]. split; [discriminate|].
    intros key Hne. by apply lookup_insert_ne.
  - injection Hget as <-. rewrite getLogger_insert.
    split; [apply lookup_insert_eq|]. split; [by rewrite Hh|].
    intros key Hne. by apply lookup_insert_ne.
Qed.

End LoggerFacts.

(** X21. [get_logger] never stacks handlers.  After a successful call
    the logger of the program has at least one handler, so a later call
    for the same logger, under the same name or under another name of it
    (the empty name and ["root"] are both the root logger), changes
    nothing: the same registry comes back, with no handler added and no
    file opened.  A name that denotes another logger gets the logger it
    got before the call. *)
Theorem get_logger_is_idempotent
        (log_file_path : string -> string) (can_open : string -> bool)
        (progname : string) (registry registry' : gmap string Logging.Logger) :
  Logging.get_logger log_file_path can_open progname registry = Some registry' ->
  (forall name can_open',
      Logging.logger_key name = Logging.logger_key progname ->
      Logging.get_logger log_file_path can_open' name registry' = Some registry')
  /\ (forall other,
        Logging.logger_key other <> Logging.logger_key progname ->
        Logging.getLogger other registry' = Logging.getLogger other registry).
Proof.
  intros Hget.
  destruct (get_logger_configured _ _ _ _ _ Hget) as (Hreg & Hh & Hother).
  split.
  - intros name can_open' Hkey. unfold Logging.get_logger.
    rewrite (getLogger_alias name progname registry' Hkey), Hkey.
    destruct (Logging.handlers (Logging.getLogger progname registry'))
      as [|h hs]; [done|].
    f_equal. by apply insert_id.
  - intros other Hne. unfold Logging.getLogger. by rewrite (Hother _ Hne).
Qed.

Lemma get_logger_is_idempotent_witness :
  let registry' :=
    {[ "root"%string :=
         {| Logging.handlers :=
              [{| Logging.log_file := "logs/root.log"%string;
                  Logging.file_mode := "a"%string;
                  Logging.formatter :=
                    "[%(asctime)s] %(levelname)s: %(message)s"%string |}];
            Logging.level := Logging.INFO |} ]} in
  (forall name can_open',
      Logging.logger_key name = Logging.logger_key "root" ->
      Logging.get_logger (fun p => ("logs/" +:+ p +:+ ".log")%string) can_open'
                         name registry' = Some registry')
  /\ (forall other,
        Logging.logger_key other <> Logging.logger_key "root" ->
        Logging.getLogger other registry'
        = Logging.getLogger other (∅ : gmap string Logging.Logger)).
Proof.
  intros registry'.
  apply (get_logger_is_idempotent
           (fun p => ("logs/" +:+ p +:+ ".log")%string) (fun _ => true)
           "root"%string ∅ registry').
  reflexivity.
Defined.

(** X22. What a call of [get_logger] does to the logger it returns.  A
    logger without handler gets exactly one file handler, on
    [logs/<progname>.log] in append mode with the fixed format, and level
    [INFO]; the call raises only if that file cannot be opened.  A logger
    that already has a handler is returned as it is: handlers and level
    unchanged, whatever its level, and no file is opened. *)
Theorem get_logger_configures_once
        (log_file_path : string -> string) (can_open : string -> bool)
        (progname : string) (registry : gmap string Logging.Logger) :
  let logger := Logging.getLogger progname registry in
  match Logging.get_logger log_file_path can_open progname registry with
  | Some registry' =>
      let logger' := Logging.getLogger progname registry' in
      if decide (Logging.handlers logger = []) then
        can_open (log_file_path progname) = true
        /\ Logging.handlers logger'
           = [{| Logging.log_file := log_file_path progname;
                 Logging.file_mode := "a";
                 Logging.formatter :=
                   "[%(asctime)s] %(levelname)s: %(message)s" |}]
        /\ Logging.level logger' = Logging.INFO
      else logger' = logger
  | None =>
      Logging.handlers logger = []
      /\ can_open (log_file_path progname) = false
  end.
Proof.
  unfold Logging.get_logger. simpl.
  destruct (Logging.handlers (Logging.getLogger progname registry))
    as [|h hs] eqn:Hh.
  - destruct (can_open (log_file_path progname)); [|by split].
    rewrite getLogger_insert. rewrite decide_True by reflexivity. simpl.
    repeat split.
  - rewrite getLogger_insert. rewrite decide_False by discriminate.
    reflexivity.
Qed.

(* ================================================================== *)
(** * The trade-volume groups *)

Section TradeGroups.

Lemma fge_not_flt (x y : float) : fge x y = true -> flt x y = false.
Proof. exact (fle_not_fgt y x). Qed.

Lemma not_flt_fge (x y : float) :
  isnan x = false -> isnan y = false -> flt x y = false -> fge x y = true.
Proof. intros Hx Hy. exact (not_fgt_fle y x Hy Hx). Qed.

Lemma nan_compares_false (x y : float) :
  isnan x = true \/ isnan y = true -> fge x y = false /\ flt x y = false.
Proof.
  intros [Hx|Hy].
  - destruct x; try discriminate. by destruct y.
  - destruct y; try discriminate. by destruct x.
Qed.

Lemma index_value_unique {A : Type} (l : list (string * A)) (c : string)
      (v v' : A) :
  NoDup l.*1 -> (c, v) ∈ l -> (c, v') ∈ l -> v = v'.
Proof.
  induction l as [|[c0 v0] l IH]; simpl; intros Hnd Hin Hin'.
  - by apply elem_of_nil in Hin.
  - apply NoDup_cons in Hnd as [Hc0 Hnd].
    assert (Hkey : forall w, (c, w) ∈ l -> c ∈ l.*1).
    { intros w Hw. apply list_elem_of_fmap. by exists (c, w). }
    apply elem_of_cons in Hin as [Heq|Hin];
      apply elem_of_cons in Hin' as [Heq'|Hin']; auto.
    + congruence.
    + injection Heq as -> ->. by apply Hkey in Hin'.
    + injection Heq' as -> ->. by apply Hkey in Hin.
Qed.

Lemma group_members (test : float -> bool) (avg : list (string * float))
      (c : string) (v : float) :
  NoDup avg.*1 ->
  (c, v) ∈ avg ->
  c ∈ (filter (fun cv => test cv.2 = true) avg).*1 <-> test v = true.
Proof.
  intros Hnd Hin. rewrite list_elem_of_fmap. split.
  - intros ([c' v'] & -> & Hf). apply list_elem_of_filter in Hf as [Ht Hin'].
    simpl in *. by rewrite (index_value_unique avg c' v v' Hnd Hin Hin').
  - intros Ht. exists (c, v). split; [reflexivity|].
    by apply list_elem_of_filter.
Qed.

End TradeGroups.

(** X23. The two trade-volume groups of [run_analysis] are disjoint, and
    a symbol is in the high group when its average trade count is at least
    the median and in the low group when it is below.  A symbol whose
    average is NaN is in neither group (and no symbol is in any group if
    the median is NaN); every other symbol is in exactly one.  The index
    of the series is that of a frame's columns taken from a dict, hence
    without repetition. *)
Theorem trade_groups_split_on_median
        (avg_trade_count : list (string * float)) (trade_count_median : float)
        (coin : string) (v : float) :
  NoDup avg_trade_count.*1 ->
  (coin, v) ∈ avg_trade_count ->
  let high := Anova.high_trade_cryptos avg_trade_count trade_count_median in
  let low := Anova.low_trade_cryptos avg_trade_count trade_count_median in
  (coin ∈ high <-> fge v trade_count_median = true)
  /\ (coin ∈ low <-> flt v trade_count_median = true)
  /\ ~ (coin ∈ high /\ coin ∈ low)
  /\ (isnan v = true \/ isnan trade_count_median = true ->
      (coin ∉ high) /\ (coin ∉ low))
  /\ (isnan v = false -> isnan trade_count_median = false ->
      coin ∈ high \/ coin ∈ low).
Proof.
  intros Hnd Hin high low.
  assert (Hhigh : coin ∈ high <-> fge v trade_count_median = true).
  { apply (group_members (fun x => fge x trade_count_median)); assumption. }
  assert (Hlow : coin ∈ low <-> flt v trade_count_median = true).
  { apply (group_members (fun x => flt x trade_count_median)); assumption. }
  split; [exact Hhigh|]. split; [exact Hlow|]. rewrite Hhigh, Hlow.
  split; [|split].
  - intros [Hge Hlt]. apply fge_not_flt in Hge. congruence.
  - intros Hnan. apply nan_compares_false in Hnan as [-> ->].
    split; discriminate.
  - intros Hv Hm. destruct (flt v trade_count_median) eqn:Hlt; [by right|].
    left. by apply not_flt_fge.
Qed.

Lemma trade_groups_split_on_median_witness :
  let avg := [("ADA"%string, of_Z 10); ("BTC"%string, of_Z 30);
              ("ETH"%string, nan)] in
  let high := Anova.high_trade_cryptos avg (of_Z 20) in
  let low := Anova.low_trade_cryptos avg (of_Z 20) in
  ("ETH"%string ∈ high <-> fge nan (of_Z 20) = true)
  /\ ("ETH"%string ∈ low <-> flt nan (of_Z 20) = true)
  /\ ~ ("ETH"%string ∈ high /\ "ETH"%string ∈ low)
  /\ (isnan nan = true \/ isnan (of_Z 20) = true ->
      ("ETH"%string ∉ high) /\ ("ETH"%string ∉ low))
  /\ (isnan nan = false -> isnan (of_Z 20) = false ->
      "ETH"%string ∈ high \/ "ETH"%string ∈ low).
Proof.
  intros avg.
  apply (trade_groups_split_on_median avg (of_Z 20) "ETH"%string nan).
  - apply (bool_decide_unpack _). vm_compute. reflexivity.
  - apply list_elem_of_further, list_elem_of_further, list_elem_of_here.
Defined.
